(** * Readiness / health lifecycle of the Agones sidecar

    A shallow embedding of the Go sources

      - [internal/agones/manager.go]  ([RunManager], [probeGameServer]),
      - [internal/probe/probe.go]     ([PingProbe.Probe], two-branch variant),
      - the later [PingProbe.Probe] with the explicit transport check,
      - [main.go]                     ([runMonitor], [main]),
      - the entry point of the unified sidecar ([main]),

    as programs of a small monad over an explicit world: a logical clock in
    nanoseconds, the chronological list of the actions performed so far, and
    an environment that answers every blocking call (how long it took, what
    it returned) and resolves the choice Go's [select] makes when several
    cases are ready.  Loops take fuel: the heartbeat loop and the readiness
    loop need not terminate.

    Left out: the attributes of the log lines other than "error", the
    deferred [ticker.Stop()] and [stop()], the loading of the configuration
    from the process environment, and the file API. *)

From Stdlib Require Import ZArith List String Ascii Bool Lia.
Import ListNotations.

Open Scope string_scope.
Open Scope list_scope.
Open Scope Z_scope.

(** ** Durations, errors, actions *)

(** [time.Duration] counts nanoseconds. *)
Definition Duration := Z.
Definition Second : Duration := 1000000000.

Inductive error : Type :=
| Canceled                                   (* context.Canceled *)
| NetError (msg : string)                    (* an error of package net *)
| SDKError (msg : string)                    (* an error of the Agones SDK *)
| Errorf_s (prefix : string) (arg : string)  (* fmt.Errorf("prefix%s", arg) *)
| Errorf_w (prefix : string) (cause : error) (* fmt.Errorf("prefix%w", cause) *).

(** [err.Error()]. *)
Fixpoint Error_text (e : error) : string :=
  match e with
  | Canceled => "context canceled"
  | NetError msg => msg
  | SDKError msg => msg
  | Errorf_s prefix arg => prefix ++ arg
  | Errorf_w prefix cause => prefix ++ Error_text cause
  end.

Inductive Level : Type := LevelDebug | LevelInfo | LevelWarn | LevelError.

(** The two cases of the [select] statements of the sources. *)
Inductive Case : Type := CaseDone | CaseTick.

Inductive Event : Type :=
| ELog (lvl : Level) (msg : string) (err : option error)
| ESleep (d : Duration)
| ENewTicker (d : Duration)
| ERecv (c : Case)
| EDial (network address : string) (timeout : Duration) (res : option error)
| EWrite (payload : string) (res : option error)
| ESetReadDeadline (d : Duration)
| ERead (res : option error)
| EClose
| EReady (res : option error)
| EHealth (res : option error)
| EGo
| EExit (code : Z).

(** An action together with the instant at which it was issued. *)
Definition Entry : Type := Z * Event.
Definition Trace : Type := list Entry.

(** ** The environment

    Everything the program cannot decide itself.  The replies are indexed by
    the number of environment interactions made so far ([calls] below). *)
Record Env : Type := mkEnv {
  signal_at    : option Z;                  (* arrival of SIGINT / SIGTERM *)
  sdk_connect  : option error;              (* sdk.NewSDK() *)
  lag          : nat -> N;                  (* overshoot of a sleep or wake-up *)
  pick         : nat -> Case;               (* select, when both cases are ready *)
  dial_reply   : nat -> N * option error;   (* net.DialTimeout: time taken, error *)
  write_reply  : nat -> option error;       (* conn.Write *)
  read_reply   : nat -> N * option error;   (* conn.Read *)
  ready_reply  : nat -> N * option error;   (* agonesSDK.Ready() *)
  health_reply : nat -> N * option error    (* agonesSDK.Health() *)
}.

Record World : Type := mkWorld {
  now   : Z;
  trace : Trace;
  calls : nat
}.

Definition World0 : World := mkWorld 0 [] 0.

(** ** The monad *)

Inductive Outcome (A : Type) : Type :=
| Done (a : A) (w : World)        (* returned [a] *)
| Panicked (msg : string) (w : World)
| Exited (code : Z) (w : World)   (* os.Exit *)
| Blocked (w : World)             (* waits for ever *)
| OutOfFuel (w : World).
Arguments Done {A} a w.
Arguments Panicked {A} msg w.
Arguments Exited {A} code w.
Arguments Blocked {A} w.
Arguments OutOfFuel {A} w.

Definition final {A} (o : Outcome A) : World :=
  match o with
  | Done _ w | Panicked _ w | Exited _ w | Blocked w | OutOfFuel w => w
  end.

Definition history {A} (o : Outcome A) : Trace := trace (final o).

Definition M (A : Type) : Type := Env -> World -> Outcome A.

Definition ret {A} (a : A) : M A := fun _ w => Done a w.

Definition bind {A B} (m : M A) (k : A -> M B) : M B :=
  fun env w =>
    match m env w with
    | Done a w' => k a env w'
    | Panicked msg w' => Panicked msg w'
    | Exited c w' => Exited c w'
    | Blocked w' => Blocked w'
    | OutOfFuel w' => OutOfFuel w'
    end.

Declare Scope go_scope.
Delimit Scope go_scope with go.
Notation "x <- c ;; k" := (bind c (fun x => k))
  (at level 61, c at next level, right associativity) : go_scope.
Notation "' pat <- c ;; k" := (bind c (fun x => match x with pat => k end))
  (at level 61, pat pattern, c at next level, right associativity) : go_scope.
Notation "c ;; k" := (bind c (fun _ => k))
  (at level 61, right associativity) : go_scope.
Open Scope go_scope.

(** [emit w e d]: action [e], issued now, takes [d] nanoseconds. *)
Definition emit (w : World) (e : Event) (d : Z) : World :=
  mkWorld (now w + d) (trace w ++ [(now w, e)]) (S (calls w)).

Definition out_of_fuel {A} : M A := fun _ w => OutOfFuel w.
Definition panic {A} (msg : string) : M A := fun _ w => Panicked msg w.

(** ** Primitives of the Go runtime and libraries used by the sources *)

(** [slog.Info], [slog.Warn], ...: only the message and the "error"
    attribute are kept. *)
Definition slog (lvl : Level) (msg : string) (err : option error) : M unit :=
  fun _ w => Done tt (emit w (ELog lvl msg err) 0).

(** [os.Exit]. *)
Definition os_Exit {A} (code : Z) : M A :=
  fun _ w => Exited code (emit w (EExit code) 0).

(** [time.Sleep d] pauses for at least [d]; a negative or zero [d] returns
    at once. *)
Definition Sleep (d : Duration) : M unit :=
  fun env w => Done tt (emit w (ESleep d) (Z.max 0 d + Z.of_N (lag env (calls w)))).

(** A context is represented by the instant at which it is cancelled. *)
Record Context : Type := mkContext { done_at : option Z }.

Definition ctx_done (ctx : Context) (t : Z) : bool :=
  match done_at ctx with
  | Some c => c <=? t
  | None => false
  end.

(** [signal.NotifyContext(context.Background(), SIGINT, SIGTERM)]. *)
Definition NotifyContext : M Context :=
  fun env w => Done (mkContext (signal_at env)) w.

(** [ctx.Err()]. *)
Definition ctx_Err (ctx : Context) : M (option error) :=
  fun _ w => Done (if ctx_done ctx (now w) then Some Canceled else None) w.

(** [<-ctx.Done()] outside a select. *)
Definition recv_Done (ctx : Context) : M unit :=
  fun env w =>
    match done_at ctx with
    | None => Blocked w
    | Some c =>
        let t := Z.max (now w) c in
        Done tt (mkWorld (t + Z.of_N (lag env (calls w)))
                         (trace w ++ [(t, ERecv CaseDone)]) (S (calls w)))
    end.

(** A ticker of period [period] whose channel holds, or will next hold, the
    tick of instant [next].  The channel has room for one tick: ticks that
    fire while it is full are dropped. *)
Record Ticker : Type := mkTicker { period : Duration; next : Z }.

(** [time.NewTicker d] panics unless [d] is positive; the first tick is
    delivered [d] after the call. *)
Definition NewTicker (d : Duration) : M Ticker :=
  fun _ w =>
    if d <=? 0 then Panicked "non-positive interval for NewTicker" w
    else Done (mkTicker d (now w + d)) (emit w (ENewTicker d) 0).

(** The tick after the one received at instant [t]: the first instant of
    the ticker's grid strictly after [t]. *)
Definition after_recv (tk : Ticker) (t : Z) : Ticker :=
  mkTicker (period tk) (next tk + ((t - next tk) / period tk + 1) * period tk).

(** The instant at which a select over [ctx.Done()] and [ticker.C] can
    proceed: now, if a case is ready; else the earlier of the two events. *)
Definition wake_time (ctx : Context) (tk : Ticker) (t : Z) : Z :=
  match done_at ctx with
  | Some c => Z.max t (Z.min c (next tk))
  | None => Z.max t (next tk)
  end.

(** [select { case <-ctx.Done(): ...  case <-ticker.C: ... }].  When one
    case can proceed it is taken; when both can, Go chooses one of them
    pseudo-randomly: here the environment's [pick]. *)
Definition select (ctx : Context) (tk : Ticker) : M (Case * Ticker) :=
  fun env w =>
    let t := wake_time ctx tk (now w) in
    let c := if ctx_done ctx t
             then (if next tk <=? t then pick env (calls w) else CaseDone)
             else CaseTick in
    let tk' := match c with CaseDone => tk | CaseTick => after_recv tk t end in
    Done (c, tk')
         (mkWorld (t + Z.of_N (lag env (calls w)))
                  (trace w ++ [(t, ERecv c)]) (S (calls w))).

(** The result of one iteration of a [for] loop. *)
Inductive Flow (A : Type) : Type :=
| Continue
| Return (a : A).
Arguments Continue {A}.
Arguments Return {A} a.

(** [for { select { case <-ctx.Done(): on_done  case <-ticker.C: on_tick } }] *)
Fixpoint for_select {A} (fuel : nat) (ctx : Context) (tk : Ticker)
    (on_done on_tick : M (Flow A)) : M A :=
  match fuel with
  | O => out_of_fuel
  | S fuel' =>
      '(c, tk') <- select ctx tk ;;
      f <- match c with CaseDone => on_done | CaseTick => on_tick end ;;
      match f with
      | Return a => ret a
      | Continue => for_select fuel' ctx tk' on_done on_tick
      end
  end.

(** A connection; [None] is Go's nil. *)
Definition Conn : Type := option nat.

(** [net.DialTimeout]: a connection and no error, or nil and an error. *)
Definition DialTimeout (network address : string) (timeout : Duration)
  : M (Conn * option error) :=
  fun env w =>
    let '(d, res) := dial_reply env (calls w) in
    let conn := match res with None => Some (calls w) | Some _ => None end in
    Done (conn, res) (emit w (EDial network address timeout res) (Z.of_N d)).

Definition nil_deref : string :=
  "invalid memory address or nil pointer dereference".

(** [conn.Close()]. *)
Definition Close (conn : Conn) : M unit :=
  fun _ w =>
    match conn with
    | None => Panicked nil_deref w
    | Some _ => Done tt (emit w EClose 0)
    end.

(** [conn.Write(payload)], keeping the error only. *)
Definition Write (conn : Conn) (payload : string) : M (option error) :=
  fun env w =>
    match conn with
    | None => Panicked nil_deref w
    | Some _ =>
        let res := write_reply env (calls w) in
        Done res (emit w (EWrite payload res) 0)
    end.

(** [conn.SetReadDeadline(time.Now().Add(d))]. *)
Definition SetReadDeadline (conn : Conn) (d : Duration) : M unit :=
  fun _ w =>
    match conn with
    | None => Panicked nil_deref w
    | Some _ => Done tt (emit w (ESetReadDeadline d) 0)
    end.

(** [conn.Read(buf)], keeping the error only. *)
Definition Read (conn : Conn) : M (option error) :=
  fun env w =>
    match conn with
    | None => Panicked nil_deref w
    | Some _ =>
        let '(d, res) := read_reply env (calls w) in
        Done res (emit w (ERead res) (Z.of_N d))
    end.

(** The handle returned by [sdk.NewSDK()]. *)
Inductive SDK : Type := sdk_conn.

Definition NewSDK : M (SDK * option error) :=
  fun env w => Done (sdk_conn, sdk_connect env) w.

Definition Ready (agonesSDK : SDK) : M (option error) :=
  fun env w =>
    let '(d, res) := ready_reply env (calls w) in
    Done res (emit w (EReady res) (Z.of_N d)).

Definition Health (agonesSDK : SDK) : M (option error) :=
  fun env w =>
    let '(d, res) := health_reply env (calls w) in
    Done res (emit w (EHealth res) (Z.of_N d)).

(** [strings.ToLower], on the ASCII letters. *)
Definition lower_ascii (c : ascii) : ascii :=
  let n := nat_of_ascii c in
  if ((65 <=? n) && (n <=? 90))%nat then ascii_of_nat (n + 32) else c.

Fixpoint ToLower (s : string) : string :=
  match s with
  | EmptyString => EmptyString
  | String c s' => String (lower_ascii c) (ToLower s')
  end.

(** [strings.Contains]. *)
Fixpoint Contains (s substr : string) : bool :=
  if String.prefix substr s then true
  else match s with
       | EmptyString => false
       | String _ s' => Contains s' substr
       end.

Fixpoint has_colon (s : string) : bool :=
  match s with
  | EmptyString => false
  | String c s' => Ascii.eqb c ":" || has_colon s'
  end.

(** [net.JoinHostPort]: a host with a colon is bracketed. *)
Definition JoinHostPort (host port : string) : string :=
  if has_colon host then ("[" ++ host ++ "]:" ++ port)%string
  else (host ++ ":" ++ port)%string.

(** The interface [probe.ReadinessProbe]; the first argument is the fuel of
    the implementation's loop. *)
Class ReadinessProbe (P : Type) : Type :=
  Probe : nat -> P -> Context -> M (option error).

(** ** github.com/koutselakismanos/agnostic-agones-sidecar
       ([main.go], [internal/probe/probe.go], its [internal/config]) *)
Module Agnostic.

Module config.
Record PingConfig : Type := mkPingConfig {
  Host : string;
  Port : string;
  Protocol : string;
  Timeout : Duration
}.

Record Config : Type := mkConfig {
  InitialDelay : Duration;
  HealthInterval : Duration;
  Ping : PingConfig
}.
End config.

Module probe.
Record PingProbe : Type := mkPingProbe { Config : config.PingConfig }.

(** One probe attempt: the body of [case <-ticker.C] down to the test of
    [err] (probe.go, lines 35-51). *)
Definition attempt (p : PingProbe) (protocol address : string)
  : M (option error) :=
  if String.eqb protocol "tcp" then
    '(conn, err) <- DialTimeout protocol address (config.Timeout (Config p)) ;;
    match conn with
    | Some _ => Close conn
    | None => ret tt
    end ;;
    ret err
  else (* Handles "udp" *)
    '(conn, err) <- DialTimeout protocol address (config.Timeout (Config p)) ;;
    match err with
    | None =>
        err <- Write conn "ping" ;;
        match conn with
        | Some _ => Close conn
        | None => ret tt
        end ;;
        ret err
    | Some _ => ret err
    end.

Definition PingProbe_Probe (fuel : nat) (p : PingProbe) (ctx : Context)
  : M (option error) :=
  let protocol := ToLower (config.Protocol (Config p)) in
  let address := JoinHostPort (config.Host (Config p)) (config.Port (Config p)) in
  slog LevelInfo "Starting ping probe" None ;;
  ticker <- NewTicker (5 * Second) ;; (* Retry interval *)
  for_select fuel ctx ticker
    (* case <-ctx.Done(): *)
    (err <- ctx_Err ctx ;; ret (Return err))
    (* case <-ticker.C: *)
    (err <- attempt p protocol address ;;
     match err with
     | None =>
         slog LevelInfo "Ping probe successful" None ;;
         ret (Return None)
     | Some _ =>
         slog LevelWarn "Ping attempt failed, retrying..." err ;;
         ret Continue
     end).

#[global] Instance PingProbe_ReadinessProbe : ReadinessProbe PingProbe :=
  PingProbe_Probe.
End probe.

(** The heartbeat loop of [runMonitor] (main.go, lines 56-68). *)
Definition heartbeat (fuel : nat) (ctx : Context) (cfg : config.Config)
    (agonesSDK : SDK) : M (option error) :=
  ticker <- NewTicker (config.HealthInterval cfg) ;;
  for_select fuel ctx ticker
    (* case <-ctx.Done(): *)
    (slog LevelInfo "Shutdown signal received. Exiting." None ;;
     ret (Return None))
    (* case <-ticker.C: *)
    (err <- Health agonesSDK ;;
     match err with
     | Some _ => slog LevelWarn "Failed to send health ping" err
     | None => ret tt
     end ;;
     ret Continue).

Definition runMonitor {P : Type} `{ReadinessProbe P}
    (fuel : nat) (p : P) (cfg : config.Config) : M (option error) :=
  ctx <- NotifyContext ;;
  '(agonesSDK, err) <- NewSDK ;;
  match err with
  | Some e => ret (Some (Errorf_w "could not connect to Agones SDK: " e))
  | None =>
      slog LevelInfo "Successfully connected to Agones SDK" None ;;
      slog LevelInfo "Waiting for initial delay" None ;;
      Sleep (config.InitialDelay cfg) ;;
      slog LevelInfo "Starting readiness probe..." None ;;
      err <- Probe fuel p ctx ;;
      match err with
      | Some e => ret (Some (Errorf_w "readiness probe failed: " e))
      | None =>
          err <- Ready agonesSDK ;;
          match err with
          | Some e => ret (Some (Errorf_w "failed to send Ready signal: " e))
          | None =>
              slog LevelInfo ">>> Server is Ready! Starting health checks. <<<" None ;;
              heartbeat fuel ctx cfg agonesSDK
          end
      end
  end.

(** [cfg] stands for the result of [config.FromEnv()]. *)
Definition main (fuel : nat) (cfg : config.Config) : M unit :=
  let p := probe.mkPingProbe (config.Ping cfg) in
  slog LevelInfo "Starting Agnostic Agones Sidecar" None ;;
  err <- runMonitor fuel p cfg ;;
  match err with
  | Some _ =>
      slog LevelError "Monitor failed" err ;;
      os_Exit 1
  | None => slog LevelInfo "Monitor finished gracefully." None
  end.

End Agnostic.

(** [go f(...)].  The goroutine is run first, up to its return or to the
    end of the fuel; its result is dropped.  A panic in a goroutine brings
    the process down; a goroutine that returns or waits for ever leaves the
    others running. *)
Definition go {A} (m : M A) : M unit :=
  fun env w =>
    match m env (emit w EGo 0) with
    | Done _ w' => Done tt w'
    | Panicked msg w' => Panicked msg w'
    | Exited c w' => Exited c w'
    | Blocked w' => Done tt w'
    | OutOfFuel w' => OutOfFuel w'
    end.

(** ** github.com/pegnia/sidecar
       ([internal/agones/manager.go], its [internal/probe], its entry point) *)
Module Sidecar.

Module config.
Record AgonesConfig : Type := mkAgonesConfig {
  InitialDelay : Duration;
  HealthInterval : Duration;
  PingHost : string;
  PingPort : string;
  PingProtocol : string;
  PingTimeout : Duration
}.
End config.

Module probe.
Record PingProbe : Type := mkPingProbe { Config : config.AgonesConfig }.

(** The write and the optional read of the UDP branch (lines 50-69). *)
Definition udp_exchange (p : PingProbe) (conn : Conn) : M (option error) :=
  (* Write a ping message *)
  err <- Write conn "ping" ;;
  match err with
  | Some _ =>
      slog LevelWarn "Failed to write to UDP connection" err ;;
      ret err
  | None =>
      (* Try to read a response, but don't require it *)
      SetReadDeadline conn (config.PingTimeout (Config p)) ;;
      readErr <- Read conn ;;
      match readErr with
      | Some e =>
          (* If it's a timeout error, that's expected for many UDP services *)
          if negb (Contains (Error_text e) "timeout") then
            slog LevelDebug
              "No response from UDP server (expected for many services)" readErr
          else ret tt
      | None => slog LevelDebug "Received response from UDP server" None
      end ;;
      ret err
  end.

(** One probe attempt: the body of [case <-ticker.C] down to the test of
    [err] (lines 36-75). *)
Definition attempt (p : PingProbe) (protocol address : string)
  : M (option error) :=
  if String.eqb protocol "tcp" then
    (* For TCP, just establishing a connection is sufficient *)
    '(conn, err) <- DialTimeout protocol address (config.PingTimeout (Config p)) ;;
    match conn with
    | Some _ => Close conn
    | None => ret tt
    end ;;
    ret err
  else if String.eqb protocol "udp" then
    '(conn, err) <- DialTimeout protocol address (config.PingTimeout (Config p)) ;;
    match err, conn with
    | None, Some _ =>
        err <- udp_exchange p conn ;;
        Close conn ;;
        ret err
    | _, _ => ret err
    end
  else
    ret (Some (Errorf_s "unsupported protocol: " protocol)).

Definition PingProbe_Probe (fuel : nat) (p : PingProbe) (ctx : Context)
  : M (option error) :=
  let protocol := ToLower (config.PingProtocol (Config p)) in
  let address :=
    JoinHostPort (config.PingHost (Config p)) (config.PingPort (Config p)) in
  slog LevelInfo "Starting ping probe" None ;;
  ticker <- NewTicker (5 * Second) ;; (* Retry interval *)
  for_select fuel ctx ticker
    (* case <-ctx.Done(): *)
    (err <- ctx_Err ctx ;; ret (Return err))
    (* case <-ticker.C: *)
    (err <- attempt p protocol address ;;
     match err with
     | None =>
         slog LevelInfo "Ping probe successful" None ;;
         ret (Return None)
     | Some _ =>
         slog LevelWarn "Ping attempt failed, retrying..." err ;;
         ret Continue
     end).

#[global] Instance PingProbe_ReadinessProbe : ReadinessProbe PingProbe :=
  PingProbe_Probe.
End probe.

Module agones.
(** probeGameServer continuously tries to connect to the game server port. *)
Definition probeGameServer (fuel : nat) (ctx : Context)
    (cfg : config.AgonesConfig) : M (option error) :=
  let protocol := ToLower (config.PingProtocol cfg) in
  let address := JoinHostPort (config.PingHost cfg) (config.PingPort cfg) in
  ticker <- NewTicker (2 * Second) ;; (* Retry every 2 seconds *)
  for_select fuel ctx ticker
    (* case <-ctx.Done(): *)
    (err <- ctx_Err ctx ;; ret (Return err))
    (* case <-ticker.C: *)
    ('(conn, err) <- DialTimeout protocol address (config.PingTimeout cfg) ;;
     match err with
     | None =>
         Close conn ;;
         slog LevelInfo "Readiness probe successful!" None ;;
         ret (Return None)
     | Some _ =>
         slog LevelWarn "Readiness probe attempt failed, retrying..." err ;;
         ret Continue
     end).

(** The heartbeat loop of [RunManager] (manager.go, lines 36-50). *)
Definition heartbeat (fuel : nat) (ctx : Context)
    (cfg : config.AgonesConfig) (agonesSDK : SDK) : M unit :=
  ticker <- NewTicker (config.HealthInterval cfg) ;;
  for_select fuel ctx ticker
    (* case <-ctx.Done(): *)
    (slog LevelInfo "Shutdown signal received. Stopping Agones manager." None ;;
     ret (Return tt))
    (* case <-ticker.C: *)
    (err <- Health agonesSDK ;;
     match err with
     | Some _ => slog LevelWarn "Failed to send health ping" err
     | None => slog LevelDebug "Health ping sent successfully" None
     end ;;
     ret Continue).

(** RunManager connects to the Agones SDK and manages the game server
    lifecycle. *)
Definition RunManager (fuel : nat) (ctx : Context)
    (cfg : config.AgonesConfig) (agonesSDK : SDK) : M unit :=
  slog LevelInfo "Starting Agones manager..." None ;;
  slog LevelInfo "Waiting for initial delay before probing" None ;;
  Sleep (config.InitialDelay cfg) ;;
  slog LevelInfo "Starting readiness probe..." None ;;
  err <- probeGameServer fuel ctx cfg ;;
  match err with
  | Some _ =>
      slog LevelError
        "Readiness probe failed, game server will not be marked as Ready" err
  | None =>
      err <- Ready agonesSDK ;;
      match err with
      | Some _ => slog LevelError "Failed to send Ready signal to Agones" err
      | None =>
          slog LevelInfo ">>> Server is Ready! Starting health checks. <<<" None ;;
          heartbeat fuel ctx cfg agonesSDK
      end
  end.
End agones.

(** The entry point.  [cfg] stands for [config.LoadFromEnv().Agones]; the
    file API goroutine ([go apiServer.Run(ctx)]) shares no state with the
    manager and is left out. *)
Definition main (fuel : nat) (cfg : config.AgonesConfig) : M unit :=
  ctx <- NotifyContext ;;
  slog LevelInfo "Starting Unified Agones Sidecar" None ;;
  '(agonesSDK, err) <- NewSDK ;;
  match err with
  | Some _ =>
      slog LevelError "Could not connect to Agones SDK" err ;;
      os_Exit 1
  | None =>
      slog LevelInfo "Successfully connected to Agones SDK" None ;;
      go (agones.RunManager fuel ctx cfg agonesSDK) ;;
      recv_Done ctx ;;
      slog LevelInfo "Shutdown signal received. Exiting." None
  end.

End Sidecar.

(** The exit status of the process, when the run ends within the fuel:
    0 after [main] returns, the argument of [os.Exit], 2 after a panic. *)
Definition exit_status (o : Outcome unit) : option Z :=
  match o with
  | Done _ _ => Some 0
  | Exited c _ => Some c
  | Panicked _ _ => Some 2
  | Blocked _ | OutOfFuel _ => None
  end.

(** ** The lifecycle as a state machine over the history

    Modelled on the phases of the lifecycle ([Delaying], [Probing], [Ready],
    [HealthChecking], [Terminated], [Failed]): a monitor that reads a history
    entry by entry and rejects it as soon as an action is issued in a phase
    in which the lifecycle does not allow it, or earlier than the timers
    allow it.  The programs are shown to produce accepted histories only;
    the ordering properties are then read off the monitor. *)

Definition is_success_log (e : Event) : bool :=
  match e with
  | ELog LevelInfo msg None =>
      String.eqb msg "Readiness probe successful!"
      || String.eqb msg "Ping probe successful"
  | _ => false
  end.

Definition is_retry_log (e : Event) : bool :=
  match e with
  | ELog LevelWarn msg (Some _) =>
      String.eqb msg "Readiness probe attempt failed, retrying..."
      || String.eqb msg "Ping attempt failed, retrying..."
  | _ => false
  end.

Definition is_log (e : Event) : bool :=
  match e with ELog _ _ _ => true | _ => false end.

Definition is_dial (e : Event) : bool :=
  match e with EDial _ _ _ _ => true | _ => false end.

Definition is_dial_ok (e : Event) : bool :=
  match e with EDial _ _ _ None => true | _ => false end.

Definition is_ready (e : Event) : bool :=
  match e with EReady _ => true | _ => false end.

Definition is_ready_ok (e : Event) : bool :=
  match e with EReady None => true | _ => false end.

Definition is_ready_err (e : Event) : bool :=
  match e with EReady (Some _) => true | _ => false end.

Definition is_health (e : Event) : bool :=
  match e with EHealth _ => true | _ => false end.

Definition is_recv_done (e : Event) : bool :=
  match e with ERecv CaseDone => true | _ => false end.

(** The calls that go to the network: the probe's socket operations and the
    two signals to the orchestrator. *)
Definition is_network (e : Event) : bool :=
  match e with
  | EDial _ _ _ _ | EWrite _ _ | ERead _ | EReady _ | EHealth _ => true
  | _ => false
  end.

Inductive Phase : Type :=
| Delaying                   (* before and during the initial delay *)
| Waited                     (* the delay is over, no retry ticker yet *)
| AwaitTick                  (* probing: waiting for a tick or for cancellation *)
| Attempt (dialed : bool)    (* probing: an attempt is in progress *)
| Probed                     (* an attempt succeeded *)
| ReadySent                  (* the ready signal returned without error *)
| HealthWait                 (* heartbeats: waiting for a tick or cancellation *)
| HealthTick                 (* heartbeats: a tick was received *)
| Failed                     (* the ready signal returned an error *)
| Terminated                 (* the cancellation case was taken *).

Record Timing : Type := mkTiming {
  initialDelay : Duration;
  retryInterval : Duration;
  healthInterval : Duration
}.

(** [low]: no later entry may be stamped before it; [first_tick]: no tick of
    the current ticker may be received before it. *)
Record Mon : Type := mkMon { phase : Phase; low : Z; first_tick : Z }.

Definition Mon0 : Mon := mkMon Delaying 0 0.

Definition lifecycle_step (T : Timing) (m : Mon) (x : Entry) : option Mon :=
  let '(t, e) := x in
  let stay := Some (mkMon (phase m) t (first_tick m)) in
  let move p := Some (mkMon p t (first_tick m)) in
  if t <? low m then None
  else
    match phase m, e with
    | Delaying, (ELog _ _ _ | EGo) => stay
    | Delaying, ESleep d =>
        if d =? initialDelay T
        then Some (mkMon Waited (t + Z.max 0 d) (first_tick m))
        else None
    | Waited, ELog _ _ _ => stay
    | Waited, ENewTicker d =>
        if d =? retryInterval T then Some (mkMon AwaitTick t (t + d)) else None
    | AwaitTick, ERecv CaseTick =>
        if t <? first_tick m then None else move (Attempt false)
    | AwaitTick, ERecv CaseDone => move Terminated
    | Attempt _, EDial _ _ _ None => move (Attempt true)
    | Attempt b, EDial _ _ _ (Some _) => move (Attempt b)
    | Attempt _, (EWrite _ _ | ERead _ | ESetReadDeadline _ | EClose) => stay
    | Attempt b, ELog _ _ _ =>
        if is_success_log e then (if b then move Probed else None)
        else if is_retry_log e then move AwaitTick
        else stay
    | Probed, EReady None => move ReadySent
    | Probed, EReady (Some _) => move Failed
    | ReadySent, ELog _ _ _ => stay
    | ReadySent, ENewTicker d =>
        if d =? healthInterval T then Some (mkMon HealthWait t (t + d)) else None
    | HealthWait, ELog _ _ _ => stay
    | HealthWait, ERecv CaseTick =>
        if t <? first_tick m then None else move HealthTick
    | HealthWait, ERecv CaseDone => move Terminated
    | HealthTick, EHealth _ => move HealthWait
    | Failed, ELog _ _ _ => stay
    | Terminated, ELog _ _ _ => stay
    | _, _ => None
    end.

Fixpoint lifecycle_run (T : Timing) (m : Mon) (tr : Trace) : option Mon :=
  match tr with
  | [] => Some m
  | x :: tr' =>
      match lifecycle_step T m x with
      | Some m' => lifecycle_run T m' tr'
      | None => None
      end
  end.

(** A history is accepted when the monitor reads all of it. *)
Definition accepted (T : Timing) (tr : Trace) : Prop :=
  exists m, lifecycle_run T Mon0 tr = Some m.

(** ** Predicates on worlds, histories and outcomes *)

(** The monitor has read [tr] and reached [m]. *)
Definition reads (T : Timing) (tr : Trace) (m : Mon) : Prop :=
  lifecycle_run T Mon0 tr = Some m.

(** The monitor has read the history of [w], reached [m], and the clock of
    [w] is not behind the monitor's. *)
Definition tracks (T : Timing) (w : World) (m : Mon) : Prop :=
  reads T (trace w) m /\ low m <= now w.

(** The result of the iteration of a loop, as an outcome of the loop. *)
Definition flow_outcome {A} (o : Outcome (Flow A)) : Outcome A + World :=
  match o with
  | Done Continue w => inr w
  | Done (Return a) w => inl (Done a w)
  | Panicked msg w => inl (Panicked msg w)
  | Exited c w => inl (Exited c w)
  | Blocked w => inl (Blocked w)
  | OutOfFuel w => inl (OutOfFuel w)
  end.

(** The number of entries of a history whose action satisfies [P]. *)
Definition count_if (P : Event -> bool) (tr : Trace) : nat :=
  List.length (filter (fun x => P (snd x)) tr).

(** What a readiness loop started after the initial delay leaves behind. *)
Definition probe_post (T : Timing) (ctx : Context) (w : World) (fuel : nat)
    (o : Outcome (option error)) : Prop :=
  exists m', tracks T (final o) m' /\
    match o with
    | Done None _ => phase m' = Probed
    | Done (Some e) w' =>
        phase m' = Terminated /\ e = Canceled /\ ctx_done ctx (now w') = true
    | OutOfFuel w' =>
        phase m' = AwaitTick /\
        count_if is_retry_log (trace w') =
          (count_if is_retry_log (trace w) + fuel)%nat
    | _ => False
    end.

(** The invariant of the readiness loops. *)
Definition awaiting (T : Timing) (w0 : World) (k : nat) (w : World)
    (tk : Ticker) : Prop :=
  exists l f,
    tracks T w (mkMon AwaitTick l f) /\ f <= next tk /\ 0 < period tk /\
    count_if is_retry_log (trace w) = (count_if is_retry_log (trace w0) + k)%nat.

(** What a heartbeat loop started after a successful ready signal leaves
    behind; [hi] is the configured health interval. *)
Definition health_post {A} (T : Timing) (ctx : Context) (hi : Duration)
    (ok : A -> Prop) (w : World) (fuel : nat) (o : Outcome A) : Prop :=
  match o with
  | Panicked _ w' => hi <= 0 /\ w' = w
  | _ =>
      exists m', tracks T (final o) m' /\
        match o with
        | Done a w' =>
            phase m' = Terminated /\ ok a /\ ctx_done ctx (now w') = true
        | OutOfFuel w' =>
            phase m' = HealthWait /\
            count_if is_health (trace w') =
              (count_if is_health (trace w) + fuel)%nat
        | _ => False
        end
  end.

(** The invariant of the heartbeat loops. *)
Definition beating (T : Timing) (w0 : World) (k : nat) (w : World)
    (tk : Ticker) : Prop :=
  exists l f,
    tracks T w (mkMon HealthWait l f) /\ f <= next tk /\ 0 < period tk /\
    count_if is_health (trace w) = (count_if is_health (trace w0) + k)%nat.

(** The timing parameters of the two programs. *)
Definition Sidecar_Timing (cfg : Sidecar.config.AgonesConfig) : Timing :=
  mkTiming (Sidecar.config.InitialDelay cfg) (2 * Second)
           (Sidecar.config.HealthInterval cfg).

Definition Agnostic_Timing (cfg : Agnostic.config.Config) : Timing :=
  mkTiming (Agnostic.config.InitialDelay cfg) (5 * Second)
           (Agnostic.config.HealthInterval cfg).

(** What a run of [RunManager] leaves behind: it has returned exactly when
    the lifecycle is [Terminated] or [Failed]. *)
Definition manager_post (T : Timing) (ctx : Context) (o : Outcome unit)
  : Prop :=
  exists m', tracks T (final o) m' /\
    match o with
    | Done _ w' =>
        (phase m' = Terminated /\ ctx_done ctx (now w') = true)
        \/ phase m' = Failed
    | OutOfFuel w' => phase m' = AwaitTick \/ phase m' = HealthWait
    | Panicked _ _ => phase m' = ReadySent /\ healthInterval T <= 0
    | _ => False
    end.

(** What a run of [runMonitor] leaves behind, with the error it returns. *)
Definition monitor_post (T : Timing) (env : Env)
    (o : Outcome (option error)) : Prop :=
  exists m', tracks T (final o) m' /\
    match o with
    | Done None w' =>
        phase m' = Terminated /\
        ctx_done (mkContext (signal_at env)) (now w') = true
    | Done (Some e) _ =>
        (phase m' = Delaying /\
         exists e', sdk_connect env = Some e' /\
                    e = Errorf_w "could not connect to Agones SDK: " e')
        \/ (phase m' = Terminated /\
            e = Errorf_w "readiness probe failed: " Canceled)
        \/ (phase m' = Failed /\
            exists e', e = Errorf_w "failed to send Ready signal: " e')
    | OutOfFuel _ => phase m' = AwaitTick \/ phase m' = HealthWait
    | Panicked _ _ => phase m' = ReadySent /\ healthInterval T <= 0
    | _ => False
    end.

(** [Failed] and [Terminated] are absorbing, and only log lines follow. *)
Definition stopped (p : Phase) : bool :=
  match p with Failed | Terminated => true | _ => false end.

(** The ready signal can be sent while the budget is 1; sending it brings
    the budget to 0. *)
Definition ready_budget (p : Phase) : nat :=
  match p with
  | Delaying | Waited | AwaitTick | Attempt _ | Probed => 1
  | _ => 0
  end.

Definition probe_succeeded (p : Phase) : bool :=
  match p with Probed => true | _ => false end.

Definition dial_succeeded (p : Phase) : bool :=
  match p with Attempt true | Probed => true | _ => false end.

Definition ready_acknowledged (p : Phase) : bool :=
  match p with ReadySent | HealthWait | HealthTick => true | _ => false end.

(** A bound [B] that the clock of the monitor has passed, or that the
    pending first tick will pass. *)
Definition beyond (B : Z) (m : Mon) : Prop :=
  B <= low m \/
  ((phase m = AwaitTick \/ phase m = HealthWait) /\ B <= first_tick m) \/
  stopped (phase m) = true.

(** After the ready signal, no heartbeat before one health interval. *)
Definition heartbeat_due (T : Timing) (B : Z) (m : Mon) : Prop :=
  match phase m with
  | ReadySent => B <= low m
  | HealthWait =>
      B + healthInterval T <= first_tick m \/ B + healthInterval T <= low m
  | HealthTick => B + healthInterval T <= low m
  | Failed | Terminated => True
  | _ => False
  end.

(** No probe and no ready signal before the initial delay and one retry
    interval have elapsed. *)
Definition probing_due (T : Timing) (m : Mon) : Prop :=
  match phase m with
  | Delaying => 0 <= low m
  | Waited => Z.max 0 (initialDelay T) <= low m
  | AwaitTick =>
      Z.max 0 (initialDelay T) + retryInterval T <= first_tick m
      \/ Z.max 0 (initialDelay T) + retryInterval T <= low m
  | Failed | Terminated => True
  | _ => Z.max 0 (initialDelay T) + retryInterval T <= low m
  end.

(** Every entry whose action satisfies [Q] comes after one whose action
    satisfies [P]. *)
Definition preceded_by (P Q : Event -> bool) (tr : Trace) : Prop :=
  forall (pre : Trace) (x : Entry) (post : Trace),
    tr = pre ++ x :: post -> Q (snd x) = true ->
    exists y, In y pre /\ P (snd y) = true.

(** Only log lines come after an entry whose action satisfies [P]. *)
Definition only_logs_after (P : Event -> bool) (tr : Trace) : Prop :=
  forall (pre : Trace) (x : Entry) (post : Trace),
    tr = pre ++ x :: post -> P (snd x) = true ->
    Forall (fun y => is_log (snd y) = true) post.

(** ** Concrete environments, configurations and runs *)

Definition no_lag : nat -> N := fun _ => 0%N.
Definition at_once := (0%N, @None error).

(** The target refuses the dials issued before the [k]-th interaction and
    accepts the later ones; every signal to the orchestrator succeeds; no
    shutdown is requested. *)
Definition env_refused_until (k : nat) : Env :=
  mkEnv None None no_lag (fun _ => CaseTick)
        (fun n => (1000%N,
                   if (n <? k)%nat then Some (NetError "connection refused")
                   else None))
        (fun _ => None) (fun _ => at_once) (fun _ => at_once)
        (fun _ => at_once).

Definition cfg_tcp : Sidecar.config.AgonesConfig :=
  Sidecar.config.mkAgonesConfig (30 * Second) (15 * Second)
    "127.0.0.1" "25565" "tcp" (5 * Second).

Definition cfg_udp : Sidecar.config.AgonesConfig :=
  Sidecar.config.mkAgonesConfig (30 * Second) (15 * Second)
    "127.0.0.1" "2456" "udp" (5 * Second).

Definition mon_tcp : Agnostic.config.Config :=
  Agnostic.config.mkConfig (30 * Second) (15 * Second)
    (Agnostic.config.mkPingConfig "127.0.0.1" "7777" "tcp" (5 * Second)).

Definition never : Context := mkContext None.

(** The ready signal is refused by the orchestrator; the shutdown signal
    arrives after 60 seconds. *)
Definition env_ready_refused : Env :=
  mkEnv (Some (60 * Second)) None no_lag (fun _ => CaseTick)
        (fun _ => at_once) (fun _ => None) (fun _ => at_once)
        (fun _ => (0%N, Some (SDKError "unavailable")))
        (fun _ => at_once).

(** Three refused dials, then an accepted one, then four heartbeats. *)
Definition run_after_three_refusals : Trace :=
  history (Sidecar.agones.RunManager 4 never cfg_tcp sdk_conn
             (env_refused_until 15) World0).

(** The probe succeeds at the first tick, the ready signal fails. *)
Definition run_ready_refused : Trace :=
  history (Sidecar.agones.RunManager 4 (mkContext (Some (60 * Second)))
             cfg_tcp sdk_conn env_ready_refused World0).

Definition ready_once_after_success (tr : Trace) : Prop :=
  (count_if is_ready tr <= 1)%nat /\
  preceded_by is_success_log is_ready tr /\
  preceded_by is_dial_ok is_ready tr.

Definition health_only_after_ready (tr : Trace) : Prop :=
  preceded_by is_ready_ok is_health tr /\
  ((exists y, In y tr /\ is_ready_err (snd y) = true) ->
   count_if is_health tr = 0%nat).

(** What the timers guarantee in a history: [delay], [retry] and [hi] are
    the initial delay, the retry interval and the health interval. *)
Definition timers_respected (delay retry hi : Duration) (tr : Trace) : Prop :=
  (* no probe and no ready signal before the delay and one retry interval *)
  (forall t e, In (t, e) tr -> is_dial e || is_ready e = true ->
               delay + retry <= t) /\
  (* once a ticker of period d is created, no probe and no health signal
     before d has elapsed *)
  (forall pre t d mid t' e post,
      tr = pre ++ (t, ENewTicker d) :: mid ++ (t', e) :: post ->
      is_dial e || is_health e = true -> t + d <= t') /\
  (* no health signal before one health interval after the ready signal *)
  (forall pre t mid t' e post,
      tr = pre ++ (t, EReady None) :: mid ++ (t', e) :: post ->
      is_health e = true -> t + hi <= t').

(** What a readiness loop can come to, from any world [w]. *)
Definition probe_outcome (ctx : Context) (w : World) (fuel : nat)
    (o : Outcome (option error)) : Prop :=
  match o with
  | Done None w' =>
      (* nil: the attempt just made succeeded *)
      exists pre t msg,
        trace w' = pre ++ [(t, ELog LevelInfo msg None)] /\
        is_success_log (ELog LevelInfo msg None) = true
  | Done (Some e) w' =>
      (* non-nil: the cancellation cause, from the cancellation case *)
      e = Canceled /\ ctx_done ctx (now w') = true /\
      exists pre t, trace w' = pre ++ [(t, ERecv CaseDone)]
  | OutOfFuel w' =>
      (* still looping: every iteration so far failed, was logged, retried *)
      count_if is_retry_log (trace w') =
        (count_if is_retry_log (trace w) + fuel)%nat /\
      count_if is_success_log (trace w') = count_if is_success_log (trace w)
  | _ => False
  end.

(** The invariant of the readiness loops, without the monitor. *)
Definition retrying (w0 : World) (k : nat) (w : World) (tk : Ticker) : Prop :=
  count_if is_retry_log (trace w) =
    (count_if is_retry_log (trace w0) + k)%nat /\
  count_if is_success_log (trace w) = count_if is_success_log (trace w0).

Definition is_health_err (e : Event) : bool :=
  match e with EHealth (Some _) => true | _ => false end.

Definition is_health_warning (e : Event) : bool :=
  match e with
  | ELog LevelWarn msg (Some _) => String.eqb msg "Failed to send health ping"
  | _ => false
  end.

(** What a heartbeat loop can come to, from any world [w]; [hi] is the
    configured health interval. *)
Definition heartbeat_outcome {A} (ctx : Context) (hi : Duration) (w : World)
    (fuel : nat) (o : Outcome A) : Prop :=
  match o with
  | Done _ w' =>
      (* returned: from the cancellation case, the context being done *)
      ctx_done ctx (now w') = true /\
      exists pre t t' msg,
        trace w' = pre ++ [(t, ERecv CaseDone); (t', ELog LevelInfo msg None)]
  | OutOfFuel w' =>
      (* still looping: every iteration so far sent a health signal, and
         every failed one was logged *)
      count_if is_health (trace w') =
        (count_if is_health (trace w) + fuel)%nat /\
      (count_if is_health_warning (trace w') + count_if is_health_err (trace w)
       = count_if is_health_err (trace w') + count_if is_health_warning (trace w))%nat /\
      count_if is_recv_done (trace w') = count_if is_recv_done (trace w)
  | Panicked _ w' => hi <= 0 /\ w' = w
  | _ => False
  end.

(** The invariant of the heartbeat loops, without the monitor. *)
Definition ticking (w0 : World) (k : nat) (w : World) (tk : Ticker) : Prop :=
  count_if is_health (trace w) = (count_if is_health (trace w0) + k)%nat /\
  (count_if is_health_warning (trace w) + count_if is_health_err (trace w0)
   = count_if is_health_err (trace w) + count_if is_health_warning (trace w0))%nat /\
  count_if is_recv_done (trace w) = count_if is_recv_done (trace w0).

(** Every health signal fails; no shutdown is requested. *)
Definition env_health_fails : Env :=
  mkEnv None None no_lag (fun _ => CaseTick)
        (fun _ => at_once) (fun _ => None) (fun _ => at_once)
        (fun _ => at_once)
        (fun _ => (0%N, Some (SDKError "unavailable"))).

Definition is_write (e : Event) : bool :=
  match e with EWrite _ _ => true | _ => false end.

(** Every call succeeds at once; no shutdown is requested. *)
Definition env_all_ok : Env :=
  mkEnv None None no_lag (fun _ => CaseTick)
        (fun _ => at_once) (fun _ => None) (fun _ => at_once)
        (fun _ => at_once) (fun _ => at_once).

(** The target speaks no protocol the sidecar knows: package net rejects
    the network name. *)
Definition env_unknown_network : Env :=
  mkEnv None None no_lag (fun _ => CaseTick)
        (fun _ => (0%N, Some (NetError "dial sctp: unknown network sctp")))
        (fun _ => None) (fun _ => at_once) (fun _ => at_once)
        (fun _ => at_once).

Definition probe_sctp : Agnostic.probe.PingProbe :=
  Agnostic.probe.mkPingProbe
    (Agnostic.config.mkPingConfig "127.0.0.1" "7777" "SCTP" (5 * Second)).

Definition probe_udp4 : Agnostic.probe.PingProbe :=
  Agnostic.probe.mkPingProbe
    (Agnostic.config.mkPingConfig "127.0.0.1" "7777" "udp4" (5 * Second)).

(** The shutdown signal arrives one second after the start. *)
Definition env_early_signal : Env :=
  mkEnv (Some Second) None no_lag (fun _ => CaseTick)
        (fun _ => at_once) (fun _ => None) (fun _ => at_once)
        (fun _ => at_once) (fun _ => at_once).

Definition cfg_nodelay : Sidecar.config.AgonesConfig :=
  Sidecar.config.mkAgonesConfig 0 (15 * Second)
    "127.0.0.1" "25565" "tcp" (5 * Second).

(** Every dial times out after five seconds; the shutdown signal arrives
    after three seconds; select prefers the tick. *)
Definition env_timeouts : Env :=
  mkEnv (Some (3 * Second)) None no_lag (fun _ => CaseTick)
        (fun _ => (5000000000%N, Some (NetError "i/o timeout")))
        (fun _ => None) (fun _ => at_once) (fun _ => at_once)
        (fun _ => at_once).

(** The dial takes one second and succeeds; the shutdown signal arrives
    while it is in progress. *)
Definition env_signal_during_dial : Env :=
  mkEnv (Some (2500 * 1000000)) None no_lag (fun _ => CaseDone)
        (fun _ => (1000000000%N, None))
        (fun _ => None) (fun _ => at_once) (fun _ => at_once)
        (fun _ => at_once).

(** ** What a program adds to the history *)

Definition is_close (e : Event) : bool :=
  match e with EClose => true | _ => false end.

Definition is_read (e : Event) : bool :=
  match e with ERead _ => true | _ => false end.

(** The actions of a readiness loop: waiting, socket operations, log
    lines. *)
Definition is_probe_action (e : Event) : bool :=
  match e with
  | ELog _ _ _ | ENewTicker _ | ERecv _ | EDial _ _ _ _ | EWrite _ _
  | ESetReadDeadline _ | ERead _ | EClose => true
  | _ => false
  end.

(** The actions of a heartbeat loop: waiting, health signals, log lines. *)
Definition is_heartbeat_action (e : Event) : bool :=
  match e with
  | ELog _ _ _ | ENewTicker _ | ERecv _ | EHealth _ => true
  | _ => false
  end.

(** The history of [w'] is that of [w] followed by entries [d] with [K d]. *)
Definition extends_by (K : Trace -> Prop) (w w' : World) : Prop :=
  exists d, trace w' = trace w ++ d /\ K d.

(** Only probe actions, and as many connections closed as opened. *)
Definition sockets_balanced (d : Trace) : Prop :=
  Forall (fun x => is_probe_action (snd x) = true) d /\
  count_if is_close d = count_if is_dial_ok d.

(** Only probe actions, none of them a dial, a write or a read. *)
Definition no_socket_touched (d : Trace) : Prop :=
  Forall (fun x => is_probe_action (snd x) = true) d /\
  count_if is_dial d = 0%nat /\ count_if is_write d = 0%nat /\
  count_if is_read d = 0%nat.

(** Only probe actions, none of them a write or a read. *)
Definition no_data_exchanged (d : Trace) : Prop :=
  Forall (fun x => is_probe_action (snd x) = true) d /\
  count_if is_write d = 0%nat /\ count_if is_read d = 0%nat.

Definition only_heartbeat_actions (d : Trace) : Prop :=
  Forall (fun x => is_heartbeat_action (snd x) = true) d.

(** The world in which [RunManager] enters its readiness loop. *)
Definition RunManager_probing (cfg : Sidecar.config.AgonesConfig) (env : Env)
    (w : World) : World :=
  final ((slog LevelInfo "Starting Agones manager..." None ;;
          slog LevelInfo "Waiting for initial delay before probing" None ;;
          Sleep (Sidecar.config.InitialDelay cfg) ;;
          slog LevelInfo "Starting readiness probe..." None) env w).

(** The world in which [runMonitor] calls the probe, the SDK connected. *)
Definition runMonitor_probing (cfg : Agnostic.config.Config) (env : Env)
    (w : World) : World :=
  final ((slog LevelInfo "Successfully connected to Agones SDK" None ;;
          slog LevelInfo "Waiting for initial delay" None ;;
          Sleep (Agnostic.config.InitialDelay cfg) ;;
          slog LevelInfo "Starting readiness probe..." None) env w).

(** The world after a ready signal that returned [nil] in [d] nanoseconds. *)
Definition ready_announced (w : World) (d : N) : World :=
  emit (emit w (EReady None) (Z.of_N d))
       (ELog LevelInfo ">>> Server is Ready! Starting health checks. <<<" None)
       0.

(** The ready signal was acknowledged and logged, and nothing came after. *)
Definition just_announced (w : World) : Prop :=
  exists pre t t',
    trace w =
    pre ++ [(t, EReady None);
            (t', ELog LevelInfo
                   ">>> Server is Ready! Starting health checks. <<<" None)].

(** How the manager of the unified sidecar can end. *)
Definition manager_outcome (hi : Duration) (w : World) (o : Outcome unit)
  : Prop :=
  match o with
  | Done _ w' | OutOfFuel w' => True
  | Panicked _ w' => hi <= 0 /\ just_announced w'
  | Exited _ _ | Blocked _ => False
  end.

(** How [runMonitor] can end once the SDK is connected. *)
Definition monitor_outcome (ctx : Context) (hi : Duration) (w : World)
    (o : Outcome (option error)) : Prop :=
  match o with
  | Done None w' =>
      (* nil: from the heartbeat loop, on cancellation *)
      ctx_done ctx (now w') = true /\ exists t, In (t, EReady None) (trace w')
  | Done (Some e) w' =>
      (* the probe was cancelled, no ready signal having been sent *)
      (e = Errorf_w "readiness probe failed: " Canceled /\
       ctx_done ctx (now w') = true /\
       count_if is_ready (trace w') = count_if is_ready (trace w)) \/
      (* or the ready signal failed, and was the last action *)
      (exists e' pre t,
          e = Errorf_w "failed to send Ready signal: " e' /\
          trace w' = pre ++ [(t, EReady (Some e'))])
  | Panicked _ w' => hi <= 0 /\ just_announced w'
  | OutOfFuel _ => True
  | Exited _ _ | Blocked _ => False
  end.

(** With a health interval that is not positive: no health signal is ever
    sent, and the run stops short of an acknowledged ready signal or
    panics right after it. *)
Definition crashes_once_ready {A} (w : World) (o : Outcome A) : Prop :=
  count_if is_health (history o) = count_if is_health (trace w) /\
  match o with
  | Panicked _ w' => just_announced w'
  | Done _ w' | OutOfFuel w' =>
      count_if is_ready_ok (trace w') = count_if is_ready_ok (trace w)
  | Exited _ _ | Blocked _ => False
  end.

Definition cfg_sctp : Sidecar.config.AgonesConfig :=
  Sidecar.config.mkAgonesConfig (30 * Second) (15 * Second)
    "127.0.0.1" "25565" "SCTP" (5 * Second).

Definition cfg_TCP : Sidecar.config.AgonesConfig :=
  Sidecar.config.mkAgonesConfig (30 * Second) (15 * Second)
    "127.0.0.1" "25565" "TCP" (5 * Second).

Definition mon_TCP : Agnostic.config.PingConfig :=
  Agnostic.config.mkPingConfig "127.0.0.1" "7777" "Tcp" (5 * Second).

(** A health interval of zero, as [SIDECAR_HEALTH_INTERVAL=0s] gives. *)
Definition cfg_no_interval : Sidecar.config.AgonesConfig :=
  Sidecar.config.mkAgonesConfig (30 * Second) 0
    "127.0.0.1" "25565" "tcp" (5 * Second).

Definition mon_no_interval : Agnostic.config.Config :=
  Agnostic.config.mkConfig (30 * Second) (-1)
    (Agnostic.config.mkPingConfig "127.0.0.1" "7777" "tcp" (5 * Second)).

(** ** Configuration from the environment *)

(** The process environment as [os.LookupEnv] reads it: the value of a
    variable, when it is set. *)
Definition Environ : Type := string -> option string.

(** [internal/config] of github.com/pegnia/sidecar. *)
Module SidecarConfig.

(** APIConfig holds settings for the internal file management API. *)
Record APIConfig : Type := mkAPIConfig { ListenAddress : string }.

(** DataConfig specifies the data directory and log file paths. *)
Record DataConfig : Type := mkDataConfig {
  Root : string;
  StdoutFile : string
}.

(** Config holds all settings for the unified sidecar. *)
Record Config : Type := mkConfig {
  Agones : Sidecar.config.AgonesConfig;
  API : APIConfig;
  Data : DataConfig
}.

Section FromEnvironment.
(** [time.ParseDuration], keeping the duration or the fact that it failed. *)
Variable ParseDuration : string -> option Duration.
Variable LookupEnv : Environ.

Definition getEnv (key fallback : string) : string :=
  match LookupEnv key with
  | Some value => value
  | None => fallback
  end.

Definition getEnvDuration (key : string) (fallback : Duration) : Duration :=
  match LookupEnv key with
  | Some value =>
      match ParseDuration value with
      | Some d => d
      | None => fallback
      end
  | None => fallback
  end.

(** LoadFromEnv loads configuration from environment variables. *)
Definition LoadFromEnv : Config :=
  mkConfig
    (Sidecar.config.mkAgonesConfig
       (getEnvDuration "SIDECAR_INITIAL_DELAY" (30 * Second))
       (getEnvDuration "SIDECAR_HEALTH_INTERVAL" (15 * Second))
       (getEnv "SIDECAR_PING_HOST" "127.0.0.1")
       (getEnv "SIDECAR_PING_PORT" "25565")
       (getEnv "SIDECAR_PING_PROTOCOL" "tcp")
       (getEnvDuration "SIDECAR_PING_TIMEOUT" (5 * Second)))
    (mkAPIConfig (getEnv "SIDECAR_API_ADDR" ":9999"))
    (mkDataConfig
       (getEnv "SIDECAR_DATA_ROOT" "/data")
       (getEnv "SIDECAR_STDOUT_FILE" "logs/stdout.log")).

(** The unified entry point from its first line: the configuration is
    loaded, then [Sidecar.main] runs with its [Agones] part. *)
Definition main (fuel : nat) : M unit :=
  Sidecar.main fuel (Agones LoadFromEnv).
End FromEnvironment.
End SidecarConfig.

(** [internal/config] of github.com/koutselakismanos/agnostic-agones-sidecar. *)
Module AgnosticConfig.
Section FromEnvironment.
Variable ParseDuration : string -> option Duration.
Variable LookupEnv : Environ.

Definition getEnvOr (key fallback : string) : string :=
  match LookupEnv ("AGNOSTIC_SIDECAR_" ++ key)%string with
  | Some value => value
  | None => fallback
  end.

Definition getEnvDurationOr (key : string) (fallback : Duration)
  : M Duration :=
  match LookupEnv ("AGNOSTIC_SIDECAR_" ++ key)%string with
  | Some value =>
      match ParseDuration value with
      | Some d => ret d
      | None =>
          slog LevelWarn
            "Invalid duration format in environment variable, using default"
            None ;;
          ret fallback
      end
  | None => ret fallback
  end.

(** FromEnv loads the configuration from environment variables; the fields
    are evaluated in the order of the composite literal. *)
Definition FromEnv : M Agnostic.config.Config :=
  initialDelay <- getEnvDurationOr "INITIAL_DELAY" (30 * Second) ;;
  healthInterval <- getEnvDurationOr "HEALTH_INTERVAL" (15 * Second) ;;
  let host := getEnvOr "PING_HOST" "127.0.0.1" in
  let port := getEnvOr "PING_PORT" "7777" in
  let protocol := getEnvOr "PING_PROTOCOL" "tcp" in
  timeout <- getEnvDurationOr "PING_TIMEOUT" (5 * Second) ;;
  ret (Agnostic.config.mkConfig initialDelay healthInterval
         (Agnostic.config.mkPingConfig host port protocol timeout)).

(** [main.go] from its first line: [cfg := config.FromEnv()], then the
    rest of [main]. *)
Definition main (fuel : nat) : M unit :=
  cfg <- FromEnv ;;
  Agnostic.main fuel cfg.
End FromEnvironment.
End AgnosticConfig.

(** A duration variable that is set and does not parse. *)
Definition unparsable (ParseDuration : string -> option Duration)
    (LookupEnv : Environ) (key : string) : bool :=
  match LookupEnv key with
  | Some value =>
      match ParseDuration value with Some _ => false | None => true end
  | None => false
  end.

(** A duration variable set to a duration that parses and is not positive. *)
Definition set_nonpositive (ParseDuration : string -> option Duration)
    (LookupEnv : Environ) (key : string) : Prop :=
  exists value d,
    LookupEnv key = Some value /\ ParseDuration value = Some d /\ d <= 0.

Definition is_duration_warning (e : Event) : bool :=
  match e with
  | ELog LevelWarn msg None =>
      String.eqb msg
        "Invalid duration format in environment variable, using default"
  | _ => false
  end.

(** ** The file API ([internal/api] of github.com/pegnia/sidecar) *)
Module api.

(** Go's [int] on the 64-bit targets the image is built for. *)
Definition int_min : Z := - 2 ^ 63.
Definition int_max : Z := 2 ^ 63 - 1.

(** Addition on [int] wraps around. *)
Definition int_add (a b : Z) : Z := (a + b + 2 ^ 63) mod 2 ^ 64 - 2 ^ 63.

(** [strings.Split(s, ",")[0]]: the text before the first comma. *)
Fixpoint first_field (s : string) : string :=
  match s with
  | EmptyString => EmptyString
  | String c s' => if Ascii.eqb c "," then EmptyString else String c (first_field s')
  end.

(** [filepath.Ext]: the suffix beginning at the final dot in the final
    element of the path; empty if there is no dot.  [ext_scan] is the scan
    from the end of the path: the last dot or separator decides. *)
Fixpoint ext_scan (path : string) : option string :=
  match path with
  | EmptyString => None
  | String c rest =>
      match ext_scan rest with
      | Some e => Some e
      | None =>
          if Ascii.eqb c "." then Some path
          else if Ascii.eqb c "/" then Some EmptyString
          else None
      end
  end.

Definition Ext (path : string) : string :=
  match ext_scan path with
  | Some e => e
  | None => EmptyString
  end.

(** A [map[string]int] read with [m[k]] (zero when the key is missing),
    written with [m[k] = v] and [delete(m, k)]. *)
Definition Counts : Type := list (string * Z).

Fixpoint get (m : Counts) (k : string) : Z :=
  match m with
  | [] => 0
  | (k', v) :: m' => if String.eqb k' k then v else get m' k
  end.

Fixpoint delete (m : Counts) (k : string) : Counts :=
  match m with
  | [] => []
  | (k', v) :: m' => if String.eqb k' k then delete m' k else (k', v) :: delete m' k
  end.

Definition set (m : Counts) (k : string) (v : Z) : Counts := (k, v) :: delete m k.

Definition keys (m : Counts) : list string := map fst m.

(** Server holds dependencies and configuration for the internal API
    server (the logger is left out; the mutex makes the sections it
    protects atomic). *)
Record Server : Type := mkServer {
  listenAddr : string;
  dataRoot : string;
  stdoutLogPath : string;
  requestCounts : Counts;
  rateLimit : Z
}.

Definition with_counts (s : Server) (m : Counts) : Server :=
  mkServer (listenAddr s) (dataRoot s) (stdoutLogPath s) m (rateLimit s).

(** What the handlers read of a request. *)
Record Request : Type := mkRequest {
  URL_Path : string;
  Query : string -> string;        (* r.URL.Query().Get *)
  RemoteAddr : string;
  X_Forwarded_For : string;        (* r.Header.Get("X-Forwarded-For") *)
  Payload : option string;         (* the "path" of the decoded JSON body;
                                      None when decoding fails *)
  FormFile : string + string       (* r.FormFile("file"): the Filename of
                                      the header, or the text of the error *)
}.

(** FileInfo represents a single file or directory. *)
Record FileInfo : Type := mkFileInfo {
  Name : string;
  Size : Z;
  IsDir : bool;
  Modified : Z
}.

(** The result of [os.Stat]. *)
Inductive StatResult : Type :=
| NotExist                 (* an error for which os.IsNotExist holds *)
| StatError                (* another error *)
| Info (is_dir : bool).

(** The file system as the handlers meet it: the result of each call on a
    path ([true] for a nil error). *)
Record FS : Type := mkFS {
  Stat : string -> StatResult;
  ReadDir : string -> option (list (option FileInfo));
                             (* the entries; None for one whose Info fails *)
  RemoveAll : string -> bool;
  MkdirAll : string -> bool;
  OpenFile : string -> bool;
  Copy : string -> bool
}.

(** The calls a handler makes on the file system. *)
Inductive FsOp : Type :=
| OpStat (path : string)
| OpReadDir (path : string)
| OpRemoveAll (path : string)
| OpMkdirAll (path : string)
| OpOpenFile (path : string)   (* O_WRONLY|O_CREATE|O_TRUNC *)
| OpCopy (path : string)       (* io.Copy into the opened file *)
| OpServeFile (path : string).

Definition op_path (o : FsOp) : string :=
  match o with
  | OpStat p | OpReadDir p | OpRemoveAll p | OpMkdirAll p | OpOpenFile p
  | OpCopy p | OpServeFile p => p
  end.

(** What a handler answers. *)
Inductive Response : Type :=
| Error (msg : string) (code : Z)            (* http.Error *)
| Written (code : Z) (text : string)         (* WriteHeader, Fprintln *)
| Json (files : option (list FileInfo))      (* Encode; None is a nil slice *)
| ServedFile (path : string).                (* http.ServeFile *)

Definition StatusOK : Z := 200.
Definition StatusCreated : Z := 201.
Definition StatusBadRequest : Z := 400.
Definition StatusNotFound : Z := 404.
Definition StatusConflict : Z := 409.
Definition StatusTooManyRequests : Z := 429.
Definition StatusInternalServerError : Z := 500.

Section Server.
(** [filepath.Join], [strconv.Atoi] (the value, or the fact that it
    failed) and [os.Getenv]. *)
Variable Join : string -> string -> string.
Variable Atoi : string -> option Z.
Variable Getenv : string -> string.

(** NewServer creates a new API server instance. *)
Definition NewServer (listenAddr dataRoot stdoutFile : string) : Server :=
  (* Get rate limit from environment variable, default to 60 requests per minute *)
  let rateLimit :=
    let rateLimitEnv := Getenv "SIDECAR_RATE_LIMIT" in
    if negb (String.eqb rateLimitEnv "") then
      match Atoi rateLimitEnv with
      | Some val => if 0 <? val then val else 60
      | None => 60
      end
    else 60 in
  mkServer listenAddr dataRoot (Join dataRoot stdoutFile) [] rateLimit.

(** The client key of the rate limiter. *)
Definition clientIP (r : Request) : string :=
  if negb (String.eqb (X_Forwarded_For r) "")
  then first_field (X_Forwarded_For r)
  else RemoteAddr r.

(** rateLimitRequest, up to the call of the next handler: the new state,
    the client keys for which a reset goroutine is started, and whether the
    request is passed on ([false]: 429, "Rate limit exceeded"). *)
Definition rateLimitRequest (s : Server) (r : Request)
  : Server * list string * bool :=
  (* Skip rate limiting for health check endpoint *)
  if String.eqb (URL_Path r) "/health" then (s, [], true)
  else
    let ip := clientIP r in
    let count := get (requestCounts s) ip in
    (* Start a goroutine to reset the count after 1 minute *)
    let spawned := if count =? 0 then [ip] else [] in
    (* Increment the count *)
    let s' := with_counts s (set (requestCounts s) ip (int_add count 1)) in
    let exceeded := rateLimit s <=? count in
    (s', spawned, negb exceeded).

(** The body of the reset goroutine, after its [time.Sleep(time.Minute)]. *)
Definition reset (s : Server) (clientIP : string) : Server :=
  with_counts s (delete (requestCounts s) clientIP).

(** sanitizePath cleans and validates a user-provided path. *)
Definition sanitizePath (s : Server) (userPath : string) : string + string :=
  let fullPath := Join (dataRoot s) userPath in
  if negb (String.prefix (dataRoot s) fullPath)
  then inr "invalid path: access denied"
  else inl fullPath.

(** listFilesHandler handles requests to list directory contents. *)
Definition listFilesHandler (s : Server) (fs : FS) (r : Request)
  : list FsOp * Response :=
  match sanitizePath s (Query r "path") with
  | inr err => ([], Error err StatusBadRequest)
  | inl fullPath =>
      match ReadDir fs fullPath with
      | None =>
          ([OpReadDir fullPath],
           Error "Could not read directory" StatusInternalServerError)
      | Some dirEntries =>
          let files :=
            fold_left
              (fun files entry =>
                 match entry with
                 | None => files   (* skipping *)
                 | Some info =>
                     Some (match files with Some l => l | None => [] end
                           ++ [info])
                 end)
              dirEntries None in
          ([OpReadDir fullPath], Json files)
      end
  end.

(** downloadFileHandler serves a single file for download. *)
Definition downloadFileHandler (s : Server) (fs : FS) (r : Request)
  : list FsOp * Response :=
  match sanitizePath s (Query r "path") with
  | inr err => ([], Error err StatusBadRequest)
  | inl fullPath =>
      match Stat fs fullPath with
      | NotExist => ([OpStat fullPath], Error "File not found" StatusNotFound)
      | StatError =>
          ([OpStat fullPath],
           Error "Could not access file" StatusInternalServerError)
      | Info true =>
          ([OpStat fullPath],
           Error "Cannot download a directory" StatusBadRequest)
      | Info false =>
          ([OpStat fullPath; OpServeFile fullPath], ServedFile fullPath)
      end
  end.

(** List of potentially dangerous extensions. *)
Definition dangerousExts : list string :=
  [".exe"; ".dll"; ".sh"; ".bat"; ".cmd";
   ".php"; ".phtml"; ".js"; ".jsp"; ".asp"].

Definition dangerous (ext : string) : bool :=
  existsb (String.eqb ext) dangerousExts.

(** uploadFileHandler handles multipart file uploads. *)
Definition uploadFileHandler (s : Server) (fs : FS) (r : Request)
  : list FsOp * Response :=
  match sanitizePath s (Query r "path") with
  | inr err => ([], Error err StatusBadRequest)
  | inl fullPath =>
      (* Check if destination directory exists *)
      match Stat fs fullPath with
      | NotExist =>
          ([OpStat fullPath],
           Error "Destination directory does not exist" StatusBadRequest)
      | StatError =>
          ([OpStat fullPath],
           Error "Could not access destination directory"
             StatusInternalServerError)
      | Info false =>
          (* Ensure the destination is a directory *)
          ([OpStat fullPath],
           Error "Destination path is not a directory" StatusBadRequest)
      | Info true =>
          match FormFile r with
          | inr err =>
              ([OpStat fullPath],
               Error ("Invalid file upload: " ++ err)%string StatusBadRequest)
          | inl filename =>
              (* Basic file type validation - check file extension *)
              let ext := ToLower (Ext filename) in
              if dangerous ext then
                ([OpStat fullPath],
                 Error "File type not allowed for security reasons"
                   StatusBadRequest)
              else
                let destPath := Join fullPath filename in
                (* Final security check on the combined path *)
                if negb (String.prefix fullPath destPath) then
                  ([OpStat fullPath],
                   Error "Invalid destination filename" StatusBadRequest)
                else
                  (* Check if file already exists *)
                  let overwrite := String.eqb (Query r "overwrite") "true" in
                  let exists_ :=
                    match Stat fs destPath with
                    | Info _ => true
                    | _ => false
                    end in
                  if exists_ && negb overwrite then
                    ([OpStat fullPath; OpStat destPath],
                     Error
                       "File already exists. Use overwrite=true to replace it."
                       StatusConflict)
                  else if negb (OpenFile fs destPath) then
                    ([OpStat fullPath; OpStat destPath; OpOpenFile destPath],
                     Error "Could not save file" StatusInternalServerError)
                  else if negb (Copy fs destPath) then
                    ([OpStat fullPath; OpStat destPath; OpOpenFile destPath;
                      OpCopy destPath],
                     Error "Could not save file" StatusInternalServerError)
                  else
                    ([OpStat fullPath; OpStat destPath; OpOpenFile destPath;
                      OpCopy destPath],
                     Written StatusCreated "File uploaded successfully")
          end
      end
  end.

(** deleteFileHandler deletes a file or directory recursively. *)
Definition deleteFileHandler (s : Server) (fs : FS) (r : Request)
  : list FsOp * Response :=
  match Payload r with
  | None => ([], Error "Invalid request body" StatusBadRequest)
  | Some path =>
      match sanitizePath s path with
      | inr err => ([], Error err StatusBadRequest)
      | inl fullPath =>
          (* Important safety check: Do not allow deletion of the root
             directory itself. *)
          if String.eqb fullPath (dataRoot s) then
            ([], Error "Cannot delete root directory" StatusBadRequest)
          else if negb (RemoveAll fs fullPath) then
            ([OpRemoveAll fullPath],
             Error "Could not delete item" StatusInternalServerError)
          else
            ([OpRemoveAll fullPath],
             Written StatusOK "Item deleted successfully")
      end
  end.

(** createDirHandler creates a new directory. *)
Definition createDirHandler (s : Server) (fs : FS) (r : Request)
  : list FsOp * Response :=
  match Payload r with
  | None => ([], Error "Invalid request body" StatusBadRequest)
  | Some path =>
      match sanitizePath s path with
      | inr err => ([], Error err StatusBadRequest)
      | inl fullPath =>
          if negb (MkdirAll fs fullPath) then
            ([OpMkdirAll fullPath],
             Error "Could not create directory" StatusInternalServerError)
          else
            ([OpMkdirAll fullPath],
             Written StatusCreated "Directory created successfully")
      end
  end.

(** healthCheckHandler provides a simple endpoint to verify the server is
    running. *)
Definition healthCheckHandler (s : Server) (fs : FS) (r : Request)
  : list FsOp * Response :=
  ([], Written StatusOK "OK").
End Server.

(** *** The rate limiter at work *)

(** What happens to the limiter: a request arrives, or a reset goroutine
    started earlier wakes up and deletes its key. *)
Inductive Action : Type :=
| Arrive (r : Request)
| Expire (clientIP : string).

(** The server and the client keys of the reset goroutines still asleep. *)
Definition State : Type := (Server * list string)%type.

Fixpoint remove_one (k : string) (l : list string) : list string :=
  match l with
  | [] => []
  | k' :: l' => if String.eqb k' k then l' else k' :: remove_one k l'
  end.

(** One step, with the verdict on the request that arrived; a goroutine
    that was never started cannot wake up. *)
Definition step (st : State) (a : Action) : option (State * list bool) :=
  let '(s, pending) := st in
  match a with
  | Arrive r =>
      let '(s', spawned, passed) := rateLimitRequest s r in
      Some ((s', pending ++ spawned), [passed])
  | Expire k =>
      if existsb (String.eqb k) pending
      then Some ((reset s k, remove_one k pending), [])
      else None
  end.

Fixpoint run (st : State) (l : list Action) : option (State * list bool) :=
  match l with
  | [] => Some (st, [])
  | a :: l' =>
      match step st a with
      | None => None
      | Some (st', v) =>
          match run st' l' with
          | None => None
          | Some (st'', vs) => Some (st'', v ++ vs)
          end
      end
  end.

(** The requests of a list that the limiter counts for the key [k]. *)
Definition counted (k : string) (r : Request) : bool :=
  negb (String.eqb (URL_Path r) "/health") && String.eqb (clientIP r) k.

(** Serving requests one after the other, no reset in between. *)
Fixpoint serve (s : Server) (rs : list Request) : Server * list bool :=
  match rs with
  | [] => (s, [])
  | r :: rs' =>
      let '(s', _, passed) := rateLimitRequest s r in
      let '(s'', vs) := serve s' rs' in
      (s'', passed :: vs)
  end.

End api.

(** The limiter between two steps: the map holds exactly the client keys
    for which a reset goroutine is asleep, each once, and every count it
    holds is positive and at most [bound]. *)
Definition limiter_inv (bound : Z) (st : api.State) : Prop :=
  let m := api.requestCounts (fst st) in
  NoDup (snd st) /\
  NoDup (api.keys m) /\
  (forall k, In k (snd st) <-> In k (api.keys m)) /\
  (forall k, In k (api.keys m) <-> api.get m k <> 0) /\
  (forall k, 0 <= api.get m k <= bound).

Definition arrivals (l : list api.Action) : nat :=
  List.length (filter (fun a => match a with api.Arrive _ => true | _ => false end) l).

(** *** Examples *)

(** A request for the file listing from [addr], with the header
    X-Forwarded-For set to [xff]. *)
Definition list_request (addr xff : string) : api.Request :=
  api.mkRequest "/api/files" (fun _ => "") addr xff None (inr "no file").

(** A server that allows two requests per window. *)
Definition server_limit_2 : api.Server :=
  api.mkServer ":9999" "/data" "/data/logs/stdout.log" [] 2.

(** The environment sets SIDECAR_RATE_LIMIT to 1, and nothing else. *)
Definition getenv_limit_1 (key : string) : string :=
  if String.eqb key "SIDECAR_RATE_LIMIT" then "1" else "".

(** A stand-in for [strconv.Atoi] that knows the one-digit numbers. *)
Definition atoi_digit (s : string) : option Z :=
  match s with
  | String c EmptyString =>
      let n := nat_of_ascii c in
      if ((48 <=? n) && (n <=? 57))%nat then Some (Z.of_nat (n - 48)) else None
  | _ => None
  end.

(** A stand-in for [filepath.Join] on clean relative paths. *)
Definition join_plain (dir name : string) : string :=
  if String.eqb name "" then dir else (dir ++ "/" ++ name)%string.

(** The file system never fails; [/data] and [/data/mods] are directories,
    [/data/mods/a.txt] is a file, nothing else exists. *)
Definition fs_small : api.FS :=
  api.mkFS
    (fun p => if String.eqb p "/data" || String.eqb p "/data/mods"
              then api.Info true
              else if String.eqb p "/data/mods/a.txt" then api.Info false
              else api.NotExist)
    (fun _ => Some [])
    (fun _ => true) (fun _ => true) (fun _ => true) (fun _ => true).

(** An upload of a file named [filename] into [mods]. *)
Definition upload_request (filename overwrite : string) : api.Request :=
  api.mkRequest "/api/files/upload"
    (fun key => if String.eqb key "path" then "mods"
                else if String.eqb key "overwrite" then overwrite else "")
    "10.0.0.1:4000" "" None (inl filename).

(** Every call of a handler on the file system is on a path that begins
    with the text of the data root. *)
Definition under_root (s : api.Server) (ops : list api.FsOp) : Prop :=
  Forall (fun o => String.prefix (api.dataRoot s) (api.op_path o) = true) ops.

Definition is_write_op (o : api.FsOp) : bool :=
  match o with
  | api.OpOpenFile _ | api.OpCopy _ | api.OpRemoveAll _ | api.OpMkdirAll _ => true
  | _ => false
  end.

(** The extensions of [dangerousExts], without their dot. *)
Definition refused_suffixes : list string :=
  ["exe"; "dll"; "sh"; "bat"; "cmd"; "php"; "phtml"; "js"; "jsp"; "asp"].

(** The entries of a directory whose [Info] succeeded, in order. *)
Definition readable (entries : list (option api.FileInfo)) : list api.FileInfo :=
  flat_map (fun e => match e with Some info => [info] | None => [] end) entries.

(** [/data] holds one entry, and its [Info] fails. *)
Definition fs_unreadable_entry : api.FS :=
  api.mkFS (fun _ => api.Info true) (fun _ => Some [None])
    (fun _ => true) (fun _ => true) (fun _ => true) (fun _ => true).

(** * Proofs *)

(** ** Reasoning about programs *)

Lemma lifecycle_run_app T (m : Mon) (tr1 tr2 : Trace) :
  lifecycle_run T m (tr1 ++ tr2) =
  match lifecycle_run T m tr1 with
  | Some m' => lifecycle_run T m' tr2
  | None => None
  end.
Proof.
  revert m. induction tr1 as [|x tr1 IH]; intros m; simpl.
  - reflexivity.
  - destruct (lifecycle_step T m x); [apply IH | reflexivity].
Qed.

Lemma reads_snoc T tr m x m' :
  reads T tr m -> lifecycle_step T m x = Some m' -> reads T (tr ++ [x]) m'.
Proof.
  unfold reads. intros Hrun Hstep.
  rewrite lifecycle_run_app, Hrun. cbn [lifecycle_run].
  rewrite Hstep. reflexivity.
Qed.

Lemma ctx_done_mono ctx t t' :
  t <= t' -> ctx_done ctx t = true -> ctx_done ctx t' = true.
Proof.
  unfold ctx_done. destruct (done_at ctx); [| discriminate].
  intros H1 H2. apply Z.leb_le in H2. apply Z.leb_le. lia.
Qed.

(** What a select returns. *)
Lemma wake_time_ge ctx tk t : t <= wake_time ctx tk t.
Proof. unfold wake_time. destruct (done_at ctx); lia. Qed.

Lemma wake_time_tick ctx tk t :
  ctx_done ctx (wake_time ctx tk t) = false -> next tk <= wake_time ctx tk t.
Proof.
  unfold ctx_done, wake_time. destruct (done_at ctx) as [c|]; intros H.
  - apply Z.leb_gt in H. lia.
  - lia.
Qed.

Lemma select_spec ctx tk env w :
  let t := wake_time ctx tk (now w) in
  exists c tk',
    select ctx tk env w =
      Done (c, tk') (mkWorld (t + Z.of_N (lag env (calls w)))
                             (trace w ++ [(t, ERecv c)]) (S (calls w)))
    /\ now w <= t
    /\ match c with
       | CaseTick => next tk <= t /\ tk' = after_recv tk t
       | CaseDone => ctx_done ctx t = true /\ tk' = tk
       end.
Proof.
  intros t. unfold select. fold t.
  pose proof (wake_time_ge ctx tk (now w)) as Hnow. fold t in Hnow.
  pose proof (wake_time_tick ctx tk (now w)) as Htick. fold t in Htick.
  destruct (ctx_done ctx t) eqn:Hd.
  - destruct (next tk <=? t) eqn:Hn.
    + apply Z.leb_le in Hn.
      destruct (pick env (calls w)); eexists _, _; split; try reflexivity;
        split; auto.
    + eexists _, _; split; [reflexivity | auto].
  - eexists _, _; split; [reflexivity | split; auto].
Qed.

Lemma after_recv_next tk t :
  0 < period tk -> next tk <= t ->
  t < next (after_recv tk t) /\ period (after_recv tk t) = period tk.
Proof.
  intros Hp Ht. unfold after_recv; simpl. split; [| reflexivity].
  pose proof (Z.mod_pos_bound (t - next tk) (period tk) Hp) as Hm.
  pose proof (Z.div_mod (t - next tk) (period tk) ltac:(lia)) as Hdm.
  nia.
Qed.

(** Loop invariant rule for [for_select]; the invariant is indexed by the
    number of iterations completed. *)
Lemma for_select_rule {A} (I : nat -> World -> Ticker -> Prop)
    (Q : nat -> Outcome A -> Prop)
    ctx (on_done on_tick : M (Flow A)) env :
  (forall k w tk, I k w tk -> Q k (OutOfFuel w)) ->
  (forall k w tk c tk' w1,
      I k w tk ->
      select ctx tk env w = Done (c, tk') w1 ->
      match flow_outcome
              (match c with CaseDone => on_done | CaseTick => on_tick end env w1)
      with
      | inl o => forall n, Q n o
      | inr w2 => I (S k) w2 tk'
      end) ->
  forall fuel k w tk,
    I k w tk -> Q (k + fuel)%nat (for_select fuel ctx tk on_done on_tick env w).
Proof.
  intros Hfuel Hstep fuel.
  induction fuel as [|fuel IH]; intros k w tk HI; simpl.
  - rewrite Nat.add_0_r. apply (Hfuel k w tk HI).
  - unfold bind at 1.
    destruct (select_spec ctx tk env w) as (c & tk' & Hsel & _).
    rewrite Hsel.
    specialize (Hstep k w tk c tk' _ HI Hsel).
    unfold bind at 1.
    destruct (match c with CaseDone => on_done | CaseTick => on_tick end env _)
      as [[|a] w2|msg w2|code w2|w2|w2]; simpl in Hstep; auto.
    rewrite <- Nat.add_succ_comm. apply IH. exact Hstep.
Qed.

Lemma count_if_app P tr1 tr2 :
  count_if P (tr1 ++ tr2) = (count_if P tr1 + count_if P tr2)%nat.
Proof. unfold count_if. rewrite filter_app, List.length_app. reflexivity. Qed.

Lemma count_if_snoc P tr t e :
  count_if P (tr ++ [(t, e)]) =
  (count_if P tr + if P e then 1 else 0)%nat.
Proof.
  rewrite count_if_app. unfold count_if at 2. simpl.
  destruct (P e); reflexivity.
Qed.

(** Symbolic execution of straight-line code. *)
Ltac exec :=
  cbv beta iota delta
    [bind ret slog Sleep DialTimeout Close Write Read SetReadDeadline
     Ready Health ctx_Err NewSDK NotifyContext os_Exit
     flow_outcome final history emit];
  cbn [now trace calls fst snd].

Ltac destruct_reply :=
  match goal with
  | |- context [dial_reply ?env ?n] =>
      let d := fresh "d" in let e := fresh "e" in
      destruct (dial_reply env n) as [d [e|]]
  | |- context [read_reply ?env ?n] =>
      let d := fresh "d" in let e := fresh "e" in
      destruct (read_reply env n) as [d [e|]]
  | |- context [ready_reply ?env ?n] =>
      let d := fresh "d" in let e := fresh "e" in
      destruct (ready_reply env n) as [d [e|]]
  | |- context [health_reply ?env ?n] =>
      let d := fresh "d" in let e := fresh "e" in
      destruct (health_reply env n) as [d [e|]]
  | |- context [write_reply ?env ?n] =>
      let e := fresh "e" in
      destruct (write_reply env n) as [e|]
  end.

(** One step of the monitor from a known phase. *)
Ltac mon_step :=
  unfold lifecycle_step;
  cbn [phase low first_tick];
  repeat match goal with
    | |- context [Z.ltb ?a ?b] => rewrite (proj2 (Z.ltb_ge a b)) by lia
    | |- context [Z.eqb ?a ?b] =>
        replace (Z.eqb a b) with true
          by (symmetry; apply Z.eqb_eq;
              first [reflexivity | assumption | symmetry; assumption])
    end;
  reflexivity.

Ltac reads_chain :=
  first [ eassumption | eapply reads_snoc; [ reads_chain | mon_step ] ].

(** In a select that took a case, inspect which. *)
Ltac select_cases ctx tk env w Hsel :=
  let c := fresh "c" in let tk' := fresh "tk" in
  let Hsel' := fresh "Hsel" in let Hnow := fresh "Hnow" in
  let Hc := fresh "Hc" in
  destruct (select_spec ctx tk env w) as (c & tk' & Hsel' & Hnow & Hc);
  rewrite Hsel in Hsel'; injection Hsel' as -> -> ->;
  destruct c; destruct Hc as [Hc ->].

Ltac know_done ctx Hdone :=
  match goal with
  | |- context [ctx_done ctx ?t] =>
      let H := fresh "Hd" in
      assert (H : ctx_done ctx t = true)
        by (eapply ctx_done_mono; [| exact Hdone]; lia);
      rewrite H
  end.

(** ** The programs refine the lifecycle *)

Create HintDb lifecycle.
#[local] Hint Unfold probe_post awaiting : lifecycle.

Ltac count_solve :=
  rewrite ?count_if_snoc;
  repeat match goal with
    | |- context [if ?b then 1%nat else 0%nat] =>
        let v := eval cbv in b in
        change b with v; cbv iota
    end;
  lia.

(** Discharges a postcondition stated about an explicit final world. *)
Ltac post_goal :=
  autounfold with lifecycle;
  repeat match goal with
    | |- exists _, _ => eexists
    | |- _ /\ _ => split
    | |- tracks _ _ _ => split
    end;
  exec; try reads_chain; cbn [low phase next period];
  try reflexivity; try assumption; try lia.

Lemma awaiting_start T w l f d :
  retryInterval T = d -> 0 < d ->
  tracks T w (mkMon Waited l f) ->
  awaiting T w 0 (emit w (ENewTicker d) 0) (mkTicker d (now w + d)).
Proof.
  intros HT Hd [Hrd Hlow]. cbn [low] in Hlow.
  exists (now w), (now w + d). post_goal. count_solve.
Qed.

Lemma awaiting_out_of_fuel T ctx w k w' tk :
  awaiting T w k w' tk -> probe_post T ctx w k (OutOfFuel w').
Proof.
  intros (l' & f' & Hm' & _ & _ & Hcnt).
  eexists. split; [exact Hm' | ]. split; [reflexivity | exact Hcnt].
Qed.

Lemma probeGameServer_refines T fuel ctx cfg env w l f :
  retryInterval T = 2 * Second ->
  tracks T w (mkMon Waited l f) ->
  probe_post T ctx w fuel (Sidecar.agones.probeGameServer fuel ctx cfg env w).
Proof.
  intros HT Htr.
  unfold Sidecar.agones.probeGameServer.
  unfold bind at 1. unfold NewTicker.
  change (2 * Second <=? 0) with false. cbv iota.
  apply (for_select_rule (awaiting T w) (probe_post T ctx w)) with (k := 0%nat).
  - intros k w' tk. apply awaiting_out_of_fuel.
  - intros k w0 tk c tk' w1 (l0 & f0 & [Hrd0 Hlow0] & Hft & Hper & Hcnt) Hsel.
    cbn [low] in Hlow0.
    select_cases ctx tk env w0 Hsel.
    + exec. know_done ctx Hc. intros n. post_goal.
    + exec. destruct_reply; exec.
      * destruct (after_recv_next tk _ Hper Hc). post_goal. count_solve.
      * intros n. post_goal.
  - apply awaiting_start with (l := l) (f := f); auto. reflexivity.
Qed.

Lemma Agnostic_Probe_refines T fuel p ctx env w l f :
  retryInterval T = 5 * Second ->
  tracks T w (mkMon Waited l f) ->
  probe_post T ctx w fuel (Agnostic.probe.PingProbe_Probe fuel p ctx env w).
Proof.
  intros HT [Hrd Hlow]. cbn [low] in Hlow.
  unfold Agnostic.probe.PingProbe_Probe.
  unfold bind at 1. cbv beta iota delta [slog].
  unfold bind at 1. unfold NewTicker.
  change (5 * Second <=? 0) with false. cbv iota.
  set (w1 := emit w (ELog LevelInfo "Starting ping probe" None) 0).
  assert (Htr1 : tracks T w1 (mkMon Waited (now w) f)) by (subst w1; post_goal).
  assert (Hc1 : count_if is_retry_log (trace w1) = count_if is_retry_log (trace w))
    by (subst w1; exec; count_solve).
  unfold probe_post. rewrite <- Hc1. fold (probe_post T ctx w1 fuel).
  apply (for_select_rule (awaiting T w1) (probe_post T ctx w1)) with (k := 0%nat).
  - intros k w' tk. apply awaiting_out_of_fuel.
  - intros k w0 tk c tk' w2 (l0 & f0 & [Hrd0 Hlow0] & Hft & Hper & Hcnt) Hsel.
    cbn [low] in Hlow0.
    select_cases ctx tk env w0 Hsel.
    + exec. know_done ctx Hc. intros n. post_goal.
    + destruct (after_recv_next tk _ Hper Hc).
      unfold Agnostic.probe.attempt.
      destruct (String.eqb _ "tcp"); exec; destruct_reply; exec;
        try destruct_reply; exec;
        try (intros n); post_goal; count_solve.
  - apply awaiting_start with (l := now w) (f := f); auto. reflexivity.
Qed.

Lemma Sidecar_Probe_refines T fuel p ctx env w l f :
  retryInterval T = 5 * Second ->
  tracks T w (mkMon Waited l f) ->
  probe_post T ctx w fuel (Sidecar.probe.PingProbe_Probe fuel p ctx env w).
Proof.
  intros HT [Hrd Hlow]. cbn [low] in Hlow.
  unfold Sidecar.probe.PingProbe_Probe.
  unfold bind at 1. cbv beta iota delta [slog].
  unfold bind at 1. unfold NewTicker.
  change (5 * Second <=? 0) with false. cbv iota.
  set (w1 := emit w (ELog LevelInfo "Starting ping probe" None) 0).
  assert (Htr1 : tracks T w1 (mkMon Waited (now w) f)) by (subst w1; post_goal).
  assert (Hc1 : count_if is_retry_log (trace w1) = count_if is_retry_log (trace w))
    by (subst w1; exec; count_solve).
  unfold probe_post. rewrite <- Hc1. fold (probe_post T ctx w1 fuel).
  apply (for_select_rule (awaiting T w1) (probe_post T ctx w1)) with (k := 0%nat).
  - intros k w' tk. apply awaiting_out_of_fuel.
  - intros k w0 tk c tk' w2 (l0 & f0 & [Hrd0 Hlow0] & Hft & Hper & Hcnt) Hsel.
    cbn [low] in Hlow0.
    select_cases ctx tk env w0 Hsel.
    + exec. know_done ctx Hc. intros n. post_goal.
    + destruct (after_recv_next tk _ Hper Hc).
      unfold Sidecar.probe.attempt, Sidecar.probe.udp_exchange.
      destruct (String.eqb _ "tcp"); [| destruct (String.eqb _ "udp")];
        exec; try destruct_reply; exec;
        try destruct_reply; exec;
        try destruct_reply; exec;
        try match goal with |- context [Contains ?a ?b] => destruct (Contains a b) end;
        exec; try (intros n); post_goal; count_solve.
  - apply awaiting_start with (l := now w) (f := f); auto. reflexivity.
Qed.

#[local] Hint Unfold health_post beating : lifecycle.

Lemma beating_start T w l f d :
  healthInterval T = d -> 0 < d ->
  tracks T w (mkMon ReadySent l f) ->
  beating T w 0 (emit w (ENewTicker d) 0) (mkTicker d (now w + d)).
Proof.
  intros HT Hd [Hrd Hlow]. cbn [low] in Hlow.
  exists (now w), (now w + d). post_goal. count_solve.
Qed.

Lemma beating_out_of_fuel {A} T ctx hi (ok : A -> Prop) w k w' tk :
  beating T w k w' tk -> health_post T ctx hi ok w k (OutOfFuel w').
Proof.
  intros (l' & f' & Hm' & _ & _ & Hcnt).
  eexists. split; [exact Hm' | ]. split; [reflexivity | exact Hcnt].
Qed.

Lemma Sidecar_heartbeat_refines T fuel ctx cfg sdk env w l f :
  healthInterval T = Sidecar.config.HealthInterval cfg ->
  tracks T w (mkMon ReadySent l f) ->
  health_post T ctx (Sidecar.config.HealthInterval cfg) (fun _ => True) w fuel
    (Sidecar.agones.heartbeat fuel ctx cfg sdk env w).
Proof.
  intros HT Htr.
  unfold Sidecar.agones.heartbeat.
  unfold bind at 1. unfold NewTicker.
  destruct (Z.leb_spec (Sidecar.config.HealthInterval cfg) 0) as [Hle|Hgt].
  { split; [exact Hle | reflexivity]. }
  apply (for_select_rule (beating T w) (health_post T ctx _ _ w)) with (k := 0%nat).
  - intros k w' tk. apply beating_out_of_fuel.
  - intros k w0 tk c tk' w1 (l0 & f0 & [Hrd0 Hlow0] & Hft & Hper & Hcnt) Hsel.
    cbn [low] in Hlow0.
    select_cases ctx tk env w0 Hsel.
    + exec. intros n. post_goal. eapply ctx_done_mono; [| exact Hc]. lia.
    + destruct (after_recv_next tk _ Hper Hc).
      exec. destruct_reply; exec; post_goal; count_solve.
  - apply beating_start with (l := l) (f := f); auto.
Qed.

Lemma Agnostic_heartbeat_refines T fuel ctx cfg sdk env w l f :
  healthInterval T = Agnostic.config.HealthInterval cfg ->
  tracks T w (mkMon ReadySent l f) ->
  health_post T ctx (Agnostic.config.HealthInterval cfg) (fun r => r = None)
    w fuel (Agnostic.heartbeat fuel ctx cfg sdk env w).
Proof.
  intros HT Htr.
  unfold Agnostic.heartbeat.
  unfold bind at 1. unfold NewTicker.
  destruct (Z.leb_spec (Agnostic.config.HealthInterval cfg) 0) as [Hle|Hgt].
  { split; [exact Hle | reflexivity]. }
  apply (for_select_rule (beating T w) (health_post T ctx _ _ w)) with (k := 0%nat).
  - intros k w' tk. apply beating_out_of_fuel.
  - intros k w0 tk c tk' w1 (l0 & f0 & [Hrd0 Hlow0] & Hft & Hper & Hcnt) Hsel.
    cbn [low] in Hlow0.
    select_cases ctx tk env w0 Hsel.
    + exec. intros n. post_goal. eapply ctx_done_mono; [| exact Hc]. lia.
    + destruct (after_recv_next tk _ Hper Hc).
      exec. destruct_reply; exec; post_goal; count_solve.
  - apply beating_start with (l := l) (f := f); auto.
Qed.

#[local] Hint Unfold manager_post : lifecycle.

Lemma RunManager_refines fuel ctx cfg sdk env w l f :
  tracks (Sidecar_Timing cfg) w (mkMon Delaying l f) ->
  manager_post (Sidecar_Timing cfg) ctx
    (Sidecar.agones.RunManager fuel ctx cfg sdk env w).
Proof.
  intros [Hrd Hlow]. cbn [low] in Hlow.
  set (T := Sidecar_Timing cfg) in *.
  unfold Sidecar.agones.RunManager. exec.
  match goal with |- context [Sidecar.agones.probeGameServer fuel ctx cfg env ?w1] =>
    set (wp := w1) end.
  assert (Htr1 : exists l1, tracks T wp (mkMon Waited l1 f)).
  { subst wp. post_goal. }
  destruct Htr1 as [l1 Htr1].
  pose proof (probeGameServer_refines T fuel ctx cfg env wp _ _ eq_refl Htr1)
    as (m1 & [Hrd1 Hlow1] & Hpost).
  destruct (Sidecar.agones.probeGameServer fuel ctx cfg env wp)
    as [[e|] w1|msg w1|c w1|w1|w1]; cbn [final] in *; try contradiction.
  - (* cancelled while probing *)
    destruct Hpost as (Hph & -> & Hdone). destruct m1 as [p1 l2 f1].
    cbn [phase low] in *. subst p1.
    post_goal. left. split; [reflexivity | ].
    eapply ctx_done_mono; [| exact Hdone]. lia.
  - (* the probe succeeded *)
    destruct m1 as [p1 l2 f1]. cbn [phase low] in *. subst p1.
    destruct_reply; exec.
    + post_goal. right. reflexivity.
    + match goal with |- context [Sidecar.agones.heartbeat fuel ctx cfg sdk env ?w2] =>
        set (wh := w2) end.
      assert (Htr2 : exists l3, tracks T wh (mkMon ReadySent l3 f1)).
      { subst wh. post_goal. }
      destruct Htr2 as [l3 Htr2].
      pose proof (Sidecar_heartbeat_refines T fuel ctx cfg sdk env wh _ _ eq_refl Htr2)
        as Hh.
      destruct (Sidecar.agones.heartbeat fuel ctx cfg sdk env wh)
        as [a w2|msg w2|c w2|w2|w2]; cbn [health_post final] in Hh.
      * destruct Hh as (m2 & Hm2 & Hp2 & _ & Hd2).
        exists m2. split; [exact Hm2 | left; auto].
      * destruct Hh as [Hle ->]. eexists. split; [exact Htr2 | ].
        split; [reflexivity | exact Hle].
      * destruct Hh as (m2 & _ & []).
      * destruct Hh as (m2 & _ & []).
      * destruct Hh as (m2 & Hm2 & Hp2 & _).
        exists m2. split; [exact Hm2 | right; auto].
  - (* out of fuel while probing *)
    destruct Hpost as [Hph _]. exists m1. split; [split; assumption | left; exact Hph].
Qed.

#[local] Hint Unfold monitor_post : lifecycle.

Section RunMonitor.
Context {P : Type} `{ReadinessProbe P}.
Variable cfg : Agnostic.config.Config.
Let T := Agnostic_Timing cfg.

(** The probe strategy handed to [runMonitor] is a readiness loop. *)
Hypothesis Probe_refines :
  forall fuel p ctx env w l f,
    tracks T w (mkMon Waited l f) ->
    probe_post T ctx w fuel (Probe fuel p ctx env w).

Lemma runMonitor_refines fuel (p : P) env w l f :
  tracks T w (mkMon Delaying l f) ->
  monitor_post T env (Agnostic.runMonitor fuel p cfg env w).
Proof.
  intros [Hrd Hlow]. cbn [low] in Hlow.
  unfold Agnostic.runMonitor. exec.
  destruct (sdk_connect env) as [e0|] eqn:Hsdk.
  { exec. post_goal. left. split; [reflexivity | eauto]. }
  exec.
  match goal with |- context [Probe fuel p ?c env ?w1] =>
    set (ctx := c); set (wp := w1) end.
  assert (Htr1 : exists l1, tracks T wp (mkMon Waited l1 f)).
  { subst wp. post_goal. }
  destruct Htr1 as [l1 Htr1].
  pose proof (Probe_refines fuel p ctx env wp _ _ Htr1)
    as (m1 & [Hrd1 Hlow1] & Hpost).
  destruct (Probe fuel p ctx env wp)
    as [[e|] w1|msg w1|c w1|w1|w1]; cbn [final] in *; try contradiction.
  - destruct Hpost as (Hph & -> & Hdone).
    exists m1. split; [split; assumption | ]. right. left. auto.
  - destruct m1 as [p1 l2 f1]. cbn [phase low] in *. subst p1.
    destruct_reply; exec.
    + post_goal. right. right. split; [reflexivity | eauto].
    + match goal with |- context [Agnostic.heartbeat fuel ctx cfg ?s env ?w2] =>
        set (wh := w2); set (sdk := s) end.
      assert (Htr2 : exists l3, tracks T wh (mkMon ReadySent l3 f1)).
      { subst wh. post_goal. }
      destruct Htr2 as [l3 Htr2].
      pose proof (Agnostic_heartbeat_refines T fuel ctx cfg sdk env wh _ _
                    eq_refl Htr2) as Hh.
      destruct (Agnostic.heartbeat fuel ctx cfg sdk env wh)
        as [a w2|msg w2|c w2|w2|w2]; cbn [health_post final] in Hh.
      * destruct Hh as (m2 & Hm2 & Hp2 & -> & Hd2).
        exists m2. split; [exact Hm2 | auto].
      * destruct Hh as [Hle ->]. eexists. split; [exact Htr2 | ].
        split; [reflexivity | exact Hle].
      * destruct Hh as (m2 & _ & []).
      * destruct Hh as (m2 & _ & []).
      * destruct Hh as (m2 & Hm2 & Hp2 & _).
        exists m2. split; [exact Hm2 | right; auto].
  - destruct Hpost as [Hph _]. exists m1.
    split; [split; assumption | left; exact Hph].
Qed.
End RunMonitor.

Lemma tracks_World0 T : tracks T World0 Mon0.
Proof. split; [reflexivity | simpl; lia]. Qed.

(** [main.go]: the process exits with status 1 exactly when [runMonitor]
    returns an error. *)
Lemma Agnostic_main_run fuel cfg env w :
  let p := Agnostic.probe.mkPingProbe (Agnostic.config.Ping cfg) in
  let w1 := emit w (ELog LevelInfo "Starting Agnostic Agones Sidecar" None) 0 in
  match Agnostic.runMonitor fuel p cfg env w1 with
  | Done None w' =>
      Agnostic.main fuel cfg env w =
        Done tt (emit w' (ELog LevelInfo "Monitor finished gracefully." None) 0)
  | Done (Some e) w' =>
      Agnostic.main fuel cfg env w =
        Exited 1 (emit (emit w' (ELog LevelError "Monitor failed" (Some e)) 0)
                       (EExit 1) 0)
  | Panicked msg w' => Agnostic.main fuel cfg env w = Panicked msg w'
  | Exited c w' => Agnostic.main fuel cfg env w = Exited c w'
  | Blocked w' => Agnostic.main fuel cfg env w = Blocked w'
  | OutOfFuel w' => Agnostic.main fuel cfg env w = OutOfFuel w'
  end.
Proof.
  intros p w1.
  destruct (Agnostic.runMonitor fuel p cfg env w1) as [[e|] w'| | | |] eqn:E;
    unfold Agnostic.main; cbv beta iota delta [bind slog os_Exit];
    fold p; fold w1; rewrite E; reflexivity.
Qed.

(** The entry point of the unified sidecar: once the SDK is connected, the
    process ends only through [<-ctx.Done()], with status 0, or through a
    panic of the manager. *)
Lemma Sidecar_main_run fuel cfg env w :
  sdk_connect env = None ->
  let ctx := mkContext (signal_at env) in
  let w1 :=
    emit (emit (emit w (ELog LevelInfo "Starting Unified Agones Sidecar" None) 0)
               (ELog LevelInfo "Successfully connected to Agones SDK" None) 0)
         EGo 0 in
  match Sidecar.agones.RunManager fuel ctx cfg sdk_conn env w1 with
  | Done _ w' =>
      match signal_at env with
      | Some c =>
          exists w'', Sidecar.main fuel cfg env w = Done tt w''
                      /\ exists post, trace w'' = trace w' ++ post
                                      /\ Forall (fun x => is_ready (snd x) = false) post
      | None => Sidecar.main fuel cfg env w = Blocked w'
      end
  | Panicked msg w' => Sidecar.main fuel cfg env w = Panicked msg w'
  | Exited c w' => Sidecar.main fuel cfg env w = Exited c w'
  | Blocked w' => True
  | OutOfFuel w' => Sidecar.main fuel cfg env w = OutOfFuel w'
  end.
Proof.
  intros Hsdk ctx w1.
  assert (Hmain : Sidecar.main fuel cfg env w =
    match Sidecar.agones.RunManager fuel ctx cfg sdk_conn env w1 with
    | Done _ w' =>
        (recv_Done ctx ;;
         slog LevelInfo "Shutdown signal received. Exiting." None) env w'
    | Panicked msg w' => Panicked msg w'
    | Exited c w' => Exited c w'
    | Blocked w' =>
        (recv_Done ctx ;;
         slog LevelInfo "Shutdown signal received. Exiting." None) env w'
    | OutOfFuel w' => OutOfFuel w'
    end).
  { unfold Sidecar.main.
    cbv beta iota delta [bind slog NotifyContext NewSDK go]. rewrite Hsdk.
    fold ctx. fold w1.
    destruct (Sidecar.agones.RunManager fuel ctx cfg sdk_conn env w1);
      reflexivity. }
  rewrite Hmain.
  destruct (Sidecar.agones.RunManager fuel ctx cfg sdk_conn env w1)
    as [[] w'| | | |]; try reflexivity; try exact I.
  cbv beta iota delta [bind slog recv_Done]. cbn [done_at ctx].
  destruct (signal_at env) as [c|]; [| reflexivity].
  eexists. split; [reflexivity | ].
  cbn [trace emit]. eexists. rewrite <- app_assoc. split; [reflexivity | ].
  repeat constructor.
Qed.

(** ** What the monitor guarantees *)

(** Case analysis of one accepted step. *)
Ltac step_cases H :=
  match type of H with
  | lifecycle_step ?T ?m ?x = Some ?m2 =>
      let p := fresh "p" in let l := fresh "l" in let f := fresh "f" in
      let t := fresh "t" in let e := fresh "e" in
      destruct m as [p l f]; destruct x as [t e];
      cbv beta iota delta [lifecycle_step phase low first_tick] in H;
      destruct (t <? l) eqn:?; [discriminate H|];
      destruct p; destruct e; try discriminate H;
      repeat match type of H with
        | context [if ?b then _ else _] => destruct b eqn:?
        | context [match ?c with CaseDone => _ | CaseTick => _ end] => destruct c
        | context [match ?r with Some _ => _ | None => _ end] => destruct r
        end;
      try discriminate H; injection H as <-
  end.

Lemma reads_split T pre x post m' :
  reads T (pre ++ x :: post) m' ->
  exists m1 m2,
    reads T pre m1 /\ lifecycle_step T m1 x = Some m2 /\
    lifecycle_run T m2 post = Some m'.
Proof.
  unfold reads. rewrite lifecycle_run_app.
  destruct (lifecycle_run T Mon0 pre) as [m1|]; [| discriminate].
  cbn [lifecycle_run].
  destruct (lifecycle_step T m1 x) as [m2|] eqn:Hs; [| discriminate].
  intros H. exists m1, m2. auto.
Qed.

Lemma stopped_step T m x m2 :
  lifecycle_step T m x = Some m2 -> stopped (phase m) = true ->
  is_log (snd x) = true /\ phase m2 = phase m.
Proof.
  intros H Hs. step_cases H; cbn in Hs |- *; try discriminate Hs; auto.
Qed.

Lemma stopped_run T tr : forall m m',
  lifecycle_run T m tr = Some m' -> stopped (phase m) = true ->
  Forall (fun x => is_log (snd x) = true) tr /\ phase m' = phase m.
Proof.
  induction tr as [|x tr IH]; intros m m' H Hs; cbn [lifecycle_run] in H.
  - injection H as <-. auto.
  - destruct (lifecycle_step T m x) as [m2|] eqn:Hstep; [| discriminate].
    destruct (stopped_step T m x m2 Hstep Hs) as [Hlog Hph].
    destruct (IH m2 m' H) as [Hall Hph']; [rewrite Hph; exact Hs |].
    split; [constructor; assumption | congruence].
Qed.

Lemma ready_budget_step T m x m2 :
  lifecycle_step T m x = Some m2 ->
  ((if is_ready (snd x) then 1 else 0) + ready_budget (phase m2)
   <= ready_budget (phase m))%nat.
Proof. intros H. step_cases H; cbn; lia. Qed.

Lemma ready_budget_run T tr : forall m m',
  lifecycle_run T m tr = Some m' ->
  (count_if is_ready tr + ready_budget (phase m') <= ready_budget (phase m))%nat.
Proof.
  induction tr as [|x tr IH]; intros m m' H; cbn [lifecycle_run] in H.
  - injection H as <-. cbn. lia.
  - destruct (lifecycle_step T m x) as [m2|] eqn:Hstep; [| discriminate].
    pose proof (ready_budget_step T m x m2 Hstep).
    pose proof (IH m2 m' H).
    change (x :: tr) with ([x] ++ tr). rewrite count_if_app.
    destruct x as [t e]. unfold count_if at 1. cbn in *.
    destruct (is_ready e); cbn; lia.
Qed.

(** If a set of phases can only be entered by an action satisfying [Q],
    a history that ends inside the set and began outside contains such an
    action. *)
Section Entered.
Variable T : Timing.
Variable S : Phase -> bool.
Variable Q : Event -> bool.
Hypothesis enter :
  forall m x m2,
    lifecycle_step T m x = Some m2 ->
    S (phase m) = false -> S (phase m2) = true -> Q (snd x) = true.

Lemma entered_by tr : forall m m',
  lifecycle_run T m tr = Some m' ->
  S (phase m) = false -> S (phase m') = true ->
  existsb (fun x => Q (snd x)) tr = true.
Proof.
  induction tr as [|x tr IH]; intros m m' H Hout Hin; cbn [lifecycle_run] in H.
  - injection H as <-. congruence.
  - destruct (lifecycle_step T m x) as [m2|] eqn:Hstep; [| discriminate].
    cbn [existsb]. apply orb_true_iff.
    destruct (S (phase m2)) eqn:H2.
    + left. eapply enter; eauto.
    + right. eapply IH; eauto.
Qed.
End Entered.

Lemma enter_probed T m x m2 :
  lifecycle_step T m x = Some m2 ->
  probe_succeeded (phase m) = false -> probe_succeeded (phase m2) = true ->
  is_success_log (snd x) = true.
Proof.
  intros H H1 H2. step_cases H; cbn in H1, H2 |- *; try discriminate; auto.
Qed.

Lemma enter_dialed T m x m2 :
  lifecycle_step T m x = Some m2 ->
  dial_succeeded (phase m) = false -> dial_succeeded (phase m2) = true ->
  is_dial_ok (snd x) = true.
Proof.
  intros H H1 H2. step_cases H; cbn in H1, H2 |- *; try discriminate; auto;
    match goal with b : bool |- _ => destruct b; discriminate end.
Qed.

Lemma enter_ready T m x m2 :
  lifecycle_step T m x = Some m2 ->
  ready_acknowledged (phase m) = false -> ready_acknowledged (phase m2) = true ->
  is_ready_ok (snd x) = true.
Proof.
  intros H H1 H2. step_cases H; cbn in H1, H2 |- *; try discriminate; auto.
Qed.

(** In which phase an action is accepted, and where it leads. *)
Lemma step_ready T m x m2 :
  lifecycle_step T m x = Some m2 -> is_ready (snd x) = true ->
  phase m = Probed /\
  phase m2 = (if is_ready_ok (snd x) then ReadySent else Failed).
Proof. intros H He. step_cases H; cbn in He |- *; try discriminate; auto. Qed.

Lemma step_health T m x m2 :
  lifecycle_step T m x = Some m2 -> is_health (snd x) = true ->
  phase m = HealthTick.
Proof. intros H He. step_cases H; cbn in He |- *; try discriminate; auto. Qed.

Lemma step_recv_done T m x m2 :
  lifecycle_step T m x = Some m2 -> is_recv_done (snd x) = true ->
  phase m2 = Terminated.
Proof. intros H He. step_cases H; cbn in He |- *; try discriminate; auto. Qed.

Lemma step_network T m x m2 :
  lifecycle_step T m x = Some m2 -> is_network (snd x) = true ->
  stopped (phase m) = false.
Proof. intros H He. step_cases H; cbn in He |- *; try discriminate; auto. Qed.

(** *** Timing *)

Ltac to_Z :=
  repeat match goal with
    | H : (_ <? _) = false |- _ => apply Z.ltb_ge in H
    | H : (_ <? _) = true |- _ => apply Z.ltb_lt in H
    | H : (_ =? _) = true |- _ => apply Z.eqb_eq in H
    | H : (_ =? _) = false |- _ => apply Z.eqb_neq in H
    end.

Lemma beyond_step T B m x m2 :
  lifecycle_step T m x = Some m2 -> beyond B m ->
  beyond B m2 /\
  (is_dial (snd x) || is_ready (snd x) || is_health (snd x) = true ->
   B <= fst x).
Proof.
  intros H Hb. unfold beyond in *.
  step_cases H; cbn [phase low first_tick fst snd] in *; to_Z;
    (split; [| cbn; try discriminate; intros _]);
    destruct Hb as [Hb | [[[Hp | Hp] Hb] | Hp]]; try discriminate Hp;
    first [ lia
          | solve [left; lia]
          | solve [right; left; split; [auto | lia]]
          | solve [right; right; reflexivity] ].
Qed.

Lemma beyond_run T B tr : forall m m',
  lifecycle_run T m tr = Some m' -> beyond B m ->
  beyond B m' /\
  Forall (fun x => is_dial (snd x) || is_ready (snd x) || is_health (snd x) = true
                   -> B <= fst x) tr.
Proof.
  induction tr as [|x tr IH]; intros m m' H Hb; cbn [lifecycle_run] in H.
  - injection H as <-. auto.
  - destruct (lifecycle_step T m x) as [m2|] eqn:Hstep; [| discriminate].
    destruct (beyond_step T B m x m2 Hstep Hb) as [Hb2 Hx].
    destruct (IH m2 m' H Hb2) as [Hb' Hall].
    split; [exact Hb' | constructor; assumption].
Qed.

(** A new ticker of period [d] leaves the monitor waiting for a first tick
    no earlier than [d] after the creation. *)
Lemma step_new_ticker T m x d m2 :
  lifecycle_step T m x = Some m2 -> snd x = ENewTicker d ->
  beyond (fst x + d) m2.
Proof.
  intros H Hx. unfold beyond.
  step_cases H; cbn [phase low first_tick fst snd] in *;
    try discriminate Hx; injection Hx as ->;
    right; left; split; auto; lia.
Qed.

Lemma step_ready_ok T m x m2 :
  lifecycle_step T m x = Some m2 -> is_ready_ok (snd x) = true ->
  phase m2 = ReadySent /\ low m2 = fst x.
Proof.
  intros H Hx. step_cases H; cbn in Hx |- *; try discriminate Hx; auto.
Qed.

Lemma heartbeat_due_step T B m x m2 :
  lifecycle_step T m x = Some m2 -> heartbeat_due T B m ->
  heartbeat_due T B m2 /\
  (is_health (snd x) = true -> B + healthInterval T <= fst x).
Proof.
  intros H Hb. unfold heartbeat_due in *.
  step_cases H; cbn [phase low first_tick fst snd] in *; to_Z;
    try contradiction;
    (split; [| cbn; try discriminate; intros _]); try lia; auto.
Qed.

Lemma heartbeat_due_run T B tr : forall m m',
  lifecycle_run T m tr = Some m' -> heartbeat_due T B m ->
  Forall (fun x => is_health (snd x) = true -> B + healthInterval T <= fst x) tr.
Proof.
  induction tr as [|x tr IH]; intros m m' H Hb; cbn [lifecycle_run] in H.
  - constructor.
  - destruct (lifecycle_step T m x) as [m2|] eqn:Hstep; [| discriminate].
    destruct (heartbeat_due_step T B m x m2 Hstep Hb) as [Hb2 Hx].
    constructor; [exact Hx | eapply IH; eauto].
Qed.

Lemma probing_due_step T m x m2 :
  lifecycle_step T m x = Some m2 -> probing_due T m ->
  probing_due T m2 /\
  (is_dial (snd x) || is_ready (snd x) = true ->
   Z.max 0 (initialDelay T) + retryInterval T <= fst x).
Proof.
  intros H Hb. unfold probing_due in *.
  step_cases H; cbn [phase low first_tick fst snd] in *; to_Z;
    (split; [| cbn; try discriminate; intros _]); try lia.
Qed.

Lemma probing_due_run T tr : forall m m',
  lifecycle_run T m tr = Some m' -> probing_due T m ->
  Forall (fun x => is_dial (snd x) || is_ready (snd x) = true ->
                   Z.max 0 (initialDelay T) + retryInterval T <= fst x) tr.
Proof.
  induction tr as [|x tr IH]; intros m m' H Hb; cbn [lifecycle_run] in H.
  - constructor.
  - destruct (lifecycle_step T m x) as [m2|] eqn:Hstep; [| discriminate].
    destruct (probing_due_step T m x m2 Hstep Hb) as [Hb2 Hx].
    constructor; [exact Hx | eapply IH; eauto].
Qed.

(** *** Properties of accepted histories *)

Lemma existsb_In (P : Event -> bool) (tr : Trace) :
  existsb (fun x => P (snd x)) tr = true ->
  exists y, In y tr /\ P (snd y) = true.
Proof. intros H. apply existsb_exists in H. exact H. Qed.

Lemma count_if_none P tr :
  Forall (fun x => P (snd x) = false) tr -> count_if P tr = 0%nat.
Proof.
  unfold count_if. induction 1 as [|x tr Hx _ IH]; cbn; [reflexivity |].
  rewrite Hx. exact IH.
Qed.

Lemma log_not_health (tr : Trace) :
  Forall (fun y => is_log (snd y) = true) tr ->
  Forall (fun y => is_health (snd y) = false) tr.
Proof.
  apply Forall_impl. intros [t e] H. destruct e; cbn in *; congruence.
Qed.

Lemma log_not_network (tr : Trace) :
  Forall (fun y => is_log (snd y) = true) tr ->
  Forall (fun y => is_network (snd y) = false) tr.
Proof.
  apply Forall_impl. intros [t e] H. destruct e; cbn in *; congruence.
Qed.

Lemma accepted_ready_once T tr :
  accepted T tr -> (count_if is_ready tr <= 1)%nat.
Proof.
  intros [m H]. pose proof (ready_budget_run T tr Mon0 m H). cbn in *. lia.
Qed.

Lemma accepted_success_before_ready T tr :
  accepted T tr -> preceded_by is_success_log is_ready tr.
Proof.
  intros [m H] pre x post -> Hx.
  destruct (reads_split T pre x post m H) as (m1 & m2 & Hpre & Hstep & _).
  destruct (step_ready T m1 x m2 Hstep Hx) as [Hp _].
  apply existsb_In.
  apply (entered_by T probe_succeeded is_success_log (enter_probed T) pre Mon0 m1);
    [exact Hpre | reflexivity | rewrite Hp; reflexivity].
Qed.

Lemma accepted_dial_before_ready T tr :
  accepted T tr -> preceded_by is_dial_ok is_ready tr.
Proof.
  intros [m H] pre x post -> Hx.
  destruct (reads_split T pre x post m H) as (m1 & m2 & Hpre & Hstep & _).
  destruct (step_ready T m1 x m2 Hstep Hx) as [Hp _].
  apply existsb_In.
  apply (entered_by T dial_succeeded is_dial_ok (enter_dialed T) pre Mon0 m1);
    [exact Hpre | reflexivity | rewrite Hp; reflexivity].
Qed.

Lemma accepted_ready_before_health T tr :
  accepted T tr -> preceded_by is_ready_ok is_health tr.
Proof.
  intros [m H] pre x post -> Hx.
  destruct (reads_split T pre x post m H) as (m1 & m2 & Hpre & Hstep & _).
  pose proof (step_health T m1 x m2 Hstep Hx) as Hp.
  apply existsb_In.
  apply (entered_by T ready_acknowledged is_ready_ok (enter_ready T) pre Mon0 m1);
    [exact Hpre | reflexivity | rewrite Hp; reflexivity].
Qed.

Lemma ready_err_is_ready e : is_ready_err e = true -> is_ready e = true.
Proof. destruct e; cbn; congruence. Qed.

Lemma ready_err_not_ok e : is_ready_err e = true -> is_ready_ok e = false.
Proof. destruct e as [| | | | | | | | |[e|]| | |]; cbn; congruence. Qed.

Lemma accepted_logs_after_failed_ready T tr :
  accepted T tr -> only_logs_after is_ready_err tr.
Proof.
  intros [m H] pre x post -> Hx.
  destruct (reads_split T pre x post m H) as (m1 & m2 & Hpre & Hstep & Hpost).
  destruct (step_ready T m1 x m2 Hstep (ready_err_is_ready _ Hx)) as [_ Hp2].
  rewrite (ready_err_not_ok _ Hx) in Hp2.
  apply (stopped_run T post m2 m Hpost). rewrite Hp2. reflexivity.
Qed.

Lemma accepted_logs_after_recv_done T tr :
  accepted T tr -> only_logs_after is_recv_done tr.
Proof.
  intros [m H] pre x post -> Hx.
  destruct (reads_split T pre x post m H) as (m1 & m2 & Hpre & Hstep & Hpost).
  pose proof (step_recv_done T m1 x m2 Hstep Hx) as Hp2.
  apply (stopped_run T post m2 m Hpost). rewrite Hp2. reflexivity.
Qed.

(** While the ready signal has not been sent, no heartbeat has been. *)
Lemma no_health_while_budget T tr : forall m m',
  lifecycle_run T m tr = Some m' -> ready_budget (phase m') = 1%nat ->
  Forall (fun x => is_health (snd x) = false) tr.
Proof.
  induction tr as [|x tr IH]; intros m m' H Hb; cbn [lifecycle_run] in H.
  - constructor.
  - destruct (lifecycle_step T m x) as [m2|] eqn:Hstep; [| discriminate].
    constructor; [| eapply IH; eauto].
    destruct (is_health (snd x)) eqn:Hx; [| reflexivity].
    pose proof (ready_budget_run T tr m2 m' H) as Hle.
    assert (Hm2 : ready_budget (phase m2) = 0%nat).
    { clear - Hstep Hx. step_cases Hstep; cbn in Hx |- *; congruence. }
    lia.
Qed.

Lemma accepted_no_health_if_ready_failed T tr :
  accepted T tr ->
  (exists y, In y tr /\ is_ready_err (snd y) = true) ->
  count_if is_health tr = 0%nat.
Proof.
  intros Hacc (y & Hin & Hy).
  destruct (in_split _ _ Hin) as (pre & post & ->).
  pose proof (accepted_logs_after_failed_ready T _ Hacc pre y post eq_refl Hy)
    as Hlogs.
  destruct Hacc as [m H].
  destruct (reads_split T pre y post m H) as (m1 & m2 & Hpre & Hstep & _).
  destruct (step_ready T m1 y m2 Hstep (ready_err_is_ready _ Hy)) as [Hp1 _].
  apply count_if_none. apply Forall_app. split.
  - apply (no_health_while_budget T pre Mon0 m1 Hpre). rewrite Hp1. reflexivity.
  - constructor; [| apply log_not_health; exact Hlogs].
    destruct y as [t e]. destruct e; cbn in *; congruence.
Qed.

(** ** The lifecycle runs are accepted *)

Lemma RunManager_accepted fuel ctx cfg sdk env :
  accepted (Sidecar_Timing cfg)
    (history (Sidecar.agones.RunManager fuel ctx cfg sdk env World0)).
Proof.
  destruct (RunManager_refines fuel ctx cfg sdk env World0 0 0
              (tracks_World0 _)) as (m & [Hm _] & _).
  exists m. exact Hm.
Qed.

Lemma runMonitor_accepted fuel (p : Agnostic.probe.PingProbe) cfg env :
  accepted (Agnostic_Timing cfg)
    (history (Agnostic.runMonitor fuel p cfg env World0)).
Proof.
  destruct (runMonitor_refines cfg
              (fun fuel p ctx env w l f =>
                 Agnostic_Probe_refines (Agnostic_Timing cfg) fuel p ctx env w
                   l f eq_refl)
              fuel p env World0 0 0 (tracks_World0 _)) as (m & [Hm _] & _).
  exists m. exact Hm.
Qed.

(** [runMonitor] takes any [ReadinessProbe]; the probe with the transport
    check fits as well. *)
Lemma runMonitor_accepted_checked fuel (p : Sidecar.probe.PingProbe) cfg env :
  accepted (Agnostic_Timing cfg)
    (history (Agnostic.runMonitor fuel p cfg env World0)).
Proof.
  destruct (runMonitor_refines cfg
              (fun fuel p ctx env w l f =>
                 Sidecar_Probe_refines (Agnostic_Timing cfg) fuel p ctx env w
                   l f eq_refl)
              fuel p env World0 0 0 (tracks_World0 _)) as (m & [Hm _] & _).
  exists m. exact Hm.
Qed.

(** ** Order and timing of the signals *)

(** C1.  In every run of [RunManager] and of [runMonitor], whatever the
    environment answers and however many probe attempts fail, the ready
    signal is sent at most once, and only after a probe attempt succeeded
    (the loop logged its success, a dial returned without error). *)
Theorem ready_at_most_once_after_success :
  forall fuel ctx cfg sdk env (p : Agnostic.probe.PingProbe) mcfg,
    ready_once_after_success
      (history (Sidecar.agones.RunManager fuel ctx cfg sdk env World0)) /\
    ready_once_after_success
      (history (Agnostic.runMonitor fuel p mcfg env World0)).
Proof.
  intros. split.
  - pose proof (RunManager_accepted fuel ctx cfg sdk env) as H.
    repeat split; eauto using accepted_ready_once,
      accepted_success_before_ready, accepted_dial_before_ready.
  - pose proof (runMonitor_accepted fuel p mcfg env) as H.
    repeat split; eauto using accepted_ready_once,
      accepted_success_before_ready, accepted_dial_before_ready.
Qed.

Lemma ready_at_most_once_after_success_witness :
  count_if is_ready run_after_three_refusals = 1%nat /\
  count_if is_retry_log (firstn 18 run_after_three_refusals) = 3%nat /\
  exists y, In y (firstn 18 run_after_three_refusals)
            /\ is_success_log (snd y) = true.
Proof.
  split; [vm_compute; reflexivity |].
  split; [vm_compute; reflexivity |].
  destruct (ready_at_most_once_after_success 4 never cfg_tcp sdk_conn
              (env_refused_until 15)
              (Agnostic.probe.mkPingProbe (Agnostic.config.Ping mon_tcp))
              mon_tcp) as [(_ & H & _) _].
  apply (H (firstn 18 run_after_three_refusals)
           (38000001000, EReady None)
           (skipn 19 run_after_three_refusals)); vm_compute; reflexivity.
Defined.

(** C2.  In every run of [RunManager] and of [runMonitor], every health
    signal comes after a ready signal that returned without error; when
    the ready signal returns an error, the run contains no health signal. *)
Theorem no_health_before_ready :
  forall fuel ctx cfg sdk env (p : Agnostic.probe.PingProbe) mcfg,
    health_only_after_ready
      (history (Sidecar.agones.RunManager fuel ctx cfg sdk env World0)) /\
    health_only_after_ready
      (history (Agnostic.runMonitor fuel p mcfg env World0)).
Proof.
  intros. split.
  - pose proof (RunManager_accepted fuel ctx cfg sdk env) as H.
    split; eauto using accepted_ready_before_health,
      accepted_no_health_if_ready_failed.
  - pose proof (runMonitor_accepted fuel p mcfg env) as H.
    split; eauto using accepted_ready_before_health,
      accepted_no_health_if_ready_failed.
Qed.

Lemma no_health_before_ready_witness :
  (exists y, In y (firstn 22 run_after_three_refusals)
             /\ is_ready_ok (snd y) = true) /\
  count_if is_health run_ready_refused = 0%nat.
Proof.
  split.
  - destruct (no_health_before_ready 4 never cfg_tcp sdk_conn
                (env_refused_until 15)
                (Agnostic.probe.mkPingProbe (Agnostic.config.Ping mon_tcp))
                mon_tcp) as [[H _] _].
    apply (H (firstn 22 run_after_three_refusals)
             (53000001000, EHealth None)
             (skipn 23 run_after_three_refusals)); vm_compute; reflexivity.
  - destruct (no_health_before_ready 4 (mkContext (Some (60 * Second)))
                cfg_tcp sdk_conn env_ready_refused
                (Agnostic.probe.mkPingProbe (Agnostic.config.Ping mon_tcp))
                mon_tcp) as [[_ H] _].
    apply H. exists (32000000000, EReady (Some (SDKError "unavailable"))).
    split; [vm_compute; tauto | reflexivity].
Defined.

Lemma accepted_timers T tr :
  accepted T tr ->
  timers_respected (initialDelay T) (retryInterval T) (healthInterval T) tr.
Proof.
  intros [m H]. repeat split.
  - intros t e Hin He.
    assert (Hdue : probing_due T Mon0) by (cbn; lia).
    pose proof (probing_due_run T tr Mon0 m H Hdue) as Hall.
    rewrite Forall_forall in Hall. specialize (Hall (t, e) Hin He).
    cbn [fst] in Hall. lia.
  - intros pre t d mid t' e post -> He.
    destruct (reads_split T pre _ _ m H) as (m1 & m2 & _ & Hstep & Hrest).
    pose proof (step_new_ticker T m1 _ d m2 Hstep eq_refl) as Hb.
    destruct (beyond_run T _ _ m2 m Hrest Hb) as [_ Hall].
    rewrite Forall_forall in Hall.
    specialize (Hall (t', e) ltac:(apply in_or_app; right; left; reflexivity)).
    cbn [fst snd] in Hall. apply Hall.
    destruct (is_dial e), (is_health e), (is_ready e); cbn in *; congruence.
  - intros pre t mid t' e post -> He.
    destruct (reads_split T pre _ _ m H) as (m1 & m2 & _ & Hstep & Hrest).
    destruct (step_ready_ok T m1 _ m2 Hstep eq_refl) as [Hp Hl].
    assert (Hdue : heartbeat_due T t m2).
    { unfold heartbeat_due. rewrite Hp, Hl. cbn. lia. }
    pose proof (heartbeat_due_run T t _ m2 m Hrest Hdue) as Hall.
    rewrite Forall_forall in Hall.
    specialize (Hall (t', e) ltac:(apply in_or_app; right; left; reflexivity)).
    apply Hall. exact He.
Qed.

(** C10.  The tickers never fire at once: in every run of [RunManager]
    (retry interval 2 s) and of [runMonitor] (5 s), no probe attempt and no
    ready signal is issued before the initial delay plus one retry interval
    after the start; after a ticker is created nothing it drives is issued
    before one full period; and no health signal is issued before one
    health interval after the ready signal. *)
Theorem tickers_never_fire_immediately :
  forall fuel ctx cfg sdk env (p : Agnostic.probe.PingProbe) mcfg,
    timers_respected (Sidecar.config.InitialDelay cfg) (2 * Second)
      (Sidecar.config.HealthInterval cfg)
      (history (Sidecar.agones.RunManager fuel ctx cfg sdk env World0)) /\
    timers_respected (Agnostic.config.InitialDelay mcfg) (5 * Second)
      (Agnostic.config.HealthInterval mcfg)
      (history (Agnostic.runMonitor fuel p mcfg env World0)).
Proof.
  intros. split.
  - apply (accepted_timers (Sidecar_Timing cfg)), RunManager_accepted.
  - apply (accepted_timers (Agnostic_Timing mcfg)), runMonitor_accepted.
Qed.

Lemma tickers_never_fire_immediately_witness :
  30 * Second + 2 * Second <= 32000000000 /\
  38000001000 + 15 * Second <= 53000001000.
Proof.
  destruct (tickers_never_fire_immediately 4 never cfg_tcp sdk_conn
              (env_refused_until 15)
              (Agnostic.probe.mkPingProbe (Agnostic.config.Ping mon_tcp))
              mon_tcp) as [(H1 & _ & H3) _].
  split.
  - apply (H1 32000000000
              (EDial "tcp" "127.0.0.1:25565" 5000000000
                 (Some (NetError "connection refused"))));
      vm_compute; tauto.
  - apply (H3 (firstn 18 run_after_three_refusals) 38000001000
              (firstn 3 (skipn 19 run_after_three_refusals))
              53000001000 (EHealth None)
              (skipn 23 run_after_three_refusals));
      vm_compute; reflexivity.
Defined.

#[local] Hint Unfold probe_outcome retrying : lifecycle.

(** ** What the loops can come to *)

Ltac outcome_goal :=
  autounfold with lifecycle; cbv beta iota;
  repeat match goal with
    | |- exists _, _ => eexists
    | |- _ /\ _ => split
    end;
  exec; try reflexivity; try assumption; try count_solve.

Lemma probeGameServer_outcome fuel ctx cfg env w :
  probe_outcome ctx w fuel (Sidecar.agones.probeGameServer fuel ctx cfg env w).
Proof.
  unfold Sidecar.agones.probeGameServer.
  unfold bind at 1. unfold NewTicker.
  change (2 * Second <=? 0) with false. cbv iota.
  apply (for_select_rule (retrying w) (probe_outcome ctx w)) with (k := 0%nat).
  - intros k w' tk [Hr Hs]. split; assumption.
  - intros k w0 tk c tk' w1 [Hr Hs] Hsel.
    select_cases ctx tk env w0 Hsel.
    + exec. know_done ctx Hc. intros n. outcome_goal.
    + exec. destruct_reply; exec; [| intros n];
        unfold retrying; outcome_goal.
  - unfold retrying. outcome_goal.
Qed.

Lemma Agnostic_Probe_outcome fuel p ctx env w :
  probe_outcome ctx w fuel (Agnostic.probe.PingProbe_Probe fuel p ctx env w).
Proof.
  unfold Agnostic.probe.PingProbe_Probe.
  unfold bind at 1. cbv beta iota delta [slog].
  unfold bind at 1. unfold NewTicker.
  change (5 * Second <=? 0) with false. cbv iota.
  apply (for_select_rule (retrying w) (probe_outcome ctx w)) with (k := 0%nat).
  - intros k w' tk [Hr Hs]. split; assumption.
  - intros k w0 tk c tk' w1 [Hr Hs] Hsel.
    select_cases ctx tk env w0 Hsel.
    + exec. know_done ctx Hc. intros n. outcome_goal.
    + unfold Agnostic.probe.attempt.
      destruct (String.eqb _ "tcp"); exec; destruct_reply; exec;
        try destruct_reply; exec;
        try (intros n); unfold retrying; outcome_goal.
  - unfold retrying. outcome_goal.
Qed.

Lemma Sidecar_Probe_outcome fuel p ctx env w :
  probe_outcome ctx w fuel (Sidecar.probe.PingProbe_Probe fuel p ctx env w).
Proof.
  unfold Sidecar.probe.PingProbe_Probe.
  unfold bind at 1. cbv beta iota delta [slog].
  unfold bind at 1. unfold NewTicker.
  change (5 * Second <=? 0) with false. cbv iota.
  apply (for_select_rule (retrying w) (probe_outcome ctx w)) with (k := 0%nat).
  - intros k w' tk [Hr Hs]. split; assumption.
  - intros k w0 tk c tk' w1 [Hr Hs] Hsel.
    select_cases ctx tk env w0 Hsel.
    + exec. know_done ctx Hc. intros n. outcome_goal.
    + unfold Sidecar.probe.attempt, Sidecar.probe.udp_exchange.
      destruct (String.eqb _ "tcp"); [| destruct (String.eqb _ "udp")];
        exec; try destruct_reply; exec;
        try destruct_reply; exec;
        try destruct_reply; exec;
        try match goal with
            | |- context [Contains ?a ?b] => destruct (Contains a b)
            end;
        exec; try (intros n); unfold retrying; outcome_goal.
  - unfold retrying. outcome_goal.
Qed.



#[local] Hint Unfold heartbeat_outcome ticking : lifecycle.

Lemma Sidecar_heartbeat_outcome fuel ctx cfg sdk env w :
  heartbeat_outcome ctx (Sidecar.config.HealthInterval cfg) w fuel
    (Sidecar.agones.heartbeat fuel ctx cfg sdk env w).
Proof.
  unfold Sidecar.agones.heartbeat.
  unfold bind at 1. unfold NewTicker.
  destruct (Z.leb_spec (Sidecar.config.HealthInterval cfg) 0) as [Hle|Hgt].
  { split; [exact Hle | reflexivity]. }
  apply (for_select_rule (ticking w)
           (heartbeat_outcome ctx (Sidecar.config.HealthInterval cfg) w))
    with (k := 0%nat).
  - intros k w' tk H. exact H.
  - intros k w0 tk c tk' w1 (Hh & He & Hr) Hsel.
    select_cases ctx tk env w0 Hsel.
    + exec. intros n. outcome_goal.
      * eapply ctx_done_mono; [| exact Hc]. lia.
      * rewrite <- app_assoc. reflexivity.
    + exec. destruct_reply; exec; outcome_goal.
  - outcome_goal.
Qed.

Lemma Agnostic_heartbeat_outcome fuel ctx cfg sdk env w :
  heartbeat_outcome ctx (Agnostic.config.HealthInterval cfg) w fuel
    (Agnostic.heartbeat fuel ctx cfg sdk env w).
Proof.
  unfold Agnostic.heartbeat.
  unfold bind at 1. unfold NewTicker.
  destruct (Z.leb_spec (Agnostic.config.HealthInterval cfg) 0) as [Hle|Hgt].
  { split; [exact Hle | reflexivity]. }
  apply (for_select_rule (ticking w)
           (heartbeat_outcome ctx (Agnostic.config.HealthInterval cfg) w))
    with (k := 0%nat).
  - intros k w' tk H. exact H.
  - intros k w0 tk c tk' w1 (Hh & He & Hr) Hsel.
    select_cases ctx tk env w0 Hsel.
    + exec. intros n. outcome_goal.
      * eapply ctx_done_mono; [| exact Hc]. lia.
      * rewrite <- app_assoc. reflexivity.
    + exec. destruct_reply; exec; outcome_goal.
  - outcome_goal.
Qed.

(** C9.  Once in the heartbeat loop ([RunManager]'s and [runMonitor]'s), a
    failed health signal is not fatal: whatever the health calls return, the
    loop either is still ticking, each iteration having sent a health signal
    and each failure having been logged, or has returned from the
    cancellation case with the context done.  (A non-positive health
    interval makes [time.NewTicker] panic before the loop is entered.) *)
Theorem health_failure_is_not_fatal :
  forall fuel ctx cfg mcfg sdk env w,
    heartbeat_outcome ctx (Sidecar.config.HealthInterval cfg) w fuel
      (Sidecar.agones.heartbeat fuel ctx cfg sdk env w) /\
    heartbeat_outcome ctx (Agnostic.config.HealthInterval mcfg) w fuel
      (Agnostic.heartbeat fuel ctx mcfg sdk env w).
Proof.
  intros. split.
  - apply Sidecar_heartbeat_outcome.
  - apply Agnostic_heartbeat_outcome.
Qed.

Lemma health_failure_is_not_fatal_witness :
  count_if is_health_err
    (history (Sidecar.agones.heartbeat 5 never cfg_tcp sdk_conn
                env_health_fails World0)) = 5%nat /\
  count_if is_health
    (history (Sidecar.agones.heartbeat 5 never cfg_tcp sdk_conn
                env_health_fails World0)) = 5%nat.
Proof.
  split; [vm_compute; reflexivity |].
  destruct (health_failure_is_not_fatal 5 never cfg_tcp mon_tcp sdk_conn
              env_health_fails World0) as [H _].
  vm_compute in H. destruct H as [H _]. vm_compute. exact H.
Defined.

(** ** Single probe attempts *)

(** The UDP attempt of the two-branch [PingProbe.Probe]: a failed dial is
    the outcome; otherwise "ping" is written, the connection closed, and
    the result of the write is the outcome. *)
Lemma Agnostic_udp_attempt (p : Agnostic.probe.PingProbe) address env w :
  let timeout := Agnostic.config.Timeout (Agnostic.probe.Config p) in
  Agnostic.probe.attempt p "udp" address env w =
  match dial_reply env (calls w) with
  | (d, Some e) =>
      Done (Some e) (emit w (EDial "udp" address timeout (Some e)) (Z.of_N d))
  | (d, None) =>
      let w1 := emit w (EDial "udp" address timeout None) (Z.of_N d) in
      let res := write_reply env (calls w1) in
      Done res (emit (emit w1 (EWrite "ping" res) 0) EClose 0)
  end.
Proof.
  unfold Agnostic.probe.attempt. cbn [String.eqb Ascii.eqb Bool.eqb].
  cbv beta iota delta [bind ret DialTimeout Write Close].
  destruct (dial_reply env (calls w)) as [d [e|]]; reflexivity.
Qed.

(** The UDP attempt of the [PingProbe.Probe] with the transport check: the
    same outcome, whatever the optional read returns. *)
Lemma Sidecar_udp_attempt (q : Sidecar.probe.PingProbe) address env w :
  let timeout := Sidecar.config.PingTimeout (Sidecar.probe.Config q) in
  match dial_reply env (calls w) with
  | (d, Some e) =>
      Sidecar.probe.attempt q "udp" address env w =
      Done (Some e) (emit w (EDial "udp" address timeout (Some e)) (Z.of_N d))
  | (d, None) =>
      let w1 := emit w (EDial "udp" address timeout None) (Z.of_N d) in
      let res := write_reply env (calls w1) in
      exists w',
        Sidecar.probe.attempt q "udp" address env w = Done res w' /\
        In (now w1, EWrite "ping" res) (trace w')
  end.
Proof.
  intros timeout. subst timeout.
  unfold Sidecar.probe.attempt, Sidecar.probe.udp_exchange.
  cbn [String.eqb Ascii.eqb Bool.eqb].
  cbv beta iota delta [bind ret DialTimeout Write Close SetReadDeadline Read slog].
  destruct (dial_reply env (calls w)) as [d [e|]]; [reflexivity |].
  cbn [calls emit now trace].
  destruct (write_reply env (S (calls w))) as [e|].
  - eexists. split; [reflexivity |]. cbn [trace emit].
    rewrite !in_app_iff. cbn. tauto.
  - destruct (read_reply env _) as [d' [e'|]];
      [destruct (negb (Contains (Error_text e') "timeout")) |];
      (eexists; split; [reflexivity |]); cbn [trace emit];
      rewrite !in_app_iff; cbn; tauto.
Qed.

(** C6, at the failing input.  With the transport "udp", the readiness loop
    of [RunManager] ([probeGameServer]) reports success as soon as the dial
    returns and the ready signal is sent, and no payload was ever written:
    the run below has no write at all. *)
Theorem probeGameServer_udp_sends_no_ping :
  history (Sidecar.agones.RunManager 1 never cfg_udp sdk_conn env_all_ok World0) =
    [(0, ELog LevelInfo "Starting Agones manager..." None);
     (0, ELog LevelInfo "Waiting for initial delay before probing" None);
     (0, ESleep (30 * Second));
     (30 * Second, ELog LevelInfo "Starting readiness probe..." None);
     (30 * Second, ENewTicker (2 * Second));
     (32 * Second, ERecv CaseTick);
     (32 * Second, EDial "udp" "127.0.0.1:2456" (5 * Second) None);
     (32 * Second, EClose);
     (32 * Second, ELog LevelInfo "Readiness probe successful!" None);
     (32 * Second, EReady None);
     (32 * Second,
      ELog LevelInfo ">>> Server is Ready! Starting health checks. <<<" None);
     (32 * Second, ENewTicker (15 * Second));
     (47 * Second, ERecv CaseTick);
     (47 * Second, EHealth None);
     (47 * Second, ELog LevelDebug "Health ping sent successfully" None)]
  /\
  count_if is_write
    (history (Sidecar.agones.RunManager 1 never cfg_udp sdk_conn env_all_ok
                World0)) = 0%nat.
Proof. repeat split; vm_compute; reflexivity. Qed.




(** ** Cancellation *)

(** A select entered with no tick pending, on a context cancelled before
    the next tick, ends at the instant of the cancellation (or at once, if
    that is past) and takes the cancellation case. *)
Lemma select_cancelled ctx tk env w c :
  done_at ctx = Some c -> c < next tk -> now w < next tk ->
  select ctx tk env w =
  Done (CaseDone, tk)
       (mkWorld (Z.max (now w) c + Z.of_N (lag env (calls w)))
                (trace w ++ [(Z.max (now w) c, ERecv CaseDone)])
                (S (calls w))).
Proof.
  intros Hc Hlt Hnow. unfold select, wake_time, ctx_done. rewrite Hc.
  replace (Z.min c (next tk)) with c by lia.
  replace (c <=? Z.max (now w) c) with true by (symmetry; apply Z.leb_le; lia).
  replace (next tk <=? Z.max (now w) c) with false
    by (symmetry; apply Z.leb_gt; lia).
  reflexivity.
Qed.

(** A select entered with the context done and a tick pending takes the
    case the runtime picks. *)
Lemma select_race ctx tk env w :
  ctx_done ctx (now w) = true -> next tk <= now w ->
  exists tk' w',
    select ctx tk env w = Done (pick env (calls w), tk') w' /\
    trace w' = trace w ++ [(now w, ERecv (pick env (calls w)))].
Proof.
  intros Hd Hn. unfold select.
  assert (Ht : wake_time ctx tk (now w) = now w).
  { unfold wake_time, ctx_done in *. destruct (done_at ctx) as [c|];
      [apply Z.leb_le in Hd | discriminate]; lia. }
  rewrite Ht, Hd.
  replace (next tk <=? now w) with true by (symmetry; apply Z.leb_le; lia).
  eexists _, _. split; reflexivity.
Qed.

(** The manager when the shutdown signal arrives before the initial delay
    is over: the sleep runs to its end, the first select takes the
    cancellation case, and nothing was sent. *)
Lemma RunManager_cancelled_during_delay fuel ctx cfg sdk env c :
  done_at ctx = Some c ->
  let t := Z.max 0 (Sidecar.config.InitialDelay cfg) + Z.of_N (lag env 2) in
  c <= t ->
  Sidecar.agones.RunManager (S fuel) ctx cfg sdk env World0 =
  Done tt
    (mkWorld (t + Z.of_N (lag env 5))
       [(0, ELog LevelInfo "Starting Agones manager..." None);
        (0, ELog LevelInfo "Waiting for initial delay before probing" None);
        (0, ESleep (Sidecar.config.InitialDelay cfg));
        (t, ELog LevelInfo "Starting readiness probe..." None);
        (t, ENewTicker (2 * Second));
        (t, ERecv CaseDone);
        (t + Z.of_N (lag env 5),
         ELog LevelError
           "Readiness probe failed, game server will not be marked as Ready"
           (Some Canceled))] 7).
Proof.
  intros Hc t Hle.
  unfold Sidecar.agones.RunManager, Sidecar.agones.probeGameServer.
  cbn [for_select].
  cbv beta iota delta [bind ret slog Sleep NewTicker emit World0].
  cbn [now trace calls app].
  change (2 * Second <=? 0) with false. cbv iota.
  cbn [now trace calls app].
  change (0 + 0 + 0 + (Z.max 0 (Sidecar.config.InitialDelay cfg)
                       + Z.of_N (lag env 2)) + 0)
    with (t + 0).
  change (0 + 0 + 0 + (Z.max 0 (Sidecar.config.InitialDelay cfg)
                       + Z.of_N (lag env 2)))
    with t.
  rewrite Z.add_0_r.
  rewrite (select_cancelled ctx _ env _ c Hc);
    cbn [next now]; change (2 * Second) with 2000000000; try lia.
  assert (Hmax : Z.max t c = t) by lia.
  assert (Hdone : ctx_done ctx (t + Z.of_N (lag env 5)) = true).
  { unfold ctx_done. rewrite Hc. apply Z.leb_le. lia. }
  cbv beta iota delta [ctx_Err]. cbn [now trace calls app].
  rewrite ?Z.add_0_r, !Hmax, !Hdone. cbn [now trace calls app].
  rewrite ?Z.add_0_r. reflexivity.
Qed.

Lemma runMonitor_cancelled_during_delay fuel (p : Agnostic.probe.PingProbe)
    cfg env c :
  signal_at env = Some c -> sdk_connect env = None ->
  let t := Z.max 0 (Agnostic.config.InitialDelay cfg) + Z.of_N (lag env 2) in
  c <= t ->
  Agnostic.runMonitor (S fuel) p cfg env World0 =
  Done (Some (Errorf_w "readiness probe failed: " Canceled))
    (mkWorld (t + Z.of_N (lag env 6))
       [(0, ELog LevelInfo "Successfully connected to Agones SDK" None);
        (0, ELog LevelInfo "Waiting for initial delay" None);
        (0, ESleep (Agnostic.config.InitialDelay cfg));
        (t, ELog LevelInfo "Starting readiness probe..." None);
        (t, ELog LevelInfo "Starting ping probe" None);
        (t, ENewTicker (5 * Second));
        (t, ERecv CaseDone)] 7).
Proof.
  intros Hc Hsdk t Hle.
  unfold Agnostic.runMonitor, Probe, Agnostic.probe.PingProbe_ReadinessProbe,
    Agnostic.probe.PingProbe_Probe.
  cbn [for_select].
  cbv beta iota delta [bind ret slog Sleep NewTicker NotifyContext NewSDK
                       emit World0].
  rewrite Hsdk.
  cbn [now trace calls app].
  change (5 * Second <=? 0) with false. cbv iota.
  cbn [now trace calls app].
  change (0 + 0 + 0 + (Z.max 0 (Agnostic.config.InitialDelay cfg)
                       + Z.of_N (lag env 2)))
    with t.
  rewrite ?Z.add_0_r.
  rewrite (select_cancelled (mkContext (signal_at env)) _ env _ c);
    cbn [next now done_at]; change (5 * Second) with 5000000000;
    try lia; try exact Hc.
  assert (Hmax : Z.max t c = t) by lia.
  assert (Hdone : ctx_done (mkContext (signal_at env))
                    (t + Z.of_N (lag env 6)) = true).
  { unfold ctx_done. cbn [done_at]. rewrite Hc. apply Z.leb_le. lia. }
  cbv beta iota delta [ctx_Err]. cbn [now trace calls app].
  rewrite ?Z.add_0_r, !Hmax, !Hdone. reflexivity.
Qed.

(** C5 fails: cancelled one second into an initial delay of thirty seconds,
    the manager still sleeps the thirty seconds out ([time.Sleep] does not
    look at the context); the cancellation is taken at the first select. *)
Lemma initial_delay_is_not_interrupted :
  ctx_done (mkContext (Some Second)) Second = true /\
  Sidecar.agones.RunManager 1 (mkContext (Some Second)) cfg_tcp sdk_conn
    env_early_signal World0 =
  Done tt
    (mkWorld (30 * Second)
       [(0, ELog LevelInfo "Starting Agones manager..." None);
        (0, ELog LevelInfo "Waiting for initial delay before probing" None);
        (0, ESleep (30 * Second));
        (30 * Second, ELog LevelInfo "Starting readiness probe..." None);
        (30 * Second, ENewTicker (2 * Second));
        (30 * Second, ERecv CaseDone);
        (30 * Second,
         ELog LevelError
           "Readiness probe failed, game server will not be marked as Ready"
           (Some Canceled))] 7).
Proof. split; vm_compute; reflexivity. Qed.

(** C5, amended.  Cancellation is observed at every select, that is during
    the wait for a retry tick and during the wait for a health tick: with no
    tick pending, a context cancelled before the next tick ends the wait at
    the instant of the cancellation, through the cancellation case.  The
    initial delay is slept out in full; a cancellation delivered during it
    is taken at the first select, right after the delay, and the run ends
    with no probe and no signal sent. *)
Theorem cancellation_is_observed_at_selects :
  forall (c : Z),
    (forall ctx tk env w,
        done_at ctx = Some c -> c < next tk -> now w < next tk ->
        select ctx tk env w =
        Done (CaseDone, tk)
             (mkWorld (Z.max (now w) c + Z.of_N (lag env (calls w)))
                      (trace w ++ [(Z.max (now w) c, ERecv CaseDone)])
                      (S (calls w)))) /\
    (forall fuel ctx cfg sdk env,
        done_at ctx = Some c ->
        let t := Z.max 0 (Sidecar.config.InitialDelay cfg) + Z.of_N (lag env 2) in
        c <= t ->
        exists w',
          Sidecar.agones.RunManager (S fuel) ctx cfg sdk env World0 = Done tt w'
          /\ t <= now w'
          /\ In (t, ERecv CaseDone) (trace w')
          /\ count_if is_network (trace w') = 0%nat) /\
    (forall fuel (p : Agnostic.probe.PingProbe) cfg env,
        signal_at env = Some c -> sdk_connect env = None ->
        let t := Z.max 0 (Agnostic.config.InitialDelay cfg) + Z.of_N (lag env 2) in
        c <= t ->
        exists w',
          Agnostic.runMonitor (S fuel) p cfg env World0 =
            Done (Some (Errorf_w "readiness probe failed: " Canceled)) w'
          /\ t <= now w'
          /\ In (t, ERecv CaseDone) (trace w')
          /\ count_if is_network (trace w') = 0%nat).
Proof.
  intros c. repeat split.
  - intros. apply select_cancelled; assumption.
  - intros fuel ctx cfg sdk env Hc t Hle.
    eexists. split;
      [apply (RunManager_cancelled_during_delay fuel ctx cfg sdk env c Hc Hle) |].
    cbn [now trace]. fold t.
    split; [lia | split; [cbn; tauto | reflexivity]].
  - intros fuel p cfg env Hc Hsdk t Hle.
    eexists. split;
      [apply (runMonitor_cancelled_during_delay fuel p cfg env c Hc Hsdk Hle) |].
    cbn [now trace]. fold t.
    split; [lia | split; [cbn; tauto | reflexivity]].
Qed.

Lemma cancellation_is_observed_at_selects_witness :
  exists w',
    Sidecar.agones.RunManager 1 (mkContext (Some Second)) cfg_tcp sdk_conn
      env_early_signal World0 = Done tt w'
    /\ 30 * Second <= now w'
    /\ In (30 * Second, ERecv CaseDone) (trace w')
    /\ count_if is_network (trace w') = 0%nat.
Proof.
  refine (proj1 (proj2 (cancellation_is_observed_at_selects Second))
            0%nat (mkContext (Some Second)) cfg_tcp sdk_conn env_early_signal
            eq_refl _).
  vm_compute. discriminate.
Defined.

(** C4 fails.  First run: the context is done at 3 s, during a dial that
    times out at 7 s; the next tick (4 s) is then pending too, select takes
    it, and a new dial is issued at 7 s.  Second run: the context is done at
    2.5 s, during a dial that succeeds at 3 s; the ready signal is sent at
    3 s without a look at the context. *)
Lemma cancellation_can_lose_to_a_tick :
  ctx_done (mkContext (Some (3 * Second))) (7 * Second) = true /\
  history (Sidecar.agones.RunManager 2 (mkContext (Some (3 * Second)))
             cfg_nodelay sdk_conn env_timeouts World0) =
    [(0, ELog LevelInfo "Starting Agones manager..." None);
     (0, ELog LevelInfo "Waiting for initial delay before probing" None);
     (0, ESleep 0);
     (0, ELog LevelInfo "Starting readiness probe..." None);
     (0, ENewTicker (2 * Second));
     (2 * Second, ERecv CaseTick);
     (2 * Second,
      EDial "tcp" "127.0.0.1:25565" (5 * Second) (Some (NetError "i/o timeout")));
     (7 * Second,
      ELog LevelWarn "Readiness probe attempt failed, retrying..."
        (Some (NetError "i/o timeout")));
     (7 * Second, ERecv CaseTick);
     (7 * Second,
      EDial "tcp" "127.0.0.1:25565" (5 * Second) (Some (NetError "i/o timeout")));
     (12 * Second,
      ELog LevelWarn "Readiness probe attempt failed, retrying..."
        (Some (NetError "i/o timeout")))]
  /\
  ctx_done (mkContext (Some (2500 * 1000000))) (3 * Second) = true /\
  history (Sidecar.agones.RunManager 1 (mkContext (Some (2500 * 1000000)))
             cfg_nodelay sdk_conn env_signal_during_dial World0) =
    [(0, ELog LevelInfo "Starting Agones manager..." None);
     (0, ELog LevelInfo "Waiting for initial delay before probing" None);
     (0, ESleep 0);
     (0, ELog LevelInfo "Starting readiness probe..." None);
     (0, ENewTicker (2 * Second));
     (2 * Second, ERecv CaseTick);
     (2 * Second, EDial "tcp" "127.0.0.1:25565" (5 * Second) None);
     (3 * Second, EClose);
     (3 * Second, ELog LevelInfo "Readiness probe successful!" None);
     (3 * Second, EReady None);
     (3 * Second,
      ELog LevelInfo ">>> Server is Ready! Starting health checks. <<<" None);
     (3 * Second, ENewTicker (15 * Second));
     (3 * Second, ERecv CaseDone);
     (3 * Second,
      ELog LevelInfo "Shutdown signal received. Stopping Agones manager." None)].
Proof. repeat split; vm_compute; reflexivity. Qed.

Lemma accepted_no_network_after_recv_done T tr :
  accepted T tr ->
  forall (pre : Trace) (x : Entry) (post : Trace),
    tr = pre ++ x :: post -> is_recv_done (snd x) = true ->
    Forall (fun y => is_log (snd y) = true) post /\
    count_if is_network post = 0%nat.
Proof.
  intros Hacc pre x post Heq Hx.
  pose proof (accepted_logs_after_recv_done T tr Hacc pre x post Heq Hx) as H.
  split; [exact H | apply count_if_none, log_not_network, H].
Qed.

(** C4, amended.  In every run of [RunManager] and of [runMonitor], once a
    select has taken the cancellation case only log lines follow: no probe
    attempt, no ready signal, no health signal.  At a wait point where the
    context is done and no tick is pending, the cancellation case is the one
    taken; where a tick is pending as well, the case taken is the one the
    runtime picks. *)
Theorem no_network_call_after_cancellation_is_taken :
  forall fuel ctx cfg sdk env (p : Agnostic.probe.PingProbe) mcfg
         (pre : Trace) (x : Entry) (post : Trace),
    is_recv_done (snd x) = true ->
    (history (Sidecar.agones.RunManager fuel ctx cfg sdk env World0)
       = pre ++ x :: post ->
     Forall (fun y => is_log (snd y) = true) post /\
     count_if is_network post = 0%nat) /\
    (history (Agnostic.runMonitor fuel p mcfg env World0) = pre ++ x :: post ->
     Forall (fun y => is_log (snd y) = true) post /\
     count_if is_network post = 0%nat) /\
    (forall tk w,
        ctx_done ctx (now w) = true -> now w < next tk ->
        select ctx tk env w =
        Done (CaseDone, tk)
             (mkWorld (now w + Z.of_N (lag env (calls w)))
                      (trace w ++ [(now w, ERecv CaseDone)]) (S (calls w)))) /\
    (forall tk w,
        ctx_done ctx (now w) = true -> next tk <= now w ->
        exists tk' w',
          select ctx tk env w = Done (pick env (calls w), tk') w' /\
          trace w' = trace w ++ [(now w, ERecv (pick env (calls w)))]).
Proof.
  intros fuel ctx cfg sdk env p mcfg pre x post Hx. repeat split.
  - eapply accepted_no_network_after_recv_done; eauto using RunManager_accepted.
  - eapply accepted_no_network_after_recv_done; eauto using RunManager_accepted.
  - eapply accepted_no_network_after_recv_done; eauto using runMonitor_accepted.
  - eapply accepted_no_network_after_recv_done; eauto using runMonitor_accepted.
  - intros tk w Hd Hn. unfold ctx_done in Hd.
    destruct (done_at ctx) as [c|] eqn:Hc; [| discriminate].
    apply Z.leb_le in Hd.
    rewrite (select_cancelled ctx tk env w c Hc); [| lia | lia].
    replace (Z.max (now w) c) with (now w) by lia. reflexivity.
  - intros tk w Hd Hn. apply select_race; assumption.
Qed.

Lemma no_network_call_after_cancellation_is_taken_witness :
  Forall (fun y => is_log (snd y) = true)
    [(3 * Second,
      ELog LevelInfo "Shutdown signal received. Stopping Agones manager." None)]
  /\ count_if is_network
       [(3 * Second,
         ELog LevelInfo "Shutdown signal received. Stopping Agones manager."
           None)] = 0%nat.
Proof.
  refine (proj1 (no_network_call_after_cancellation_is_taken 1
                   (mkContext (Some (2500 * 1000000))) cfg_nodelay sdk_conn
                   env_signal_during_dial
                   (Agnostic.probe.mkPingProbe (Agnostic.config.Ping mon_tcp))
                   mon_tcp
                   (firstn 12
                      (history (Sidecar.agones.RunManager 1
                                  (mkContext (Some (2500 * 1000000)))
                                  cfg_nodelay sdk_conn env_signal_during_dial
                                  World0)))
                   (3 * Second, ERecv CaseDone)
                   [(3 * Second,
                     ELog LevelInfo
                       "Shutdown signal received. Stopping Agones manager."
                       None)]
                   eq_refl) _).
  vm_compute. reflexivity.
Defined.

(** ** A failed ready signal *)

Lemma reads_failed T tr m y :
  reads T tr m -> In y tr -> is_ready_err (snd y) = true -> phase m = Failed.
Proof.
  intros H Hin Hy.
  destruct (in_split _ _ Hin) as (pre & post & ->).
  destruct (reads_split T pre y post m H) as (m1 & m2 & _ & Hstep & Hpost).
  destruct (step_ready T m1 y m2 Hstep (ready_err_is_ready _ Hy)) as [_ Hp2].
  rewrite (ready_err_not_ok _ Hy) in Hp2.
  destruct (stopped_run T post m2 m Hpost) as [_ Hp];
    [rewrite Hp2; reflexivity | congruence].
Qed.

Lemma count_if_In P (tr : Trace) y :
  In y tr -> P (snd y) = true -> (1 <= count_if P tr)%nat.
Proof.
  intros Hin Hy. destruct (in_split _ _ Hin) as (pre & post & ->).
  rewrite count_if_app. change (y :: post) with ([y] ++ post).
  rewrite count_if_app. unfold count_if at 2. cbn [filter].
  rewrite Hy. cbn. lia.
Qed.

Lemma ready_err_in_app (y : Entry) (tr post : Trace) :
  is_ready_err (snd y) = true ->
  Forall (fun x => is_ready (snd x) = false) post ->
  In y (tr ++ post) -> In y tr.
Proof.
  intros Hy Hpost Hin. apply in_app_or in Hin. destruct Hin as [H|H]; [exact H |].
  rewrite Forall_forall in Hpost. specialize (Hpost y H).
  rewrite (ready_err_is_ready _ Hy) in Hpost. discriminate.
Qed.

(** [RunManager] after a failed ready signal: it has returned, the signal
    was sent once, no health signal was sent, only log lines follow. *)
Lemma RunManager_after_failed_ready fuel ctx cfg sdk env y :
  let o := Sidecar.agones.RunManager fuel ctx cfg sdk env World0 in
  is_ready_err (snd y) = true -> In y (history o) ->
  (exists w', o = Done tt w') /\
  count_if is_ready (history o) = 1%nat /\
  count_if is_health (history o) = 0%nat /\
  only_logs_after is_ready_err (history o).
Proof.
  intros o Hy Hin.
  pose proof (RunManager_accepted fuel ctx cfg sdk env) as Hacc. fold o in Hacc.
  split; [| split; [| split]].
  - destruct (RunManager_refines fuel ctx cfg sdk env World0 0 0
                (tracks_World0 _)) as (m & [Hm _] & Hpost).
    fold o in Hm, Hpost.
    pose proof (reads_failed _ _ m y Hm Hin Hy) as Hp.
    destruct o as [[] w'| | | |]; cbn [final] in *;
      try contradiction; rewrite Hp in Hpost.
    + eauto.
    + destruct Hpost; discriminate.
    + destruct Hpost; discriminate.
  - pose proof (accepted_ready_once _ _ Hacc) as Hle.
    pose proof (count_if_In is_ready _ y Hin (ready_err_is_ready _ Hy)). lia.
  - apply (accepted_no_health_if_ready_failed _ _ Hacc). eauto.
  - apply (accepted_logs_after_failed_ready _ _ Hacc).
Qed.

(** The shutdown signal arrives at 60 s; the ready signal is refused. *)
Lemma ready_failure_leaves_the_sidecar_running :
  Sidecar.main 4 cfg_tcp env_ready_refused World0 =
  Done tt
    (mkWorld (60 * Second)
       [(0, ELog LevelInfo "Starting Unified Agones Sidecar" None);
        (0, ELog LevelInfo "Successfully connected to Agones SDK" None);
        (0, EGo);
        (0, ELog LevelInfo "Starting Agones manager..." None);
        (0, ELog LevelInfo "Waiting for initial delay before probing" None);
        (0, ESleep (30 * Second));
        (30 * Second, ELog LevelInfo "Starting readiness probe..." None);
        (30 * Second, ENewTicker (2 * Second));
        (32 * Second, ERecv CaseTick);
        (32 * Second, EDial "tcp" "127.0.0.1:25565" (5 * Second) None);
        (32 * Second, EClose);
        (32 * Second, ELog LevelInfo "Readiness probe successful!" None);
        (32 * Second, EReady (Some (SDKError "unavailable")));
        (32 * Second,
         ELog LevelError "Failed to send Ready signal to Agones"
           (Some (SDKError "unavailable")));
        (60 * Second, ERecv CaseDone);
        (60 * Second, ELog LevelInfo "Shutdown signal received. Exiting." None)]
       16)
  /\ exit_status (Sidecar.main 4 cfg_tcp env_ready_refused World0) = Some 0.
Proof. split; vm_compute; reflexivity. Qed.

(** [main.go]: after a failed ready signal the process exits with status 1. *)
Lemma Agnostic_main_after_failed_ready fuel cfg env y :
  is_ready_err (snd y) = true ->
  In y (history (Agnostic.main fuel cfg env World0)) ->
  exit_status (Agnostic.main fuel cfg env World0) = Some 1.
Proof.
  intros Hy Hin.
  pose proof (Agnostic_main_run fuel cfg env World0) as Hmain.
  cbv zeta in Hmain.
  set (p := Agnostic.probe.mkPingProbe (Agnostic.config.Ping cfg)) in *.
  set (w1 := emit World0 (ELog LevelInfo "Starting Agnostic Agones Sidecar" None) 0)
    in *.
  assert (Htr : tracks (Agnostic_Timing cfg) w1 (mkMon Delaying 0 0)).
  { subst w1. split; [reflexivity | cbn; lia]. }
  destruct (runMonitor_refines cfg
              (fun fuel p ctx env w l f =>
                 Agnostic_Probe_refines (Agnostic_Timing cfg) fuel p ctx env w
                   l f eq_refl)
              fuel p env w1 0 0 Htr) as (m & [Hm _] & Hpost).
  destruct (Agnostic.runMonitor fuel p cfg env w1) as [[e|] w'| | | |];
    cbn [final] in *; try contradiction; rewrite Hmain in Hin |- *;
    try reflexivity; exfalso; cbn [history final emit trace] in Hin.
  - apply (ready_err_in_app y (trace w') _ Hy) in Hin; [| repeat constructor].
    pose proof (reads_failed _ _ m y Hm Hin Hy) as Hp.
    destruct Hpost as [Hpost _]. congruence.
  - pose proof (reads_failed _ _ m y Hm Hin Hy) as Hp.
    destruct Hpost as [Hpost _]. congruence.
  - pose proof (reads_failed _ _ m y Hm Hin Hy) as Hp.
    destruct Hpost; congruence.
Qed.

(** The unified sidecar: after a failed ready signal the process stays up;
    it ends with status 0 when the shutdown signal arrives. *)
Lemma Sidecar_main_after_failed_ready fuel cfg env y :
  is_ready_err (snd y) = true ->
  In y (history (Sidecar.main fuel cfg env World0)) ->
  match signal_at env with
  | Some _ => exit_status (Sidecar.main fuel cfg env World0) = Some 0
  | None => exists w', Sidecar.main fuel cfg env World0 = Blocked w'
  end.
Proof.
  intros Hy Hin.
  destruct (sdk_connect env) as [e0|] eqn:Hsdk.
  { exfalso. revert Hin. unfold Sidecar.main.
    cbv beta iota delta [bind slog NotifyContext NewSDK os_Exit]. rewrite Hsdk.
    cbn. intros [H|[H|[H|[]]]]; subst y; discriminate Hy. }
  pose proof (Sidecar_main_run fuel cfg env World0 Hsdk) as Hmain.
  cbv zeta in Hmain.
  set (ctx := mkContext (signal_at env)) in *.
  match type of Hmain with
  | context [Sidecar.agones.RunManager fuel ctx cfg sdk_conn env ?w] =>
      set (w1 := w) in *
  end.
  assert (Htr : tracks (Sidecar_Timing cfg) w1 (mkMon Delaying 0 0)).
  { subst w1. split; [reflexivity | cbn; lia]. }
  destruct (RunManager_refines fuel ctx cfg sdk_conn env w1 0 0 Htr)
    as (m & [Hm _] & Hpost).
  destruct (Sidecar.agones.RunManager fuel ctx cfg sdk_conn env w1)
    as [[] w'| | | |]; cbn [final] in *; try contradiction.
  - destruct (signal_at env) as [c|].
    + destruct Hmain as (w'' & -> & _). reflexivity.
    + eauto.
  - exfalso. rewrite Hmain in Hin. cbn [history final] in Hin.
    pose proof (reads_failed _ _ m y Hm Hin Hy) as Hp.
    destruct Hpost; congruence.
  - exfalso. rewrite Hmain in Hin. cbn [history final] in Hin.
    pose proof (reads_failed _ _ m y Hm Hin Hy) as Hp.
    destruct Hpost; congruence.
Qed.

(** C3, amended.  When the ready signal returns an error the manager stops:
    [RunManager] returns, having sent the ready signal once and no health
    signal, and only log lines follow the failed call; [runMonitor] returns
    the error and its process ([main.go]) exits with status 1.  The unified
    sidecar, which runs [RunManager] in a goroutine, stays up until the
    shutdown signal arrives and then ends with status 0. *)
Theorem ready_failure_stops_the_manager :
  forall fuel ctx cfg sdk mcfg env (y : Entry),
    is_ready_err (snd y) = true ->
    (let o := Sidecar.agones.RunManager fuel ctx cfg sdk env World0 in
     In y (history o) ->
     (exists w', o = Done tt w') /\
     count_if is_ready (history o) = 1%nat /\
     count_if is_health (history o) = 0%nat /\
     only_logs_after is_ready_err (history o)) /\
    (In y (history (Agnostic.main fuel mcfg env World0)) ->
     exit_status (Agnostic.main fuel mcfg env World0) = Some 1) /\
    (In y (history (Sidecar.main fuel cfg env World0)) ->
     match signal_at env with
     | Some _ => exit_status (Sidecar.main fuel cfg env World0) = Some 0
     | None => exists w', Sidecar.main fuel cfg env World0 = Blocked w'
     end).
Proof.
  intros fuel ctx cfg sdk mcfg env y Hy. split; [| split].
  - intros o Hin. apply RunManager_after_failed_ready with (y := y); assumption.
  - intros Hin. apply Agnostic_main_after_failed_ready with (y := y); assumption.
  - intros Hin. apply Sidecar_main_after_failed_ready with (y := y); assumption.
Qed.

Lemma ready_failure_stops_the_manager_witness :
  exit_status (Agnostic.main 4 mon_tcp env_ready_refused World0) = Some 1.
Proof.
  refine (proj1 (proj2 (ready_failure_stops_the_manager 4 never cfg_tcp
                          sdk_conn mon_tcp env_ready_refused
                          (35 * Second, EReady (Some (SDKError "unavailable")))
                          eq_refl)) _).
  vm_compute. tauto.
Defined.

(** ** What the loops add to the history *)

Lemma extends_by_refl (K : Trace -> Prop) w : K [] -> extends_by K w w.
Proof. intros H. exists []. rewrite app_nil_r. auto. Qed.

Lemma extends_by_trans (K1 K2 K : Trace -> Prop) w1 w2 w3 :
  extends_by K1 w1 w2 -> extends_by K2 w2 w3 ->
  (forall d1 d2, K1 d1 -> K2 d2 -> K (d1 ++ d2)) ->
  extends_by K w1 w3.
Proof.
  intros (d1 & H1 & HK1) (d2 & H2 & HK2) HK.
  exists (d1 ++ d2). rewrite H2, H1, app_assoc. auto.
Qed.

#[local] Hint Unfold sockets_balanced no_socket_touched no_data_exchanged
  only_heartbeat_actions : lifecycle.

(** Counts over an explicit list appended to a symbolic one. *)
Ltac count_added :=
  rewrite ?count_if_app;
  repeat match goal with
    | |- context [count_if ?P (?x :: ?l)] =>
        let v := eval cbv in (count_if P (x :: l)) in
        change (count_if P (x :: l)) with v
    | |- context [count_if ?P []] => change (count_if P []) with 0%nat
    end;
  lia.

Lemma extends_by_add (K : Trace -> Prop) w w0 w' d' :
  extends_by K w w0 ->
  trace w' = trace w0 ++ d' ->
  (forall d, K d -> K (d ++ d')) ->
  extends_by K w w'.
Proof.
  intros (d & Hd & HK) Heq Hadd. exists (d ++ d').
  rewrite Heq, Hd, app_assoc. auto.
Qed.

(** [H] says the history so far extends that of the start; the goal says
    so of an explicit later world. *)
Ltac footprint H :=
  exec; eapply (extends_by_add _ _ _ _ _ H);
  [ cbn [trace]; rewrite <- ?app_assoc; cbn [app]; reflexivity
  | let d := fresh "d" in let HK := fresh "HK" in
    intros d HK;
    autounfold with lifecycle in *;
    repeat match goal with
      | H' : _ /\ _ |- _ => destruct H'
      | |- _ /\ _ => split
      | |- Forall _ (_ ++ _) => apply Forall_app; split; [assumption |]
      | |- Forall _ (_ :: _) => constructor; [reflexivity |]
      | |- Forall _ [] => constructor
      end;
    try count_added ].

Lemma probeGameServer_footprint fuel ctx cfg env w :
  extends_by sockets_balanced w
    (final (Sidecar.agones.probeGameServer fuel ctx cfg env w)).
Proof.
  unfold Sidecar.agones.probeGameServer.
  unfold bind at 1. unfold NewTicker.
  change (2 * Second <=? 0) with false. cbv iota.
  apply (for_select_rule (fun _ w' _ => extends_by sockets_balanced w w')
           (fun _ o => extends_by sockets_balanced w (final o)))
    with (k := 0%nat).
  - intros k w' tk H. exact H.
  - intros k w0 tk c tk' w1 HI Hsel.
    select_cases ctx tk env w0 Hsel.
    + exec. intros n. footprint HI.
    + exec. destruct_reply; exec; [| intros n]; footprint HI.
  - pose proof (extends_by_refl sockets_balanced w
                  ltac:(split; [constructor | reflexivity])) as HI.
    footprint HI.
Qed.

Ltac start_PingProbe w :=
  unfold bind at 1; cbv beta iota delta [slog];
  unfold bind at 1; unfold NewTicker;
  change (5 * Second <=? 0) with false; cbv iota.

Lemma Agnostic_Probe_footprint fuel p ctx env w :
  extends_by sockets_balanced w
    (final (Agnostic.probe.PingProbe_Probe fuel p ctx env w)).
Proof.
  unfold Agnostic.probe.PingProbe_Probe. start_PingProbe w.
  apply (for_select_rule (fun _ w' _ => extends_by sockets_balanced w w')
           (fun _ o => extends_by sockets_balanced w (final o)))
    with (k := 0%nat).
  - intros k w' tk H. exact H.
  - intros k w0 tk c tk' w1 HI Hsel.
    select_cases ctx tk env w0 Hsel.
    + exec. intros n. footprint HI.
    + unfold Agnostic.probe.attempt.
      destruct (String.eqb _ "tcp"); exec; destruct_reply; exec;
        try destruct_reply; exec; try (intros n); footprint HI.
  - pose proof (extends_by_refl sockets_balanced w
                  ltac:(split; [constructor | reflexivity])) as HI.
    footprint HI.
Qed.

Lemma Sidecar_Probe_footprint fuel q ctx env w :
  extends_by sockets_balanced w
    (final (Sidecar.probe.PingProbe_Probe fuel q ctx env w)).
Proof.
  unfold Sidecar.probe.PingProbe_Probe. start_PingProbe w.
  apply (for_select_rule (fun _ w' _ => extends_by sockets_balanced w w')
           (fun _ o => extends_by sockets_balanced w (final o)))
    with (k := 0%nat).
  - intros k w' tk H. exact H.
  - intros k w0 tk c tk' w1 HI Hsel.
    select_cases ctx tk env w0 Hsel.
    + exec. intros n. footprint HI.
    + unfold Sidecar.probe.attempt, Sidecar.probe.udp_exchange.
      destruct (String.eqb _ "tcp"); [| destruct (String.eqb _ "udp")];
        exec; try destruct_reply; exec;
        try destruct_reply; exec;
        try destruct_reply; exec;
        try match goal with
            | |- context [Contains ?a ?b] => destruct (Contains a b)
            end;
        exec; try (intros n); footprint HI.
  - pose proof (extends_by_refl sockets_balanced w
                  ltac:(split; [constructor | reflexivity])) as HI.
    footprint HI.
Qed.

(** With a transport that is neither "tcp" nor "udp", the loop of the
    checking [PingProbe.Probe] touches no socket and never succeeds. *)
Lemma Sidecar_Probe_unsupported fuel q ctx env w :
  ToLower (Sidecar.config.PingProtocol (Sidecar.probe.Config q)) <> "tcp" ->
  ToLower (Sidecar.config.PingProtocol (Sidecar.probe.Config q)) <> "udp" ->
  let o := Sidecar.probe.PingProbe_Probe fuel q ctx env w in
  extends_by no_socket_touched w (final o) /\
  match o with
  | Done None _ => False
  | _ => True
  end.
Proof.
  intros Htcp Hudp.
  apply String.eqb_neq in Htcp. apply String.eqb_neq in Hudp.
  unfold Sidecar.probe.PingProbe_Probe. start_PingProbe w.
  apply (for_select_rule
           (fun _ w' _ => extends_by no_socket_touched w w')
           (fun _ o => extends_by no_socket_touched w (final o) /\
                       match o with Done None _ => False | _ => True end))
    with (k := 0%nat).
  - intros k w' tk H. split; [exact H | exact I].
  - intros k w0 tk c tk' w1 HI Hsel.
    select_cases ctx tk env w0 Hsel.
    + exec. know_done ctx Hc. intros n. split; [footprint HI | exact I].
    + unfold Sidecar.probe.attempt. rewrite Htcp, Hudp. exec. footprint HI.
  - pose proof (extends_by_refl no_socket_touched w
                  ltac:(repeat split; constructor)) as HI.
    footprint HI.
Qed.

(** With the transport "tcp" (in any letter case) no data is exchanged. *)
Lemma Agnostic_Probe_tcp fuel p ctx env w :
  ToLower (Agnostic.config.Protocol (Agnostic.probe.Config p)) = "tcp" ->
  extends_by no_data_exchanged w
    (final (Agnostic.probe.PingProbe_Probe fuel p ctx env w)).
Proof.
  intros Htcp.
  unfold Agnostic.probe.PingProbe_Probe. start_PingProbe w.
  apply (for_select_rule (fun _ w' _ => extends_by no_data_exchanged w w')
           (fun _ o => extends_by no_data_exchanged w (final o)))
    with (k := 0%nat).
  - intros k w' tk H. exact H.
  - intros k w0 tk c tk' w1 HI Hsel.
    select_cases ctx tk env w0 Hsel.
    + exec. intros n. footprint HI.
    + unfold Agnostic.probe.attempt. rewrite Htcp.
      cbn [String.eqb Ascii.eqb Bool.eqb]. exec. destruct_reply; exec;
        try (intros n); footprint HI.
  - pose proof (extends_by_refl no_data_exchanged w
                  ltac:(repeat split; constructor)) as HI.
    footprint HI.
Qed.

Lemma Sidecar_Probe_tcp fuel q ctx env w :
  ToLower (Sidecar.config.PingProtocol (Sidecar.probe.Config q)) = "tcp" ->
  extends_by no_data_exchanged w
    (final (Sidecar.probe.PingProbe_Probe fuel q ctx env w)).
Proof.
  intros Htcp.
  unfold Sidecar.probe.PingProbe_Probe. start_PingProbe w.
  apply (for_select_rule (fun _ w' _ => extends_by no_data_exchanged w w')
           (fun _ o => extends_by no_data_exchanged w (final o)))
    with (k := 0%nat).
  - intros k w' tk H. exact H.
  - intros k w0 tk c tk' w1 HI Hsel.
    select_cases ctx tk env w0 Hsel.
    + exec. intros n. footprint HI.
    + unfold Sidecar.probe.attempt. rewrite Htcp.
      cbn [String.eqb Ascii.eqb Bool.eqb]. exec. destruct_reply; exec;
        try (intros n); footprint HI.
  - pose proof (extends_by_refl no_data_exchanged w
                  ltac:(repeat split; constructor)) as HI.
    footprint HI.
Qed.

Lemma Sidecar_heartbeat_footprint fuel ctx cfg sdk env w :
  extends_by only_heartbeat_actions w
    (final (Sidecar.agones.heartbeat fuel ctx cfg sdk env w)).
Proof.
  unfold Sidecar.agones.heartbeat.
  unfold bind at 1. unfold NewTicker.
  destruct (Sidecar.config.HealthInterval cfg <=? 0).
  { apply extends_by_refl. constructor. }
  apply (for_select_rule (fun _ w' _ => extends_by only_heartbeat_actions w w')
           (fun _ o => extends_by only_heartbeat_actions w (final o)))
    with (k := 0%nat).
  - intros k w' tk H. exact H.
  - intros k w0 tk c tk' w1 HI Hsel.
    select_cases ctx tk env w0 Hsel.
    + exec. intros n. footprint HI.
    + exec. destruct_reply; exec; footprint HI.
  - pose proof (extends_by_refl only_heartbeat_actions w ltac:(constructor))
      as HI.
    footprint HI.
Qed.

Lemma Agnostic_heartbeat_footprint fuel ctx cfg sdk env w :
  extends_by only_heartbeat_actions w
    (final (Agnostic.heartbeat fuel ctx cfg sdk env w)).
Proof.
  unfold Agnostic.heartbeat.
  unfold bind at 1. unfold NewTicker.
  destruct (Agnostic.config.HealthInterval cfg <=? 0).
  { apply extends_by_refl. constructor. }
  apply (for_select_rule (fun _ w' _ => extends_by only_heartbeat_actions w w')
           (fun _ o => extends_by only_heartbeat_actions w (final o)))
    with (k := 0%nat).
  - intros k w' tk H. exact H.
  - intros k w0 tk c tk' w1 HI Hsel.
    select_cases ctx tk env w0 Hsel.
    + exec. intros n. footprint HI.
    + exec. destruct_reply; exec; footprint HI.
  - pose proof (extends_by_refl only_heartbeat_actions w ltac:(constructor))
      as HI.
    footprint HI.
Qed.

(** ** The lifecycle, piece by piece *)

Lemma RunManager_eq fuel ctx cfg sdk env w :
  Sidecar.agones.RunManager fuel ctx cfg sdk env w =
  match Sidecar.agones.probeGameServer fuel ctx cfg env
          (RunManager_probing cfg env w) with
  | Done (Some e) w1 =>
      Done tt
        (emit w1
           (ELog LevelError
              "Readiness probe failed, game server will not be marked as Ready"
              (Some e)) 0)
  | Done None w1 =>
      match ready_reply env (calls w1) with
      | (d, Some e) =>
          Done tt
            (emit (emit w1 (EReady (Some e)) (Z.of_N d))
               (ELog LevelError "Failed to send Ready signal to Agones"
                  (Some e)) 0)
      | (d, None) =>
          Sidecar.agones.heartbeat fuel ctx cfg sdk env (ready_announced w1 d)
      end
  | Panicked msg w1 => Panicked msg w1
  | Exited c w1 => Exited c w1
  | Blocked w1 => Blocked w1
  | OutOfFuel w1 => OutOfFuel w1
  end.
Proof.
  unfold Sidecar.agones.RunManager, RunManager_probing, ready_announced.
  cbv beta iota delta [bind slog Sleep Ready final].
  destruct (Sidecar.agones.probeGameServer fuel ctx cfg env _)
    as [[e|] w1| | | |]; try reflexivity.
  destruct (ready_reply env (calls w1)) as [d [e|]]; reflexivity.
Qed.

Lemma runMonitor_eq {P} `{ReadinessProbe P} fuel (p : P) cfg env w :
  Agnostic.runMonitor fuel p cfg env w =
  match sdk_connect env with
  | Some e =>
      Done (Some (Errorf_w "could not connect to Agones SDK: " e)) w
  | None =>
      match Probe fuel p (mkContext (signal_at env)) env
              (runMonitor_probing cfg env w) with
      | Done (Some e) w1 =>
          Done (Some (Errorf_w "readiness probe failed: " e)) w1
      | Done None w1 =>
          match ready_reply env (calls w1) with
          | (d, Some e) =>
              Done (Some (Errorf_w "failed to send Ready signal: " e))
                   (emit w1 (EReady (Some e)) (Z.of_N d))
          | (d, None) =>
              Agnostic.heartbeat fuel (mkContext (signal_at env)) cfg sdk_conn
                env (ready_announced w1 d)
          end
      | Panicked msg w1 => Panicked msg w1
      | Exited c w1 => Exited c w1
      | Blocked w1 => Blocked w1
      | OutOfFuel w1 => OutOfFuel w1
      end
  end.
Proof.
  unfold Agnostic.runMonitor, runMonitor_probing, ready_announced.
  cbv beta iota delta [bind slog Sleep Ready final NotifyContext NewSDK ret].
  destruct (sdk_connect env) as [e0|]; [reflexivity |].
  destruct (Probe fuel p _ env _) as [[e|] w1| | | |]; try reflexivity.
  destruct (ready_reply env (calls w1)) as [d [e|]]; reflexivity.
Qed.

Lemma ready_announced_just w d : just_announced (ready_announced w d).
Proof.
  exists (trace w), (now w), (now w + Z.of_N d). unfold ready_announced.
  cbn [emit trace now]. rewrite <- app_assoc. reflexivity.
Qed.

Lemma probe_actions_no_signal d :
  Forall (fun x => is_probe_action (snd x) = true) d ->
  count_if is_ready d = 0%nat /\ count_if is_health d = 0%nat.
Proof.
  intros H. split; apply count_if_none; eapply Forall_impl; [| exact H | | exact H];
    intros [t e]; cbn [snd]; destruct e; cbn; congruence.
Qed.

Lemma heartbeat_actions_no_ready d :
  only_heartbeat_actions d -> count_if is_ready d = 0%nat.
Proof.
  intros H. apply count_if_none. eapply Forall_impl; [| exact H].
  intros [t e]; cbn [snd]; destruct e; cbn; congruence.
Qed.

Lemma RunManager_outcome fuel ctx cfg sdk env w :
  manager_outcome (Sidecar.config.HealthInterval cfg) w
    (Sidecar.agones.RunManager fuel ctx cfg sdk env w).
Proof.
  rewrite RunManager_eq.
  pose proof (probeGameServer_outcome fuel ctx cfg env
                (RunManager_probing cfg env w)) as Hp.
  destruct (Sidecar.agones.probeGameServer fuel ctx cfg env _)
    as [[e|] w1| | | |]; cbn in Hp |- *; try exact I; try contradiction.
  destruct (ready_reply env (calls w1)) as [d [e|]]; [exact I |].
  pose proof (Sidecar_heartbeat_outcome fuel ctx cfg sdk env
                (ready_announced w1 d)) as Hh.
  destruct (Sidecar.agones.heartbeat fuel ctx cfg sdk env _)
    as [a w2| | | |]; cbn in Hh |- *; try exact I; try contradiction.
  destruct Hh as [Hhi ->]. split; [exact Hhi | apply ready_announced_just].
Qed.

Lemma Agnostic_heartbeat_nil fuel ctx cfg sdk env w :
  match Agnostic.heartbeat fuel ctx cfg sdk env w with
  | Done (Some _) _ => False
  | _ => True
  end.
Proof.
  unfold Agnostic.heartbeat.
  unfold bind at 1. unfold NewTicker.
  destruct (Agnostic.config.HealthInterval cfg <=? 0); [exact I |].
  apply (for_select_rule (fun _ _ _ => True)
           (fun _ o => match o with Done (Some _) _ => False | _ => True end))
    with (k := 0%nat); [intros; exact I | | exact I].
  intros k w0 tk c tk' w1 _ Hsel. destruct c.
  - exec. intros n. exact I.
  - exec. destruct_reply; exec; exact I.
Qed.

Lemma runMonitor_outcome fuel (p : Agnostic.probe.PingProbe) cfg env w :
  sdk_connect env = None ->
  monitor_outcome (mkContext (signal_at env))
    (Agnostic.config.HealthInterval cfg) w
    (Agnostic.runMonitor fuel p cfg env w).
Proof.
  intros Hsdk. rewrite runMonitor_eq, Hsdk.
  set (ctx := mkContext (signal_at env)).
  change (Probe fuel p ctx env (runMonitor_probing cfg env w))
    with (Agnostic.probe.PingProbe_Probe fuel p ctx env
            (runMonitor_probing cfg env w)).
  pose proof (Agnostic_Probe_outcome fuel p ctx env
                (runMonitor_probing cfg env w)) as Hp.
  pose proof (Agnostic_Probe_footprint fuel p ctx env
                (runMonitor_probing cfg env w)) as (dp & Hdp & Hbal).
  destruct (Agnostic.probe.PingProbe_Probe fuel p ctx env _)
    as [[e|] w1| | | |]; cbn in Hp, Hdp |- *; try exact I; try contradiction.
  - (* the probe was cancelled *)
    destruct Hp as (-> & Hdone & _). left. split; [reflexivity |].
    split; [exact Hdone |].
    rewrite Hdp. destruct Hbal as [Hact _].
    apply probe_actions_no_signal in Hact as [Hr _].
    rewrite count_if_app, Hr. unfold runMonitor_probing.
    cbv beta iota delta [bind slog Sleep final emit]. cbn [trace].
    rewrite !count_if_snoc. cbn. lia.
  - destruct (ready_reply env (calls w1)) as [d [e|]].
    + (* the ready signal failed *)
      right. exists e, (trace w1), (now w1). split; reflexivity.
    + pose proof (Agnostic_heartbeat_outcome fuel ctx cfg sdk_conn env
                    (ready_announced w1 d)) as Hh.
      pose proof (Agnostic_heartbeat_footprint fuel ctx cfg sdk_conn env
                    (ready_announced w1 d)) as (dh & Hdh & _).
      destruct (Agnostic.heartbeat fuel ctx cfg sdk_conn env _)
        as [[a|] w2| | | |] eqn:Eh; cbn in Hh, Hdh |- *;
        try exact I; try contradiction.
      * (* heartbeat returns an error: it never does *)
        pose proof (Agnostic_heartbeat_nil fuel ctx cfg sdk_conn env
                      (ready_announced w1 d)) as Hnil.
        rewrite Eh in Hnil. destruct Hnil.
      * destruct Hh as [Hdone _]. split; [exact Hdone |].
        exists (now w1). rewrite Hdh. apply in_or_app. left.
        unfold ready_announced. cbn [emit trace now].
        apply in_or_app. left. apply in_or_app. right. left. reflexivity.
      * destruct Hh as [Hhi ->]. split; [exact Hhi |].
        apply ready_announced_just.
Qed.

(** ** How the processes end *)

(** The unified entry point: with the SDK connection refused, two log lines
    and [os.Exit(1)]; else the outcome of the manager, then [<-ctx.Done()]. *)
Lemma Sidecar_main_outcome fuel cfg env w :
  match sdk_connect env with
  | Some e =>
      Sidecar.main fuel cfg env w =
      Exited 1
        (emit (emit (emit w (ELog LevelInfo "Starting Unified Agones Sidecar"
                               None) 0)
                    (ELog LevelError "Could not connect to Agones SDK"
                       (Some e)) 0)
              (EExit 1) 0)
  | None =>
      match Sidecar.main fuel cfg env w with
      | Done _ w' => exists c, signal_at env = Some c /\ c <= now w'
      | Blocked _ => signal_at env = None
      | Panicked _ w' =>
          Sidecar.config.HealthInterval cfg <= 0 /\ just_announced w'
      | Exited _ _ => False
      | OutOfFuel _ => True
      end
  end.
Proof.
  destruct (sdk_connect env) as [e|] eqn:Hsdk.
  { unfold Sidecar.main.
    cbv beta iota delta [bind slog NotifyContext NewSDK os_Exit].
    rewrite Hsdk. reflexivity. }
  unfold Sidecar.main.
  cbv beta iota delta [bind slog NotifyContext NewSDK go]. rewrite Hsdk.
  match goal with
  | |- context [Sidecar.agones.RunManager fuel ?ctx cfg ?sdk env ?w1] =>
      pose proof (RunManager_outcome fuel ctx cfg sdk env w1) as Hm;
      destruct (Sidecar.agones.RunManager fuel ctx cfg sdk env w1)
        as [[] w'| | | |]
  end; cbn in Hm |- *; try exact I; try contradiction; try exact Hm.
  cbv beta iota delta [recv_Done]. cbn [done_at].
  destruct (signal_at env) as [c|]; [| reflexivity].
  exists c. split; [reflexivity |]. cbn [emit now]. lia.
Qed.

(** [main.go]: with the SDK connection refused, the error is logged and the
    process exits; else the outcome of [runMonitor] decides. *)
Lemma Agnostic_main_outcome fuel cfg env w :
  let w1 := emit w (ELog LevelInfo "Starting Agnostic Agones Sidecar" None) 0 in
  match sdk_connect env with
  | Some e =>
      Agnostic.main fuel cfg env w =
      Exited 1
        (emit (emit w1
                 (ELog LevelError "Monitor failed"
                    (Some (Errorf_w "could not connect to Agones SDK: " e))) 0)
              (EExit 1) 0)
  | None =>
      match Agnostic.main fuel cfg env w with
      | Done _ w' =>
          (exists c, signal_at env = Some c /\ c <= now w') /\
          exists t, In (t, EReady None) (trace w')
      | Exited c w' =>
          c = 1 /\
          ((ctx_done (mkContext (signal_at env)) (now w') = true /\
            count_if is_ready (trace w') = count_if is_ready (trace w)) \/
           (exists e' pre t t' t'',
               trace w' =
               pre ++ [(t, EReady (Some e'));
                       (t', ELog LevelError "Monitor failed"
                              (Some (Errorf_w "failed to send Ready signal: "
                                       e')));
                       (t'', EExit 1)]))
      | Panicked _ w' =>
          Agnostic.config.HealthInterval cfg <= 0 /\ just_announced w'
      | Blocked _ => False
      | OutOfFuel _ => True
      end
  end.
Proof.
  intros w1.
  pose proof (Agnostic_main_run fuel cfg env w) as Hrun. cbv zeta in Hrun.
  fold w1 in Hrun.
  destruct (sdk_connect env) as [e|] eqn:Hsdk.
  { rewrite runMonitor_eq, Hsdk in Hrun. exact Hrun. }
  pose proof (runMonitor_outcome fuel
                (Agnostic.probe.mkPingProbe (Agnostic.config.Ping cfg))
                cfg env w1 Hsdk) as Hm.
  destruct (Agnostic.runMonitor fuel _ cfg env w1) as [[e|] w'| | | |];
    rewrite Hrun; cbv beta iota delta [monitor_outcome] in Hm; cbv beta iota;
    try exact I; try contradiction; try exact Hm.
  - split; [reflexivity |].
    destruct Hm as [(-> & Hdone & Hcount) | (e' & pre & t & -> & Htr)].
    + left. cbn [emit now trace]. rewrite !Z.add_0_r.
      split; [exact Hdone |].
      rewrite !count_if_snoc, Hcount. unfold w1. cbn [emit trace].
      rewrite count_if_snoc. cbn [is_ready]. lia.
    + right. exists e', pre, t. do 2 eexists. cbn [emit trace]. rewrite Htr.
      rewrite <- !app_assoc. cbn [app]. reflexivity.
  - destruct Hm as [Hdone (t & Hin)]. cbn [emit now trace]. split.
    + unfold ctx_done in Hdone. cbn [done_at] in Hdone.
      destruct (signal_at env) as [c|]; [| discriminate].
      exists c. split; [reflexivity |]. apply Z.leb_le in Hdone. lia.
    + exists t. apply in_or_app. left. exact Hin.
Qed.

Lemma probe_actions_no_ready_ok d :
  Forall (fun x => is_probe_action (snd x) = true) d ->
  count_if is_ready_ok d = 0%nat.
Proof.
  intros H. apply count_if_none. eapply Forall_impl; [| exact H].
  intros [t e]; cbn [snd]; destruct e; cbn; congruence.
Qed.

Lemma RunManager_without_interval fuel ctx cfg sdk env w :
  Sidecar.config.HealthInterval cfg <= 0 ->
  crashes_once_ready w (Sidecar.agones.RunManager fuel ctx cfg sdk env w).
Proof.
  intros Hhi. rewrite RunManager_eq.
  pose proof (probeGameServer_outcome fuel ctx cfg env
                (RunManager_probing cfg env w)) as Hp.
  pose proof (probeGameServer_footprint fuel ctx cfg env
                (RunManager_probing cfg env w)) as (dp & Hdp & Hact & _).
  pose proof (probe_actions_no_signal _ Hact) as [_ Hh].
  pose proof (probe_actions_no_ready_ok _ Hact) as Hr.
  assert (Hstart : forall P, P (ESleep (Sidecar.config.InitialDelay cfg)) = false ->
             (forall l m e, P (ELog l m e) = false) ->
             count_if P (trace (RunManager_probing cfg env w)) =
             count_if P (trace w)).
  { intros P HS HL. unfold RunManager_probing.
    cbv beta iota delta [bind slog Sleep final emit]. cbn [trace].
    rewrite !count_if_snoc, HS, !HL. lia. }
  assert (Hh0 := Hstart is_health eq_refl (fun _ _ _ => eq_refl)).
  assert (Hr0 := Hstart is_ready_ok eq_refl (fun _ _ _ => eq_refl)).
  unfold crashes_once_ready, history.
  destruct (Sidecar.agones.probeGameServer fuel ctx cfg env _)
    as [[e|] w1| | | |]; cbn [final] in Hdp |- *;
    try (cbv beta iota delta [probe_outcome] in Hp; contradiction).
  - cbn [emit trace]. rewrite !count_if_snoc, Hdp, !count_if_app.
    cbn [is_health is_ready_ok]. lia.
  - destruct (ready_reply env (calls w1)) as [d [e|]].
    + cbn [final emit trace]. rewrite !count_if_snoc, Hdp, !count_if_app.
      cbn [is_health is_ready_ok]. lia.
    + unfold Sidecar.agones.heartbeat. unfold bind at 1. unfold NewTicker.
      apply Z.leb_le in Hhi. rewrite Hhi. cbn [final].
      split; [| apply ready_announced_just].
      unfold ready_announced. cbn [emit trace].
      rewrite !count_if_snoc, Hdp, !count_if_app. cbn [is_health]. lia.
  - rewrite Hdp, !count_if_app. lia.
Qed.

Lemma runMonitor_without_interval fuel (p : Agnostic.probe.PingProbe) cfg
    env w :
  Agnostic.config.HealthInterval cfg <= 0 ->
  crashes_once_ready w (Agnostic.runMonitor fuel p cfg env w).
Proof.
  intros Hhi. rewrite runMonitor_eq.
  unfold crashes_once_ready, history.
  destruct (sdk_connect env) as [e0|]; [split; reflexivity |].
  set (ctx := mkContext (signal_at env)).
  change (Probe fuel p ctx env (runMonitor_probing cfg env w))
    with (Agnostic.probe.PingProbe_Probe fuel p ctx env
            (runMonitor_probing cfg env w)).
  pose proof (Agnostic_Probe_outcome fuel p ctx env
                (runMonitor_probing cfg env w)) as Hp.
  pose proof (Agnostic_Probe_footprint fuel p ctx env
                (runMonitor_probing cfg env w)) as (dp & Hdp & Hact & _).
  pose proof (probe_actions_no_signal _ Hact) as [_ Hh].
  pose proof (probe_actions_no_ready_ok _ Hact) as Hr.
  assert (Hstart : forall P, P (ESleep (Agnostic.config.InitialDelay cfg)) = false ->
             (forall l m e, P (ELog l m e) = false) ->
             count_if P (trace (runMonitor_probing cfg env w)) =
             count_if P (trace w)).
  { intros P HS HL. unfold runMonitor_probing.
    cbv beta iota delta [bind slog Sleep final emit]. cbn [trace].
    rewrite !count_if_snoc, HS, !HL. lia. }
  assert (Hh0 := Hstart is_health eq_refl (fun _ _ _ => eq_refl)).
  assert (Hr0 := Hstart is_ready_ok eq_refl (fun _ _ _ => eq_refl)).
  destruct (Agnostic.probe.PingProbe_Probe fuel p ctx env _)
    as [[e|] w1| | | |]; cbn [final] in Hdp |- *;
    try (cbv beta iota delta [probe_outcome] in Hp; contradiction).
  - rewrite Hdp, !count_if_app. lia.
  - destruct (ready_reply env (calls w1)) as [d [e|]].
    + cbn [final emit trace]. rewrite !count_if_snoc, Hdp, !count_if_app.
      cbn [is_health is_ready_ok]. lia.
    + unfold Agnostic.heartbeat. unfold bind at 1. unfold NewTicker.
      apply Z.leb_le in Hhi. rewrite Hhi. cbn [final].
      split; [| apply ready_announced_just].
      unfold ready_announced. cbn [emit trace].
      rewrite !count_if_snoc, Hdp, !count_if_app. cbn [is_health]. lia.
  - rewrite Hdp, !count_if_app. lia.
Qed.

(** ** Configuration from the environment *)

Lemma getEnvDuration_sign PD (LE : Environ) key fallback :
  0 < fallback ->
  0 < SidecarConfig.getEnvDuration PD LE key fallback \/
  set_nonpositive PD LE key.
Proof.
  intros Hf. unfold SidecarConfig.getEnvDuration, set_nonpositive.
  destruct (LE key) as [value|]; [| left; exact Hf].
  destruct (PD value) as [d|] eqn:Hd; [| left; exact Hf].
  destruct (Z_lt_le_dec 0 d) as [Hpos | Hneg]; [left; exact Hpos |].
  right. exists value, d. auto.
Qed.

(** What [getEnvDurationOr] returns is what [getEnvDuration] returns for
    the prefixed variable; it also warns when the value does not parse. *)
Lemma getEnvDurationOr_eq PD (LE : Environ) key fallback env w :
  AgnosticConfig.getEnvDurationOr PD LE key fallback env w =
  Done (SidecarConfig.getEnvDuration PD LE ("AGNOSTIC_SIDECAR_" ++ key)
          fallback)
       (if unparsable PD LE ("AGNOSTIC_SIDECAR_" ++ key)
        then emit w (ELog LevelWarn
                       "Invalid duration format in environment variable, using default"
                       None) 0
        else w).
Proof.
  unfold AgnosticConfig.getEnvDurationOr, SidecarConfig.getEnvDuration,
    unparsable.
  destruct (LE _) as [value|]; [| reflexivity].
  destruct (PD value); reflexivity.
Qed.

Lemma warned_trace (b : bool) w e :
  trace (if b then emit w e 0 else w) =
  trace w ++ (if b then [(now w, e)] else []).
Proof. destruct b; cbn [emit trace]; [reflexivity | now rewrite app_nil_r]. Qed.

Lemma warned_now (b : bool) w e : now (if b then emit w e 0 else w) = now w.
Proof. destruct b; cbn [emit now]; lia. Qed.

(** ** The file API *)

(** *** The counts *)

Lemma get_delete_same m k : api.get (api.delete m k) k = 0.
Proof.
  induction m as [|[k' v] m IH]; cbn; [reflexivity |].
  destruct (String.eqb k' k) eqn:E; [exact IH |].
  cbn. rewrite E. exact IH.
Qed.

Lemma get_delete_other m k k' :
  k <> k' -> api.get (api.delete m k) k' = api.get m k'.
Proof.
  intros Hne. induction m as [|[k0 v] m IH]; cbn; [reflexivity |].
  destruct (String.eqb k0 k) eqn:E.
  - apply String.eqb_eq in E. subst k0.
    apply String.eqb_neq in Hne. rewrite Hne. exact IH.
  - cbn. rewrite IH. reflexivity.
Qed.

Lemma get_set_same m k v : api.get (api.set m k v) k = v.
Proof. unfold api.set. cbn. now rewrite String.eqb_refl. Qed.

Lemma get_set_other m k k' v :
  k <> k' -> api.get (api.set m k v) k' = api.get m k'.
Proof.
  intros Hne. unfold api.set. cbn.
  apply String.eqb_neq in Hne. rewrite Hne.
  apply get_delete_other. now apply String.eqb_neq.
Qed.

Lemma int_add_small c :
  api.int_min <= c + 1 <= api.int_max -> api.int_add c 1 = c + 1.
Proof.
  unfold api.int_min, api.int_max, api.int_add. intros H.
  rewrite Z.mod_small; lia.
Qed.

(** *** The rate limiter *)

Lemma serve_count s rs k :
  0 <= api.get (api.requestCounts s) k ->
  api.get (api.requestCounts s) k
    + Z.of_nat (List.length (filter (api.counted k) rs)) <= api.int_max ->
  api.get (api.requestCounts (fst (api.serve s rs))) k =
    api.get (api.requestCounts s) k
    + Z.of_nat (List.length (filter (api.counted k) rs)) /\
  api.rateLimit (fst (api.serve s rs)) = api.rateLimit s.
Proof.
  revert s. induction rs as [|r rs IH]; intros s H0 Hmax.
  - cbn. split; [lia | reflexivity].
  - cbn [api.serve filter] in *. unfold api.rateLimitRequest, api.counted in *.
    destruct (String.eqb (api.URL_Path r) "/health") eqn:Eh.
    + cbn [negb andb] in *.
      destruct (api.serve s rs) as [s2 vs] eqn:Es. cbn [fst].
      specialize (IH s H0 Hmax). rewrite Es in IH. exact IH.
    + cbn [negb andb] in *.
      set (s1 := api.with_counts s _).
      destruct (api.serve s1 rs) as [s2 vs] eqn:Es. cbn [fst].
      destruct (String.eqb (api.clientIP r) k) eqn:Ek.
      * apply String.eqb_eq in Ek. cbn [List.length] in Hmax |- *.
        assert (H1 : api.get (api.requestCounts s1) k =
                     api.get (api.requestCounts s) k + 1).
        { unfold s1. cbn [api.with_counts api.requestCounts]. rewrite Ek.
          rewrite get_set_same. apply int_add_small.
          unfold api.int_min, api.int_max in *. lia. }
        specialize (IH s1). rewrite Es in IH. cbn [fst] in IH.
        rewrite H1 in IH. destruct IH as [IH1 IH2]; [lia | lia |].
        split; [lia | exact IH2].
      * apply String.eqb_neq in Ek.
        assert (H1 : api.get (api.requestCounts s1) k =
                     api.get (api.requestCounts s) k).
        { unfold s1. cbn [api.with_counts api.requestCounts].
          apply get_set_other. exact Ek. }
        specialize (IH s1). rewrite Es in IH. cbn [fst] in IH.
        rewrite H1 in IH. destruct IH as [IH1 IH2]; [lia | lia |].
        split; [lia | exact IH2].
Qed.

Lemma NewServer_rateLimit Join Atoi Getenv la root f :
  0 < api.rateLimit (api.NewServer Join Atoi Getenv la root f).
Proof.
  unfold api.NewServer. cbn [api.rateLimit].
  destruct (negb _); [| reflexivity].
  destruct (Atoi _) as [val|]; [| reflexivity].
  destruct (0 <? val) eqn:E; [now apply Z.ltb_lt | reflexivity].
Qed.

Lemma serve_fresh_keys s rs :
  0 < api.rateLimit s ->
  NoDup (map api.clientIP rs) ->
  (forall r, In r rs -> api.get (api.requestCounts s) (api.clientIP r) = 0) ->
  snd (api.serve s rs) = map (fun _ => true) rs.
Proof.
  revert s. induction rs as [|r rs IH]; intros s Hlim Hnd Hfresh;
    [reflexivity |].
  cbn [map] in Hnd. apply NoDup_cons_iff in Hnd as [Hnotin Hnd].
  cbn [api.serve map]. unfold api.rateLimitRequest.
  destruct (String.eqb (api.URL_Path r) "/health").
  - specialize (IH s Hlim Hnd (fun r' H => Hfresh r' (or_intror H))).
    destruct (api.serve s rs) as [s2 vs]. cbn [snd] in *. now rewrite IH.
  - rewrite (Hfresh r (or_introl eq_refl)).
    set (s1 := api.with_counts s _).
    assert (IH1 : snd (api.serve s1 rs) = map (fun _ => true) rs).
    { apply IH; [exact Hlim | exact Hnd |].
      intros r' Hin. unfold s1. cbn [api.with_counts api.requestCounts].
      rewrite get_set_other; [apply Hfresh; now right |].
      intros Heq. apply Hnotin. rewrite Heq. now apply in_map. }
    destruct (api.serve s1 rs) as [s2 vs]. cbn [snd] in *. rewrite IH1.
    f_equal. apply Z.leb_gt in Hlim. now rewrite Hlim.
Qed.

(** *** The reset goroutines *)

Lemma In_keys_delete m k k' :
  In k' (api.keys (api.delete m k)) <-> In k' (api.keys m) /\ k' <> k.
Proof.
  induction m as [|[k0 v] m IH]; cbn; [tauto |].
  destruct (String.eqb k0 k) eqn:E.
  - apply String.eqb_eq in E. subst k0. rewrite IH. intuition congruence.
  - apply String.eqb_neq in E. cbn. rewrite IH. intuition congruence.
Qed.

Lemma NoDup_keys_delete m k :
  NoDup (api.keys m) -> NoDup (api.keys (api.delete m k)).
Proof.
  induction m as [|[k0 v] m IH]; cbn; intros H; [constructor |].
  apply NoDup_cons_iff in H as [Hnotin H].
  destruct (String.eqb k0 k); [now apply IH |].
  cbn. constructor; [| now apply IH].
  rewrite In_keys_delete. tauto.
Qed.

Lemma In_keys_set m k v k' :
  In k' (api.keys (api.set m k v)) <-> k' = k \/ In k' (api.keys m).
Proof.
  unfold api.set.
  change (api.keys ((k, v) :: api.delete m k))
    with (k :: api.keys (api.delete m k)).
  cbn [In]. rewrite In_keys_delete.
  destruct (string_dec k' k); intuition congruence.
Qed.

Lemma NoDup_keys_set m k v :
  NoDup (api.keys m) -> NoDup (api.keys (api.set m k v)).
Proof.
  intros H. unfold api.set.
  change (api.keys ((k, v) :: api.delete m k))
    with (k :: api.keys (api.delete m k)).
  constructor; [rewrite In_keys_delete; tauto | now apply NoDup_keys_delete].
Qed.

Lemma In_remove_one k l k' :
  NoDup l -> In k' (api.remove_one k l) <-> In k' l /\ k' <> k.
Proof.
  induction l as [|k0 l IH]; cbn; intros H; [tauto |].
  apply NoDup_cons_iff in H as [Hnotin H].
  destruct (String.eqb k0 k) eqn:E.
  - apply String.eqb_eq in E. subst k0. intuition congruence.
  - apply String.eqb_neq in E. cbn. rewrite (IH H). intuition congruence.
Qed.

Lemma NoDup_remove_one k l : NoDup l -> NoDup (api.remove_one k l).
Proof.
  induction l as [|k0 l IH]; cbn; intros H; [constructor |].
  pose proof H as H'. apply NoDup_cons_iff in H as [Hnotin H].
  destruct (String.eqb k0 k); [exact H |].
  constructor; [| now apply IH].
  rewrite (In_remove_one _ _ _ H). tauto.
Qed.

Lemma limiter_step b st a st' v :
  0 <= b < api.int_max ->
  limiter_inv b st ->
  api.step st a = Some (st', v) ->
  limiter_inv (b + 1) st' /\
  api.rateLimit (fst st') = api.rateLimit (fst st) /\
  List.length v = arrivals [a].
Proof.
  intros Hb (Hp & Hk & Hpk & Hkz & Hbound) Hstep.
  destruct st as [s pending]. cbn [fst snd] in *.
  destruct a as [r | k]; cbn [api.step] in Hstep.
  - unfold api.rateLimitRequest in Hstep.
    destruct (String.eqb (api.URL_Path r) "/health").
    + injection Hstep as <- <-. rewrite app_nil_r.
      split; [| split; reflexivity].
      repeat split; cbn [fst snd]; try assumption; try apply Hpk;
        try apply Hkz; specialize (Hbound k); lia.
    + injection Hstep as <- <-. split; [| split; reflexivity].
      set (k := api.clientIP r) in *.
      set (m := api.requestCounts s) in *.
      assert (Hc : api.int_add (api.get m k) 1 = api.get m k + 1).
      { apply int_add_small. specialize (Hbound k).
        unfold api.int_min, api.int_max in *. lia. }
      unfold limiter_inv. cbn [fst snd api.with_counts api.requestCounts].
      fold m. rewrite Hc.
      assert (Hkeys : forall k', In k' (api.keys (api.set m k (api.get m k + 1)))
                                 <-> k' = k \/ In k' (api.keys m)).
      { intros k'. apply In_keys_set. }
      assert (Hget : forall k', api.get (api.set m k (api.get m k + 1)) k' =
                                if String.eqb k k' then api.get m k + 1
                                else api.get m k').
      { intros k'. destruct (String.eqb k k') eqn:E.
        - apply String.eqb_eq in E. subst k'. apply get_set_same.
        - apply String.eqb_neq in E. now apply get_set_other. }
      assert (Hpend : forall k', In k' (pending ++
                        (if api.get m k =? 0 then [k] else []))
                                 <-> k' = k \/ In k' pending).
      { intros k'. rewrite in_app_iff.
        destruct (api.get m k =? 0) eqn:E0; cbn [In].
        - intuition congruence.
        - apply Z.eqb_neq in E0. apply Hkz, Hpk in E0.
          intuition congruence. }
      split; [| split; [| split; [| split]]].
      * destruct (api.get m k =? 0) eqn:E0.
        -- apply NoDup_app; [exact Hp | repeat constructor; intros [] |].
           intros k' Hin [<- | []].
           apply Z.eqb_eq in E0. apply Hpk, Hkz in Hin. contradiction.
        -- rewrite app_nil_r. exact Hp.
      * now apply NoDup_keys_set.
      * intros k'. rewrite Hpend, Hkeys, Hpk. tauto.
      * intros k'. rewrite Hkeys, Hget.
        destruct (String.eqb k k') eqn:E.
        -- apply String.eqb_eq in E. subst k'.
           specialize (Hbound k). intuition lia.
        -- apply String.eqb_neq in E. rewrite Hkz. intuition congruence.
      * intros k'. rewrite Hget. pose proof (Hbound k). pose proof (Hbound k').
        destruct (String.eqb k k'); lia.
  - destruct (existsb (String.eqb k) pending); [| discriminate].
    injection Hstep as <- <-. split; [| split; reflexivity].
    unfold limiter_inv, api.reset.
    cbn [fst snd api.with_counts api.requestCounts].
    split; [now apply NoDup_remove_one |].
    split; [now apply NoDup_keys_delete |].
    split; [| split].
    + intros k'. rewrite (In_remove_one _ _ _ Hp), In_keys_delete, Hpk. tauto.
    + intros k'. rewrite In_keys_delete.
      destruct (string_dec k' k) as [-> | Hne].
      * rewrite get_delete_same. intuition congruence.
      * rewrite get_delete_other by congruence. rewrite Hkz. tauto.
    + intros k'. destruct (string_dec k' k) as [-> | Hne].
      * rewrite get_delete_same. lia.
      * rewrite get_delete_other by congruence. specialize (Hbound k'). lia.
Qed.

Lemma limiter_inv_weaken b b' st : b <= b' -> limiter_inv b st -> limiter_inv b' st.
Proof.
  intros Hle (H1 & H2 & H3 & H4 & H5). repeat split; try assumption;
    try apply H3; try apply H4; specialize (H5 k); lia.
Qed.

Lemma limiter_run l : forall b st st' vs,
  0 <= b ->
  b + Z.of_nat (List.length l) <= api.int_max ->
  limiter_inv b st ->
  api.run st l = Some (st', vs) ->
  limiter_inv (b + Z.of_nat (List.length l)) st' /\
  api.rateLimit (fst st') = api.rateLimit (fst st) /\
  List.length vs = arrivals l.
Proof.
  induction l as [|a l IH]; intros b st st' vs Hb Hmax Hinv Hrun.
  - injection Hrun as <- <-. cbn. rewrite Z.add_0_r. auto.
  - cbn [api.run] in Hrun. cbn [List.length] in Hmax.
    destruct (api.step st a) as [[st1 v]|] eqn:Hstep; [| discriminate].
    destruct (api.run st1 l) as [[st2 vs2]|] eqn:Hrun1; [| discriminate].
    injection Hrun as <- <-.
    destruct (limiter_step b st a st1 v) as (Hinv1 & Hlim1 & Hv);
      [lia | exact Hinv | exact Hstep |].
    destruct (IH (b + 1) st1 st2 vs2) as (Hinv2 & Hlim2 & Hvs);
      [lia | lia | exact Hinv1 | exact Hrun1 |].
    split; [| split].
    + cbn [List.length]. replace (b + Z.of_nat (S (List.length l)))
        with (b + 1 + Z.of_nat (List.length l)) by lia. exact Hinv2.
    + congruence.
    + rewrite List.length_app, Hv, Hvs. unfold arrivals. cbn [filter].
      destruct a; cbn [List.length]; lia.
Qed.

(** *** The handlers *)

Lemma prefix_trans a : forall b c,
  String.prefix a b = true -> String.prefix b c = true ->
  String.prefix a c = true.
Proof.
  induction a as [|x a IH]; intros b c Hab Hbc; [now destruct c |].
  destruct b as [|y b]; [discriminate |].
  destruct c as [|z c]; [discriminate |].
  cbn in *.
  destruct (ascii_dec x y) as [-> |]; [| discriminate].
  destruct (ascii_dec y z) as [-> |]; [| discriminate].
  destruct (ascii_dec z z); [| congruence].
  now apply (IH b c).
Qed.

Lemma sanitizePath_inl Join s userPath fullPath :
  api.sanitizePath Join s userPath = inl fullPath ->
  fullPath = Join (api.dataRoot s) userPath /\
  String.prefix (api.dataRoot s) fullPath = true.
Proof.
  unfold api.sanitizePath.
  destruct (String.prefix _ _) eqn:E; cbn [negb]; [| discriminate].
  intros H. injection H as <-. auto.
Qed.

Ltac under_root_solve :=
  repeat match goal with
    | |- Forall _ [] => constructor
    | |- Forall _ (_ :: _) => constructor; [cbn [api.op_path]; try assumption |]
    end.

Lemma listFilesHandler_under_root Join s fs r :
  under_root s (fst (api.listFilesHandler Join s fs r)).
Proof.
  unfold api.listFilesHandler, under_root.
  destruct (api.sanitizePath Join s _) as [full | err] eqn:E; [| constructor].
  apply sanitizePath_inl in E as [_ Hpre].
  destruct (api.ReadDir fs full); cbn [fst]; under_root_solve.
Qed.

Lemma downloadFileHandler_under_root Join s fs r :
  under_root s (fst (api.downloadFileHandler Join s fs r)).
Proof.
  unfold api.downloadFileHandler, under_root.
  destruct (api.sanitizePath Join s _) as [full | err] eqn:E; [| constructor].
  apply sanitizePath_inl in E as [_ Hpre].
  destruct (api.Stat fs full) as [| |[|]]; cbn [fst]; under_root_solve.
Qed.

Lemma uploadFileHandler_under_root Join s fs r :
  under_root s (fst (api.uploadFileHandler Join s fs r)).
Proof.
  unfold api.uploadFileHandler, under_root.
  destruct (api.sanitizePath Join s _) as [full | err] eqn:E; [| constructor].
  apply sanitizePath_inl in E as [_ Hpre].
  destruct (api.Stat fs full) as [| |[|]]; cbn [fst]; under_root_solve.
  destruct (api.FormFile r) as [filename | err]; cbn [fst]; under_root_solve.
  destruct (api.dangerous _); cbn [fst]; under_root_solve.
  destruct (String.prefix full (Join full filename)) eqn:Ed; cbn [negb fst];
    under_root_solve.
  pose proof (prefix_trans _ _ _ Hpre Ed) as Hdest.
  destruct (_ && _); cbn [fst]; under_root_solve.
  destruct (api.OpenFile fs _); cbn [negb fst]; under_root_solve.
  destruct (api.Copy fs _); cbn [negb fst]; under_root_solve.
Qed.

Lemma deleteFileHandler_under_root Join s fs r :
  under_root s (fst (api.deleteFileHandler Join s fs r)) /\
  ~ In (api.OpRemoveAll (api.dataRoot s))
       (fst (api.deleteFileHandler Join s fs r)).
Proof.
  unfold api.deleteFileHandler, under_root.
  destruct (api.Payload r) as [path|]; [| split; [constructor | intros []]].
  destruct (api.sanitizePath Join s _) as [full | err] eqn:E;
    [| split; [constructor | intros []]].
  apply sanitizePath_inl in E as [_ Hpre].
  destruct (String.eqb full (api.dataRoot s)) eqn:Eroot;
    [split; [constructor | intros []] |].
  apply String.eqb_neq in Eroot.
  destruct (api.RemoveAll fs full); cbn [negb fst]; split;
    under_root_solve; intros [H | []]; congruence.
Qed.

Lemma createDirHandler_under_root Join s fs r :
  under_root s (fst (api.createDirHandler Join s fs r)).
Proof.
  unfold api.createDirHandler, under_root.
  destruct (api.Payload r) as [path|]; [| constructor].
  destruct (api.sanitizePath Join s _) as [full | err] eqn:E; [| constructor].
  apply sanitizePath_inl in E as [_ Hpre].
  destruct (api.MkdirAll fs full); cbn [negb fst]; under_root_solve.
Qed.

(** *** Extensions *)

Lemma lower_ascii_dot c :
  Ascii.eqb (lower_ascii c) "." = Ascii.eqb c "." /\
  Ascii.eqb (lower_ascii c) "/" = Ascii.eqb c "/".
Proof. destruct c as [[] [] [] [] [] [] [] []]; split; reflexivity. Qed.

Lemma ext_scan_ToLower e :
  api.ext_scan (ToLower e) = None <-> api.ext_scan e = None.
Proof.
  induction e as [|c e IH]; cbn [ToLower api.ext_scan]; [tauto |].
  destruct (lower_ascii_dot c) as [-> ->].
  destruct (api.ext_scan (ToLower e)), (api.ext_scan e);
    try (destruct IH as [IH1 IH2];
         first [specialize (IH1 eq_refl) | specialize (IH2 eq_refl)];
         discriminate).
  - split; discriminate.
  - destruct (Ascii.eqb c "."); [split; discriminate |].
    destruct (Ascii.eqb c "/"); [split; discriminate | tauto].
Qed.

Lemma Ext_append base e :
  api.ext_scan e = None ->
  api.Ext (base ++ String "." e) = String "." e.
Proof.
  intros He. unfold api.Ext.
  assert (H : api.ext_scan (base ++ String "." e) = Some (String "." e)).
  { induction base as [|c base IH]; cbn [String.append api.ext_scan].
    - rewrite He. reflexivity.
    - rewrite IH. reflexivity. }
  rewrite H. reflexivity.
Qed.

Lemma refused_suffix_dangerous e :
  In (ToLower e) refused_suffixes ->
  api.ext_scan e = None /\ api.dangerous (ToLower (String "." e)) = true.
Proof.
  intros Hin. split.
  - apply ext_scan_ToLower.
    cbn [In refused_suffixes] in Hin.
    repeat (destruct Hin as [<- | Hin]; [reflexivity |]). destruct Hin.
  - change (ToLower (String "." e)) with (String "." (ToLower e)).
    cbn [In refused_suffixes] in Hin.
    repeat (destruct Hin as [<- | Hin]; [reflexivity |]). destruct Hin.
Qed.

(** *** Listings *)

Lemma collect_readable entries : forall acc,
  fold_left
    (fun files entry =>
       match entry with
       | None => files
       | Some info =>
           Some (match files with Some l => l | None => [] end ++ [info])
       end)
    entries acc =
  match readable entries with
  | [] => acc
  | l => Some (match acc with Some l0 => l0 | None => [] end ++ l)
  end.
Proof.
  induction entries as [|[info|] entries IH]; intros acc; cbn [fold_left].
  - reflexivity.
  - rewrite IH. unfold readable. cbn [flat_map app].
    fold (readable entries).
    destruct (readable entries) as [|i l].
    + reflexivity.
    + rewrite <- app_assoc. reflexivity.
  - rewrite IH. reflexivity.
Qed.

(** * Further properties of the lifecycle code *)

(** X1.  The three readiness loops ([probeGameServer] and both versions of
    [PingProbe.Probe]) close every connection they open: whenever a loop
    returns, or is between two iterations, what it added to the history
    holds as many [Close] calls as successful dials, and nothing but probe
    actions (no signal to the orchestrator, no exit). *)
Theorem readiness_loops_close_every_connection fuel ctx cfg
    (p : Agnostic.probe.PingProbe) (q : Sidecar.probe.PingProbe) env w :
  extends_by sockets_balanced w
    (final (Sidecar.agones.probeGameServer fuel ctx cfg env w)) /\
  extends_by sockets_balanced w
    (final (Agnostic.probe.PingProbe_Probe fuel p ctx env w)) /\
  extends_by sockets_balanced w
    (final (Sidecar.probe.PingProbe_Probe fuel q ctx env w)).
Proof.
  split; [apply probeGameServer_footprint |].
  split; [apply Agnostic_Probe_footprint | apply Sidecar_Probe_footprint].
Qed.

(** X2.  With a transport that is neither "tcp" nor "udp" (compared in
    lower case), the [PingProbe.Probe] that checks the transport never
    dials, writes or reads, and never reports success: it logs a failed
    attempt at every tick until the context is cancelled. *)
Theorem unsupported_transport_never_touches_the_network fuel
    (q : Sidecar.probe.PingProbe) ctx env w :
  ToLower (Sidecar.config.PingProtocol (Sidecar.probe.Config q)) <> "tcp" ->
  ToLower (Sidecar.config.PingProtocol (Sidecar.probe.Config q)) <> "udp" ->
  let o := Sidecar.probe.PingProbe_Probe fuel q ctx env w in
  extends_by no_socket_touched w (final o) /\
  match o with
  | Done None _ => False
  | Done (Some e) w' => e = Canceled /\ ctx_done ctx (now w') = true
  | OutOfFuel w' =>
      count_if is_retry_log (trace w') =
      (count_if is_retry_log (trace w) + fuel)%nat
  | _ => False
  end.
Proof.
  intros Htcp Hudp o.
  destruct (Sidecar_Probe_unsupported fuel q ctx env w Htcp Hudp)
    as [Hfoot Hnever].
  split; [exact Hfoot |].
  pose proof (Sidecar_Probe_outcome fuel q ctx env w) as Ho.
  fold o in Ho, Hnever.
  destruct o as [[e|] w'| | | |]; cbn in Ho, Hnever |- *;
    try contradiction.
  - destruct Ho as (He & Hd & _). split; assumption.
  - destruct Ho as [Hr _]. exact Hr.
Qed.

Lemma unsupported_transport_never_touches_the_network_witness :
  count_if is_dial
    (history (Sidecar.probe.PingProbe_Probe 3 (Sidecar.probe.mkPingProbe cfg_sctp)
                never env_all_ok World0)) = 0%nat /\
  count_if is_retry_log
    (history (Sidecar.probe.PingProbe_Probe 3 (Sidecar.probe.mkPingProbe cfg_sctp)
                never env_all_ok World0)) = 3%nat.
Proof.
  split; [vm_compute; reflexivity |].
  destruct (unsupported_transport_never_touches_the_network 3
              (Sidecar.probe.mkPingProbe cfg_sctp) never env_all_ok World0)
    as [_ H]; [vm_compute; discriminate | vm_compute; discriminate |].
  vm_compute in H. vm_compute. exact H.
Defined.

(** X3.  With the transport "tcp", in any letter case, both versions of
    [PingProbe.Probe] only dial and close: no byte is written to or read
    from the game server. *)
Theorem tcp_probe_exchanges_no_data fuel (p : Agnostic.probe.PingProbe)
    (q : Sidecar.probe.PingProbe) ctx env w :
  ToLower (Agnostic.config.Protocol (Agnostic.probe.Config p)) = "tcp" ->
  ToLower (Sidecar.config.PingProtocol (Sidecar.probe.Config q)) = "tcp" ->
  extends_by no_data_exchanged w
    (final (Agnostic.probe.PingProbe_Probe fuel p ctx env w)) /\
  extends_by no_data_exchanged w
    (final (Sidecar.probe.PingProbe_Probe fuel q ctx env w)).
Proof.
  intros Hp Hq. split;
    [apply Agnostic_Probe_tcp, Hp | apply Sidecar_Probe_tcp, Hq].
Qed.

Lemma tcp_probe_exchanges_no_data_witness :
  extends_by no_data_exchanged World0
    (final (Agnostic.probe.PingProbe_Probe 3 (Agnostic.probe.mkPingProbe mon_TCP)
              never (env_refused_until 6) World0)) /\
  extends_by no_data_exchanged World0
    (final (Sidecar.probe.PingProbe_Probe 3 (Sidecar.probe.mkPingProbe cfg_TCP)
              never (env_refused_until 6) World0)).
Proof.
  apply (tcp_probe_exchanges_no_data 3 (Agnostic.probe.mkPingProbe mon_TCP)
           (Sidecar.probe.mkPingProbe cfg_TCP) never (env_refused_until 6)
           World0); vm_compute; reflexivity.
Defined.

(** X4.  Once in its heartbeat loop, neither sidecar does anything but wait
    on its ticker and the context, send health signals and log: it never
    dials the game server again, never sends a second ready signal and
    never exits. *)
Theorem heartbeat_loops_only_send_health fuel ctx cfg mcfg sdk env w :
  extends_by only_heartbeat_actions w
    (final (Sidecar.agones.heartbeat fuel ctx cfg sdk env w)) /\
  extends_by only_heartbeat_actions w
    (final (Agnostic.heartbeat fuel ctx mcfg sdk env w)).
Proof.
  split; [apply Sidecar_heartbeat_footprint | apply Agnostic_heartbeat_footprint].
Qed.


(** X6.  Exit status of the standalone sidecar ([main.go]).  It is 1 when
    the SDK connection fails, and otherwise only when the probe was
    cancelled before any ready signal was sent, or when the ready signal
    itself failed.  It is 0 only after an acknowledged ready signal and the
    shutdown signal.  It is 2 (a panic) only with a health interval that is
    not positive, right after the acknowledged ready signal. *)
Theorem Agnostic_main_exit_status fuel cfg env w :
  let o := Agnostic.main fuel cfg env w in
  (sdk_connect env <> None -> exit_status o = Some 1) /\
  (exit_status o = Some 1 ->
     sdk_connect env <> None \/
     (ctx_done (mkContext (signal_at env)) (now (final o)) = true /\
      count_if is_ready (history o) = count_if is_ready (trace w)) \/
     (exists y, In y (history o) /\ is_ready_err (snd y) = true)) /\
  (exit_status o = Some 0 ->
     (exists c, signal_at env = Some c /\ c <= now (final o)) /\
     exists t, In (t, EReady None) (history o)) /\
  (exit_status o = Some 2 ->
     Agnostic.config.HealthInterval cfg <= 0 /\ just_announced (final o)) /\
  (forall c, exit_status o = Some c -> c = 0 \/ c = 1 \/ c = 2).
Proof.
  intros o. pose proof (Agnostic_main_outcome fuel cfg env w) as H.
  cbv zeta in H. fold o in H. unfold history.
  destruct (sdk_connect env) as [e|].
  - rewrite H. cbn [exit_status final].
    split; [reflexivity |]. split; [intros _; left; discriminate |].
    split; [discriminate |]. split; [discriminate |].
    intros c Hc. injection Hc as <-. auto.
  - split; [intros Hn; now destruct Hn |].
    destruct o as [a w'| |c w'| |]; cbn [exit_status final];
      try contradiction.
    + split; [discriminate |]. split; [intros _; exact H |].
      split; [discriminate |].
      intros c Hc. injection Hc as <-. auto.
    + split; [discriminate |]. split; [discriminate |].
      split; [intros _; exact H |].
      intros c Hc. injection Hc as <-. auto.
    + destruct H as [-> H].
      split.
      { intros _. right.
        destruct H as [H | (e' & pre & t & t' & t'' & Htr)]; [left; exact H |].
        right. exists (t, EReady (Some e')). split; [| reflexivity].
        rewrite Htr. apply in_or_app. right. left. reflexivity. }
      split; [discriminate |]. split; [discriminate |].
      intros c Hc. injection Hc as <-. auto.
    + repeat split; try discriminate.
Qed.





(** X10.  The optional read of the newer UDP probe never changes the
    verdict: on the transport "udp", an attempt of the [PingProbe.Probe]
    that reads a reply and an attempt of the one that does not return the
    same result from the same state, namely the error of the dial, or
    else that of the write of "ping". *)
Theorem udp_read_never_changes_the_verdict (p : Agnostic.probe.PingProbe)
    (q : Sidecar.probe.PingProbe) address env w :
  exists res w0 w',
    Agnostic.probe.attempt p "udp" address env w = Done res w0 /\
    Sidecar.probe.attempt q "udp" address env w = Done res w' /\
    res = match dial_reply env (calls w) with
          | (_, Some e) => Some e
          | (_, None) => write_reply env (S (calls w))
          end.
Proof.
  pose proof (Agnostic_udp_attempt p address env w) as Ha.
  pose proof (Sidecar_udp_attempt q address env w) as Hs.
  cbv zeta in Ha, Hs. rewrite Ha.
  destruct (dial_reply env (calls w)) as [d [e|]].
  - do 3 eexists. split; [reflexivity |]. split; [exact Hs | reflexivity].
  - destruct Hs as (w' & Hs & _). cbn [emit calls] in Hs |- *.
    do 3 eexists. split; [reflexivity |]. split; [exact Hs | reflexivity].
Qed.

(** * Properties of the file API *)

(** X11.  The rate limiter counts per client key and per window: with no
    reset in between, a request that is not for /health is passed on
    exactly when fewer than [rateLimit] requests with its client key (the
    count at the start plus those served since, rejected ones included)
    were counted before it.  Requests of other clients and requests for
    /health do not matter. *)
Theorem rate_limit_is_per_client_key (s : api.Server) rs r :
  let k := api.clientIP r in
  let c := api.get (api.requestCounts s) k in
  let n := Z.of_nat (List.length (filter (api.counted k) rs)) in
  api.URL_Path r <> "/health" ->
  0 <= c -> c + n <= api.int_max ->
  snd (api.rateLimitRequest (fst (api.serve s rs)) r) =
  (c + n <? api.rateLimit s).
Proof.
  intros k c n Hpath H0 Hmax.
  destruct (serve_count s rs k H0 Hmax) as [Hget Hlim].
  unfold api.rateLimitRequest.
  apply String.eqb_neq in Hpath. rewrite Hpath. cbn [snd].
  fold k. rewrite Hget, Hlim. fold c n.
  rewrite Z.ltb_antisym. reflexivity.
Qed.

Lemma rate_limit_is_per_client_key_witness :
  snd (api.rateLimitRequest
         (fst (api.serve server_limit_2
                 [list_request "10.0.0.1:4000" "";
                  list_request "10.0.0.2:4000" "";
                  list_request "10.0.0.1:4000" ""]))
         (list_request "10.0.0.1:4000" "")) = false.
Proof.
  rewrite (rate_limit_is_per_client_key server_limit_2
             [list_request "10.0.0.1:4000" "";
              list_request "10.0.0.2:4000" "";
              list_request "10.0.0.1:4000" ""]
             (list_request "10.0.0.1:4000" ""));
    vm_compute; try reflexivity; discriminate.
Defined.

(** X12.  [NewServer] always sets a positive rate limit, whatever
    SIDECAR_RATE_LIMIT holds, and starts with no count.  On a new server,
    with no reset in between, requests whose client keys are pairwise
    distinct are all passed on: the key is the first field of
    X-Forwarded-For when the header is set, so a client that changes the
    header with every request is never limited. *)
Theorem fresh_client_keys_are_never_limited Join Atoi Getenv la root f rs :
  NoDup (map api.clientIP rs) ->
  let s := api.NewServer Join Atoi Getenv la root f in
  0 < api.rateLimit s /\
  api.requestCounts s = [] /\
  snd (api.serve s rs) = map (fun _ => true) rs.
Proof.
  intros Hnd s.
  split; [apply NewServer_rateLimit |]. split; [reflexivity |].
  apply serve_fresh_keys; [apply NewServer_rateLimit | exact Hnd |].
  intros r _. reflexivity.
Qed.

Lemma fresh_client_keys_are_never_limited_witness :
  api.rateLimit
    (api.NewServer join_plain atoi_digit getenv_limit_1 ":9999" "/data"
       "logs/stdout.log") = 1 /\
  snd (api.serve
         (api.NewServer join_plain atoi_digit getenv_limit_1 ":9999" "/data"
            "logs/stdout.log")
         [list_request "10.0.0.1:4000" "a";
          list_request "10.0.0.1:4000" "b, a";
          list_request "10.0.0.1:4000" "c"]) = [true; true; true].
Proof.
  split; [vm_compute; reflexivity |].
  destruct (fresh_client_keys_are_never_limited join_plain atoi_digit
              getenv_limit_1 ":9999" "/data" "logs/stdout.log"
              [list_request "10.0.0.1:4000" "a";
               list_request "10.0.0.1:4000" "b, a";
               list_request "10.0.0.1:4000" "c"]) as (_ & _ & H).
  - vm_compute. repeat constructor; cbn; intuition discriminate.
  - exact H.
Defined.

(** X13.  The reset goroutines of the rate limiter.  On a server made by
    [NewServer], after any interleaving of requests and of resets by the
    goroutines started so far, the map holds exactly the client keys for
    which a reset goroutine is still asleep, each of them once, and every
    count in it is positive: no count is left without a reset to come, and
    no key has two.  The rate limit itself never changes, and every
    request gets exactly one verdict. *)
Theorem every_counted_client_has_one_reset_pending Join Atoi Getenv la root
    f acts st' vs :
  let s := api.NewServer Join Atoi Getenv la root f in
  Z.of_nat (List.length acts) <= api.int_max ->
  api.run (s, []) acts = Some (st', vs) ->
  limiter_inv (Z.of_nat (List.length acts)) st' /\
  api.rateLimit (fst st') = api.rateLimit s /\
  List.length vs = arrivals acts.
Proof.
  intros s Hmax Hrun.
  apply (limiter_run acts 0 (s, []) st' vs); [lia | lia | | exact Hrun].
  unfold limiter_inv. cbn.
  repeat split; try constructor; try tauto; try lia; intros [].
Qed.

Lemma every_counted_client_has_one_reset_pending_witness :
  limiter_inv 4
    (api.mkServer ":9999" "/data" "/data/logs/stdout.log"
       [("10.0.0.2:4000", 1)] 1,
     ["10.0.0.2:4000"]).
Proof.
  destruct (every_counted_client_has_one_reset_pending join_plain atoi_digit
              getenv_limit_1 ":9999" "/data" "logs/stdout.log"
              [api.Arrive (list_request "10.0.0.1:4000" "");
               api.Arrive (list_request "10.0.0.1:4000" "");
               api.Arrive (list_request "10.0.0.2:4000" "");
               api.Expire "10.0.0.1:4000"]
              (api.mkServer ":9999" "/data" "/data/logs/stdout.log"
                 [("10.0.0.2:4000", 1)] 1,
               ["10.0.0.2:4000"])
              [true; false; true]) as [H _].
  - vm_compute. discriminate.
  - vm_compute. reflexivity.
  - exact H.
Defined.

(** X14.  Every call that the list, download, upload, delete and create-dir
    handlers make on the file system is on a path that passed
    [sanitizePath] or the check of the upload destination: a path that
    begins with the text of the data root.  The delete handler never calls
    [os.RemoveAll] on the data root itself. *)
Theorem handlers_stay_under_the_data_root Join s fs r :
  under_root s (fst (api.listFilesHandler Join s fs r)) /\
  under_root s (fst (api.downloadFileHandler Join s fs r)) /\
  under_root s (fst (api.uploadFileHandler Join s fs r)) /\
  under_root s (fst (api.deleteFileHandler Join s fs r)) /\
  under_root s (fst (api.createDirHandler Join s fs r)) /\
  ~ In (api.OpRemoveAll (api.dataRoot s))
       (fst (api.deleteFileHandler Join s fs r)).
Proof.
  split; [apply listFilesHandler_under_root |].
  split; [apply downloadFileHandler_under_root |].
  split; [apply uploadFileHandler_under_root |].
  split; [apply deleteFileHandler_under_root |].
  split; [apply createDirHandler_under_root |].
  apply deleteFileHandler_under_root.
Qed.

(** X15.  The upload handler refuses every file whose name ends in a dot
    followed by one of the listed extensions, in any letter case
    (shell.PHP, Setup.Exe): the answer is an error, and no file is
    created, written, removed and no directory made.  Only the text after
    the last dot of the name counts. *)
Theorem upload_refuses_listed_extensions Join s fs r base e :
  api.FormFile r = inl (base ++ String "." e)%string ->
  In (ToLower e) refused_suffixes ->
  api.Ext (base ++ String "." e) = String "." e /\
  match api.uploadFileHandler Join s fs r with
  | (ops, api.Error _ code) =>
      (code = api.StatusBadRequest \/ code = api.StatusInternalServerError) /\
      Forall (fun o => is_write_op o = false) ops
  | _ => False
  end.
Proof.
  intros Hfile Hin.
  destruct (refused_suffix_dangerous e Hin) as [Hscan Hdanger].
  pose proof (Ext_append base e Hscan) as Hext.
  split; [exact Hext |].
  unfold api.uploadFileHandler.
  destruct (api.sanitizePath Join s _) as [full | err];
    [| split; [now left | constructor]].
  destruct (api.Stat fs full) as [| |[|]];
    try (split; [first [now left | now right] | repeat constructor]).
  rewrite Hfile, Hext, Hdanger.
  split; [now left | repeat constructor].
Qed.

Lemma upload_refuses_listed_extensions_witness :
  api.Ext "shell.PHP" = ".PHP" /\
  match api.uploadFileHandler join_plain server_limit_2 fs_small
          (upload_request "shell.PHP" "true") with
  | (ops, api.Error _ code) =>
      (code = api.StatusBadRequest \/ code = api.StatusInternalServerError) /\
      Forall (fun o => is_write_op o = false) ops
  | _ => False
  end.
Proof.
  apply (upload_refuses_listed_extensions join_plain server_limit_2 fs_small
           (upload_request "shell.PHP" "true") "shell" "PHP");
    [reflexivity | vm_compute; tauto].
Defined.

(** X16.  The upload handler opens a file for writing only at the
    destination made of the sanitized directory and the file name, after
    [os.Stat] has shown the directory to be one, for a name whose lowered
    extension is not listed; and when [os.Stat] finds something at the
    destination, only if the request says overwrite=true.  It answers 201
    only after both the open and the copy have succeeded. *)
Theorem upload_writes_only_after_its_checks Join s fs r p :
  In (api.OpOpenFile p) (fst (api.uploadFileHandler Join s fs r)) ->
  let dir := Join (api.dataRoot s) (api.Query r "path") in
  (exists filename,
      api.FormFile r = inl filename /\
      p = Join dir filename /\
      api.dangerous (ToLower (api.Ext filename)) = false) /\
  api.Stat fs dir = api.Info true /\
  String.prefix (api.dataRoot s) p = true /\
  ((exists d, api.Stat fs p = api.Info d) ->
   api.Query r "overwrite" = "true") /\
  (snd (api.uploadFileHandler Join s fs r) =
     api.Written api.StatusCreated "File uploaded successfully" ->
   api.OpenFile fs p = true /\ api.Copy fs p = true).
Proof.
  intros Hin dir. unfold api.uploadFileHandler in *.
  destruct (api.sanitizePath Join s _) as [full | err] eqn:E;
    [| destruct Hin].
  apply sanitizePath_inl in E as [-> Hpre]. fold dir in Hin, Hpre |- *.
  destruct (api.Stat fs dir) as [| |[|]] eqn:Hdir; cbn [fst In] in Hin;
    try (destruct Hin as [Hin | []]; discriminate).
  destruct (api.FormFile r) as [filename | err]; cbn [fst In] in Hin;
    [| destruct Hin as [Hin | []]; discriminate].
  destruct (api.dangerous _) eqn:Hd; cbn [fst In] in Hin;
    [destruct Hin as [Hin | []]; discriminate |].
  destruct (String.prefix dir (Join dir filename)) eqn:Hdest;
    cbn [negb fst In] in Hin |- *;
    [| destruct Hin as [Hin | []]; discriminate].
  assert (Hp : (if match api.Stat fs (Join dir filename) with
                   | api.Info _ => true | _ => false end
                   && negb (String.eqb (api.Query r "overwrite") "true")
                then False else p = Join dir filename)).
  { destruct (_ && _).
    - destruct Hin as [Hin | [Hin | []]]; discriminate.
    - destruct (api.OpenFile fs _);
        [destruct (api.Copy fs _) |]; cbn [negb fst In] in Hin;
        repeat (destruct Hin as [Hin | Hin]; try discriminate;
                try (injection Hin as <-; reflexivity));
        destruct Hin. }
  destruct (_ && _) eqn:Hover; [destruct Hp |]. subst p.
  split; [exists filename; auto |]. split; [reflexivity |].
  split; [exact (prefix_trans _ _ _ Hpre Hdest) |]. split.
  - intros [d Hd']. rewrite Hd' in Hover. cbn [andb] in Hover.
    apply Bool.negb_false_iff, String.eqb_eq in Hover. exact Hover.
  - destruct (api.OpenFile fs _); cbn [negb snd]; [| discriminate].
    destruct (api.Copy fs _); cbn [negb snd]; [auto | discriminate].
Qed.

Lemma upload_writes_only_after_its_checks_witness :
  api.uploadFileHandler join_plain server_limit_2 fs_small
    (upload_request "a.txt" "") =
  ([api.OpStat "/data/mods"; api.OpStat "/data/mods/a.txt"],
   api.Error "File already exists. Use overwrite=true to replace it." 409) /\
  api.Query (upload_request "a.txt" "true") "overwrite" = "true".
Proof.
  split; [vm_compute; reflexivity |].
  destruct (upload_writes_only_after_its_checks join_plain server_limit_2
              fs_small (upload_request "a.txt" "true") "/data/mods/a.txt")
    as (_ & _ & _ & H & _).
  - vm_compute. tauto.
  - apply H. exists false. vm_compute. reflexivity.
Defined.

(** X17.  When the directory can be read, the list handler answers the
    entries whose [Info] succeeded, in the order of the directory, and
    skips the others.  When there is none, an empty directory included,
    the slice is still nil and the body is the JSON null, not an empty
    list. *)
Theorem listing_keeps_the_readable_entries Join s fs r entries :
  let dir := Join (api.dataRoot s) (api.Query r "path") in
  String.prefix (api.dataRoot s) dir = true ->
  api.ReadDir fs dir = Some entries ->
  api.listFilesHandler Join s fs r =
  ([api.OpReadDir dir],
   api.Json (match readable entries with
             | [] => None
             | l => Some l
             end)).
Proof.
  intros dir Hpre Hread. unfold api.listFilesHandler, api.sanitizePath.
  fold dir. rewrite Hpre. cbn [negb]. rewrite Hread.
  rewrite collect_readable. reflexivity.
Qed.

Lemma listing_keeps_the_readable_entries_witness :
  api.listFilesHandler join_plain server_limit_2 fs_small
    (list_request "10.0.0.1:4000" "") =
  ([api.OpReadDir "/data"], api.Json None) /\
  api.listFilesHandler join_plain server_limit_2 fs_unreadable_entry
    (list_request "10.0.0.1:4000" "") =
  ([api.OpReadDir "/data"], api.Json None).
Proof.
  split.
  - apply (listing_keeps_the_readable_entries join_plain server_limit_2
             fs_small (list_request "10.0.0.1:4000" "") []);
      vm_compute; reflexivity.
  - apply (listing_keeps_the_readable_entries join_plain server_limit_2
             fs_unreadable_entry (list_request "10.0.0.1:4000" "") [None]);
      vm_compute; reflexivity.
Defined.
